(** * A two-layer agentic knowledge system: chunking, directory and routing

    A shallow embedding of [two_layer_agentic_system.py] and of the merge
    loop of [build_knowledge.py].

    Conventions of the embedding.
    - A Python [str] is a [string]; every [ascii] stands for the Unicode
      code point of the same number (the Latin-1 range).
    - A Python [dict] is an association list in insertion order with
      pairwise distinct keys ([Dict.set] keeps the position of a key that is
      already present, as Python does).
    - The file system is a finite map from paths to file states; every
      function that touches files or calls a model runs in the monad [M],
      which threads a [World] (the files and the trace of reads, writes and
      model calls) and may raise.
    - The language models, the JSON codec and the failures of writing are
      taken from an environment [Env].
    - Calls to [print] only write to the console and are left out. *)

From Stdlib Require Import Ascii String List ZArith Bool Lia DecimalString
  DecimalNat.
From stdpp Require Import base option strings gmap.

Import ListNotations.
Local Open Scope string_scope.
Local Open Scope list_scope.

(* ===================================================================== *)
(** * Python strings                                                       *)
(* ===================================================================== *)

Module Py.

(** The line feed and the double quote as one-character strings. *)
Definition LF : ascii := ascii_of_nat 10.
Definition nl : string := String LF EmptyString.
Definition dq : string := String (ascii_of_nat 34) EmptyString.

(** [str.isspace] on one code point below 256: the characters Python's
    [str.strip()] removes. *)
Definition isspace (c : ascii) : bool :=
  let n := nat_of_ascii c in
  (((9 <=? n) && (n <=? 13)) || ((28 <=? n) && (n <=? 32))
   || (n =? 133) || (n =? 160))%nat.

(** Truth value of a [str]: non-empty. *)
Definition nonempty (s : string) : bool :=
  match s with EmptyString => false | String _ _ => true end.

Fixpoint lstrip (s : string) : string :=
  match s with
  | EmptyString => EmptyString
  | String c r => if isspace c then lstrip r else s
  end.

Fixpoint rstrip (s : string) : string :=
  match s with
  | EmptyString => EmptyString
  | String c r =>
      let r' := rstrip r in
      if isspace c && negb (nonempty r') then EmptyString else String c r'
  end.

(** [s.strip()] *)
Definition strip (s : string) : string := rstrip (lstrip s).

(** [s.split('\n', 1)]: one or two pieces. *)
Fixpoint split_line (s : string) : list string :=
  match s with
  | EmptyString => [EmptyString]
  | String c r =>
      if Ascii.eqb c LF then [EmptyString; r]
      else match split_line r with
           | h :: t => String c h :: t
           | [] => [String c EmptyString]
           end
  end.

(** [s.replace(a, b)] for one-character [a] and [b]. *)
Fixpoint replace (a b : ascii) (s : string) : string :=
  match s with
  | EmptyString => EmptyString
  | String c r => String (if Ascii.eqb c a then b else c) (replace a b r)
  end.

Definition rev_string (l : list ascii) : string :=
  string_of_list_ascii (rev l).

(** [re.split(r'^<marker>', s, flags=re.MULTILINE)] for a non-empty literal
    [marker]: [s] is cut at every occurrence of [marker] that starts a line
    (at the start of [s] or right after a line feed); the occurrences
    themselves are dropped.  [bol] tells whether the next character starts a
    line, [skip] counts the characters of a matched marker still to drop and
    [cur] is the current piece, reversed. *)
Fixpoint re_split_bol (marker : string) (bol : bool) (skip : nat)
    (cur : list ascii) (s : string) : list string :=
  match s with
  | EmptyString => [rev_string cur]
  | String c r =>
      match skip with
      | S k => re_split_bol marker (Ascii.eqb c LF) k cur r
      | O =>
          if bol && String.prefix marker s then
            rev_string cur
              :: re_split_bol marker (Ascii.eqb c LF)
                   (String.length marker - 1) [] r
          else re_split_bol marker (Ascii.eqb c LF) 0 (c :: cur) r
      end
  end.

Definition re_split (marker s : string) : list string :=
  re_split_bol marker true 0 [] s.

(** [str(n)] for a natural number and for an integer. *)
Definition str_nat (n : nat) : string :=
  NilEmpty.string_of_uint (Nat.to_uint n).

Definition str_int (z : Z) : string :=
  NilZero.string_of_int (Z.to_int z).

(** [sep.join(l)] *)
Fixpoint join (sep : string) (l : list string) : string :=
  match l with
  | [] => EmptyString
  | [x] => x
  | x :: r => x +:+ sep +:+ join sep r
  end.

(** [Path(p).stem] for a POSIX path (as [pathlib] defines it up to
    Python 3.13): the last component that is neither empty nor ["."], cut
    before its last dot unless that dot is the first or the last character
    of the component. *)
Fixpoint split_on (d : ascii) (s : string) : list string :=
  match s with
  | EmptyString => [EmptyString]
  | String c r =>
      if Ascii.eqb c d then EmptyString :: split_on d r
      else match split_on d r with
           | h :: t => String c h :: t
           | [] => [String c EmptyString]
           end
  end.

Definition path_name (p : string) : string :=
  List.last
    (List.filter (fun c => negb (String.eqb c "" || String.eqb c "."))
       (split_on "/" p)) EmptyString.

(** Index of the last occurrence of [d] in [s], if any. *)
Fixpoint rfind (d : ascii) (s : string) : option nat :=
  match s with
  | EmptyString => None
  | String c r =>
      match rfind d r with
      | Some i => Some (S i)
      | None => if Ascii.eqb c d then Some 0 else None
      end
  end.

Definition path_stem (p : string) : string :=
  let name := path_name p in
  match rfind "." name with
  | Some i =>
      if ((0 <? i) && (i <? String.length name - 1))%nat
      then String.substring 0 i name else name
  | None => name
  end.

End Py.

(* ===================================================================== *)
(** * Python dictionaries with string keys                                 *)
(* ===================================================================== *)

Module Dict.
Section dict.
Context {V : Type}.

(** [d.get(k)] *)
Fixpoint get (k : string) (d : list (string * V)) : option V :=
  match d with
  | [] => None
  | (k', v) :: r => if String.eqb k k' then Some v else get k r
  end.

(** [k in d] *)
Definition mem (k : string) (d : list (string * V)) : bool :=
  match get k d with Some _ => true | None => false end.

(** [d[k] = v]: a key already present keeps its position. *)
Fixpoint set (k : string) (v : V) (d : list (string * V))
    : list (string * V) :=
  match d with
  | [] => [(k, v)]
  | (k', v') :: r =>
      if String.eqb k k' then (k, v) :: r else (k', v') :: set k v r
  end.

(** [d.update(incoming)] *)
Definition update (d incoming : list (string * V)) : list (string * V) :=
  fold_left (fun acc kv => set (fst kv) (snd kv) acc) incoming d.

(** [d1 == d2] on dictionaries: the same keys with the same values,
    whatever the insertion order. *)
Definition same (d1 d2 : list (string * V)) : Prop :=
  forall k, get k d1 = get k d2.

Definition keys (d : list (string * V)) : list string := map fst d.

(** The keys of a dictionary are pairwise distinct. *)
Definition wf (d : list (string * V)) : Prop := List.NoDup (keys d).
End dict.
End Dict.

(* ===================================================================== *)
(** * Data model                                                           *)
(* ===================================================================== *)

(** A directory entry: [{"description": ..., "chunk_file": ...}]. *)
Record Entry := mkEntry { description : string; chunk_file : string }.

(** The knowledge directory: [section_id -> Entry]. *)
Abbreviation Directory := (list (string * Entry)).

Definition DIRECTORY_FILE : string := "directory.json".
Definition CHUNKS_DIR : string := "chunks".
Definition AGENT_A_MODEL : string := "google/gemma-3n-e2b-it:free".
Definition AGENT_R_MODEL : string := "google/gemma-3-12b-it:free".
Definition API_KEY_PLACEHOLDER : string := "YOUR_OPENROUTER_API_KEY_HERE".

(* ===================================================================== *)
(** * The world: files, the trace of effects, exceptions                   *)
(* ===================================================================== *)

(** A path holds text, or exists but cannot be opened or decoded
    ([PermissionError], [IsADirectoryError], [UnicodeDecodeError], ...; the
    string is [str(e)]).  A path that is absent from the map does not exist
    ([FileNotFoundError]). *)
Inductive file_state :=
| Text (s : string)
| Unreadable (msg : string).

Inductive Event :=
| EvRead (path : string)
| EvWrite (path data : string)
| EvInvoke (model prompt : string).

Record World := mkWorld {
  files : gmap string file_state;
  log : list Event          (* newest first *)
}.

Inductive exn :=
| FileNotFoundError (path : string)
| OSError (msg : string)
| ValueError (msg : string)
| ModelError (msg : string)
| KeyError (key : string)
| TypeError
| AttributeError.

(** [str(e)].  [KeyError], [TypeError] and [AttributeError] are only raised
    outside of every [try] block of the program and are never formatted. *)
Definition exn_str (e : exn) : string :=
  match e with
  | FileNotFoundError path =>
      "[Errno 2] No such file or directory: '" +:+ path +:+ "'"
  | OSError msg | ValueError msg | ModelError msg => msg
  | KeyError key => key
  | TypeError | AttributeError => ""
  end.

Inductive Res (A : Type) :=
| Val (a : A)
| Exc (e : exn).
Arguments Val {A} a.
Arguments Exc {A} e.

Definition M (A : Type) : Type := World -> Res A * World.

Definition ret {A} (a : A) : M A := fun w => (Val a, w).
Definition raise {A} (e : exn) : M A := fun w => (Exc e, w).
Definition bind {A B} (m : M A) (k : A -> M B) : M B :=
  fun w => match m w with
           | (Val a, w') => k a w'
           | (Exc e, w') => (Exc e, w')
           end.

(** [try: m  except Exception as e: h e] *)
Definition try_except {A} (m : M A) (h : exn -> M A) : M A :=
  fun w => match m w with
           | (Val a, w') => (Val a, w')
           | (Exc e, w') => h e w'
           end.

Notation "'let*' x ':=' m 'in' k" := (bind m (fun x => k))
  (at level 10, x name, m at level 100, k at level 200).

(** The world after one effect: a write replaces the file, every effect is
    logged. *)
Definition effect (ev : Event) (w : World) : World :=
  {| files := match ev with
              | EvWrite path data => <[path := Text data]> (files w)
              | _ => files w
              end;
     log := ev :: log w |}.

(* ===================================================================== *)
(** * JSON values as Python sees them                                      *)
(* ===================================================================== *)

#[local] Set Warnings "-register-all".

(** What [json.loads] returns.  Numbers are the integers; a number with a
    fraction or an exponent is outside the embedding.  An object is a
    dictionary: its keys are pairwise distinct. *)
Inductive json :=
| JNull
| JBool (b : bool)
| JInt (z : Z)
| JStr (s : string)
| JArr (l : list json)
| JObj (kv : list (string * json)).

Module PyVal.

(** Truth value of a Python object. *)
Definition truthy (v : json) : bool :=
  match v with
  | JNull => false
  | JBool b => b
  | JInt z => negb (Z.eqb z 0)
  | JStr s => Py.nonempty s
  | JArr l => match l with [] => false | _ => true end
  | JObj kv => match kv with [] => false | _ => true end
  end.

Definition hex_digit (n : nat) : ascii :=
  nth n (list_ascii_of_string "0123456789abcdef") "0"%char.

Definition hex2 (n : nat) : string :=
  String (hex_digit (n / 16)) (String (hex_digit (n mod 16)) EmptyString).

Definition printable (n : nat) : bool :=
  (((32 <=? n) && (n <? 127)) || ((161 <=? n) && negb (n =? 173)))%nat.

Fixpoint contains (c : ascii) (s : string) : bool :=
  match s with
  | EmptyString => false
  | String c' r => Ascii.eqb c c' || contains c r
  end.

Definition SQ : ascii := "'"%char.
Definition DQ : ascii := ascii_of_nat 34.
Definition BS : ascii := "\"%char.

Definition repr_char (q c : ascii) : string :=
  if Ascii.eqb c q || Ascii.eqb c BS then String BS (String c EmptyString)
  else if Ascii.eqb c (ascii_of_nat 9) then "\t"
  else if Ascii.eqb c (ascii_of_nat 10) then "\n"
  else if Ascii.eqb c (ascii_of_nat 13) then "\r"
  else if printable (nat_of_ascii c) then String c EmptyString
  else "\x" +:+ hex2 (nat_of_ascii c).

Fixpoint repr_chars (q : ascii) (s : string) : string :=
  match s with
  | EmptyString => EmptyString
  | String c r => repr_char q c +:+ repr_chars q r
  end.

(** [repr(s)] for a [str]: single quotes unless the text has a single quote
    and no double quote. *)
Definition repr_str (s : string) : string :=
  let q := if contains SQ s && negb (contains DQ s) then DQ else SQ in
  String q EmptyString +:+ repr_chars q s +:+ String q EmptyString.

(** [repr(v)] *)
Fixpoint repr (v : json) : string :=
  match v with
  | JNull => "None"
  | JBool true => "True"
  | JBool false => "False"
  | JInt z => Py.str_int z
  | JStr s => repr_str s
  | JArr l => "[" +:+ Py.join ", " (map repr l) +:+ "]"
  | JObj kv =>
      "{" +:+ Py.join ", "
                (map (fun p : string * json => let (k, x) := p in
                               repr_str k +:+ ": " +:+ repr x) kv)
          +:+ "}"
  end.

(** [str(v)], what an f-string inserts. *)
Definition str (v : json) : string :=
  match v with
  | JStr s => s
  | _ => repr v
  end.

(** Lists and dictionaries cannot be hashed. *)
Definition hashable (v : json) : bool :=
  match v with
  | JArr _ | JObj _ => false
  | _ => true
  end.

End PyVal.

(* ===================================================================== *)
(** * The environment                                                      *)
(* ===================================================================== *)

(** How a write to a file fails.  [open(path, 'w')] can raise, and the file
    is then as it was (it is not created either).  Once it is open the file
    has been created or emptied; when the writing or the closing raises,
    the file is left with the first [kept] characters of the data. *)
Inductive WriteFault :=
| OpenFails (msg : string)
| WriteFails (kept : nat) (msg : string).

(** What the program takes from outside: the configured API key, the
    language models, the JSON codec and the failures of writing. *)
Record Env := mkEnv {
  (** [config.OPENROUTER_API_KEY] *)
  OPENROUTER_API_KEY : string;
  (** [ChatOpenAI(model=...).invoke([SystemMessage(prompt)])], given the
      effects so far: the [content] of the response, or [str(e)] of the
      exception it raises. *)
  llm : list Event -> string -> string -> string + string;
  (** [json.loads]; [None] is [json.JSONDecodeError]. *)
  json_loads : string -> option json;
  (** [json.dumps(v, ensure_ascii=False)] *)
  json_dumps : json -> string;
  (** [json.load] of the text of the directory file; [None] is
      [json.JSONDecodeError].  The directory file is taken to hold, when it
      decodes, a directory: an object whose values are entries with their
      two fields.  On another JSON value the program goes on with that
      value until [len], [update] or [items] raises on it; those runs are
      not described here. *)
  directory_loads : string -> option Directory;
  (** [json.dump(directory, f, indent=2, ensure_ascii=False)] *)
  directory_dumps : Directory -> string;
  (** [open(path, 'w')] followed by the writing of the data: how it fails,
      if it does.  The faults are the environment's, for each path and
      data, and do not change while the program runs. *)
  write_error : string -> string -> option WriteFault
}.

(* ===================================================================== *)
(** * Files                                                                *)
(* ===================================================================== *)

Section program.

Variable E : Env.

(** [open(path, 'r', encoding='utf-8').read()] *)
Definition read_text (path : string) : M string :=
  fun w =>
    let w' := effect (EvRead path) w in
    match files w !! path with
    | None => (Exc (FileNotFoundError path), w')
    | Some (Unreadable msg) => (Exc (OSError msg), w')
    | Some (Text s) => (Val s, w')
    end.

(** [with open(path, 'w', encoding='utf-8') as f: f.write(data)].  When
    the file cannot be opened nothing changes; when the writing fails the
    file, already emptied, keeps the part of the data that went through. *)
Definition write_text (path data : string) : M unit :=
  fun w =>
    match write_error E path data with
    | None => (Val tt, effect (EvWrite path data) w)
    | Some (OpenFails msg) => (Exc (OSError msg), w)
    | Some (WriteFails kept msg) =>
        (Exc (OSError msg),
         effect (EvWrite path (String.substring 0 kept data)) w)
    end.

(** [os.path.exists(path)] *)
Definition path_exists (path : string) : M bool :=
  fun w => (Val (bool_decide (is_Some (files w !! path))), w).

(** [load_directory] *)
Definition load_directory : M Directory :=
  let* ex := path_exists DIRECTORY_FILE in
  if negb ex then ret []
  else
    try_except
      (let* text := read_text DIRECTORY_FILE in
       match directory_loads E text with
       | Some d => ret d
       | None => ret []              (* json.JSONDecodeError *)
       end)
      (fun e => match e with
                | FileNotFoundError _ => ret []
                | _ => raise e
                end).

(** [save_directory] *)
Definition save_directory (directory : Directory) : M unit :=
  try_except (write_text DIRECTORY_FILE (directory_dumps E directory))
    (fun _ => ret tt).

(* ===================================================================== *)
(** * Knowledge base parsing                                               *)
(* ===================================================================== *)

Definition file_prefix_of (file_path : string) : string :=
  Py.replace "-" "_" (Py.replace " " "_" (Py.path_stem file_path)).

Definition chapter_id (file_prefix : string) (h1_idx : nat) : string :=
  file_prefix +:+ "_chapter_" +:+ Py.str_nat h1_idx.

Definition group_id (file_prefix : string) (n : nat) : string :=
  file_prefix +:+ "_group_" +:+ Py.str_nat n.

Definition chunk_path (section_id : string) : string :=
  CHUNKS_DIR +:+ "/" +:+ section_id +:+ ".txt".

(** The first piece of [section.split('\n', 1)], stripped, and the second
    piece if there is one. *)
Definition heading_of (section : string) : string :=
  Py.strip (nth 0 (Py.split_line section) EmptyString).

Definition content_of (section : string) : string :=
  let lines := Py.split_line section in
  if (1 <? List.length lines)%nat then nth 1 lines EmptyString
  else EmptyString.

(** The [try] block that writes one chunk and enters it in
    [directory_entries]; on an exception the chunk is skipped. *)
Definition store_chunk (section_id description chunk_content : string)
    (st : Directory * nat) : M (Directory * nat) :=
  let chunk_file := chunk_path section_id in
  try_except
    (let* _ := write_text chunk_file (Py.strip chunk_content) in
     ret (Dict.set section_id (mkEntry description chunk_file) (fst st),
          S (snd st)))
    (fun _ => ret st).

(** The loop over [enumerate(h1_sections)]; the state is
    [(directory_entries, chunk_count)]. *)
Fixpoint h1_loop (file_prefix : string) (h1_idx : nat)
    (h1_sections : list string) (st : Directory * nat)
    : M (Directory * nat) :=
  match h1_sections with
  | [] => ret st
  | h1_section :: rest =>
      if negb (Py.nonempty (Py.strip h1_section)) then
        h1_loop file_prefix (S h1_idx) rest st
      else if (h1_idx =? 0)%nat then
        h1_loop file_prefix (S h1_idx) rest st
      else
        let h1_heading := heading_of h1_section in
        let h1_content := content_of h1_section in
        let section_id := chapter_id file_prefix h1_idx in
        let chunk_content := "# " +:+ h1_heading +:+ Py.nl +:+ h1_content in
        let* st' := store_chunk section_id h1_heading chunk_content st in
        h1_loop file_prefix (S h1_idx) rest st'
  end.

Definition sections_per_chunk : nat := 2.

(** The state of the fallback loop:
    [(current_chunk_sections, current_chunk_titles)] and
    [(directory_entries, chunk_count)]. *)
Definition group_state : Type :=
  (list string * list string) * (Directory * nat).

Definition full_description (titles : list string) : string :=
  if (List.length titles =? 1)%nat then nth 0 titles EmptyString
  else nth 0 titles EmptyString +:+ " and " +:+ List.last titles EmptyString.

Definition rest_description (titles : list string) : string :=
  if (List.length titles =? 1)%nat then nth 0 titles EmptyString
  else nth 0 titles EmptyString +:+ " and others".

Definition blank_line : string := Py.nl +:+ Py.nl.

(** The loop over [h2_sections[1:]]. *)
Fixpoint h2_loop (file_prefix : string) (sections : list string)
    (gs : group_state) : M group_state :=
  match sections with
  | [] => ret gs
  | section :: rest =>
      if negb (Py.nonempty (Py.strip section)) then
        h2_loop file_prefix rest gs
      else
        let '((cur_sections, cur_titles), st) := gs in
        let heading := heading_of section in
        let section_content := content_of section in
        let cur_sections :=
          cur_sections ++ ["## " +:+ heading +:+ Py.nl +:+ section_content] in
        let cur_titles := cur_titles ++ [heading] in
        if (sections_per_chunk <=? List.length cur_sections)%nat then
          let section_id :=
            group_id file_prefix (List.length (fst st) + 1) in
          let* st' := store_chunk section_id (full_description cur_titles)
                   (Py.join blank_line cur_sections) st in
          h2_loop file_prefix rest (([], []), st')
        else h2_loop file_prefix rest ((cur_sections, cur_titles), st)
  end.

(** The fallback: grouping of the H2 sections, with the last flush. *)
Definition h2_grouping (file_prefix content : string)
    (st : Directory * nat) : M (Directory * nat) :=
  let h2_sections := Py.re_split "## " content in
  let* gs := h2_loop file_prefix (tl h2_sections) (([], []), st) in
  let '((cur_sections, cur_titles), st) := gs in
  match cur_sections with
  | [] => ret st
  | _ :: _ =>
      let section_id := group_id file_prefix (List.length (fst st) + 1) in
      store_chunk section_id (rest_description cur_titles)
        (Py.join blank_line cur_sections) st
  end.

(** [parse_markdown_document] *)
Definition parse_markdown_document (file_path : string)
    : M (Directory * nat) :=
  let* r := try_except (let* content := read_text file_path in ret (Some content))
         (fun _ => ret None) in
  match r with
  | None => ret ([], 0)
  | Some content =>
      let h1_sections := Py.re_split "# " content in
      let file_prefix := file_prefix_of file_path in
      let* st := h1_loop file_prefix 0 h1_sections ([], 0) in
      if (snd st =? 0)%nat then h2_grouping file_prefix content st
      else ret st
  end.

(** [load_document] *)
Definition load_document (file_path : string) : M bool :=
  let* p := parse_markdown_document file_path in
  let (new_entries, chunk_count) := p in
  if (chunk_count =? 0)%nat then ret false
  else
    let* directory := load_directory in
    let directory := Dict.update directory new_entries in
    let* _ := save_directory directory in
    ret true.

(** The merge loop of [build_knowledge_directory] over the markdown files
    found in the knowledge folder. *)
Fixpoint build_loop (knowledge_files : list string)
    (st : Directory * nat) : M (Directory * nat) :=
  match knowledge_files with
  | [] => ret st
  | file_path :: rest =>
      let* ex := path_exists file_path in
      if negb ex then build_loop rest st
      else
        let* p := parse_markdown_document file_path in
        let (new_entries, chunk_count) := p in
        if (0 <? chunk_count)%nat then
          build_loop rest
            (Dict.update (fst st) new_entries, snd st + chunk_count)
        else build_loop rest st
  end.


End program.

(* ===================================================================== *)
(** * Prompts                                                              *)
(* ===================================================================== *)

Definition quoted (s : string) : string := Py.dq +:+ s +:+ Py.dq.

(** [create_directory_summary]: only [section_id] and [description]. *)
Definition directory_summary_value (directory : Directory) : json :=
  JObj (map (fun kv : string * Entry =>
               (fst kv, JObj [("description", JStr (description (snd kv)))]))
          directory).

Definition create_agent_a_prompt (user_query directory_summary : string)
    : string :=
  "You are Agent A, a helpful but concise assistant with limited "
  +:+ "knowledge. Your available reference material is summarized in "
  +:+ "this directory: " +:+ directory_summary +:+ Py.nl +:+ Py.nl
  +:+ "For the user's query: " +:+ quoted user_query +:+ Py.nl +:+ Py.nl
  +:+ "First, determine if you can answer confidently on your own. "
  +:+ "Rate your confidence from 1 to 10." +:+ Py.nl
  +:+ "If your confidence is 8 or higher, answer directly." +:+ Py.nl
  +:+ "If your confidence is below 8, you must consult reference material. "
  +:+ "Identify the most relevant section(s) from the directory to "
  +:+ "answer the query." +:+ Py.nl +:+ Py.nl
  +:+ "IMPORTANT: Look for queries that require information from multiple "
  +:+ "sources:" +:+ Py.nl +:+ Py.nl
  +:+ "When in doubt, select multiple relevant sections rather than "
  +:+ "just one." +:+ Py.nl +:+ Py.nl
  +:+ "Respond ONLY in JSON format." +:+ Py.nl
  +:+ "- If answering directly, use: {" +:+ quoted "needs_reference"
  +:+ ": false, " +:+ quoted "answer" +:+ ": "
  +:+ quoted "Your direct answer here." +:+ "}" +:+ Py.nl
  +:+ "- If delegating to ONE section, use: {" +:+ quoted "needs_reference"
  +:+ ": true, " +:+ quoted "scope" +:+ ": ["
  +:+ quoted "directory_section_id" +:+ "], " +:+ quoted "sub_query"
  +:+ ": " +:+ quoted "A precise question for the reference agent."
  +:+ ", " +:+ quoted "reason" +:+ ": "
  +:+ quoted "Why you need the reference." +:+ "}" +:+ Py.nl
  +:+ "- If delegating to MULTIPLE sections, use: {"
  +:+ quoted "needs_reference" +:+ ": true, " +:+ quoted "scope" +:+ ": ["
  +:+ quoted "section_id_1" +:+ ", " +:+ quoted "section_id_2" +:+ ", "
  +:+ quoted "section_id_3" +:+ "], " +:+ quoted "sub_query" +:+ ": "
  +:+ quoted "A precise question for the reference agent." +:+ ", "
  +:+ quoted "reason" +:+ ": " +:+ quoted "Why you need multiple references."
  +:+ "}".

Definition create_agent_r_prompt (chunk_text sub_query : string) : string :=
  "You are a meticulous expert tasked with answering a question "
  +:+ "based ONLY on the following text. Do not use any outside knowledge."
  +:+ Py.nl +:+ Py.nl
  +:+ "Text: " +:+ chunk_text +:+ Py.nl +:+ Py.nl
  +:+ "Question: " +:+ sub_query +:+ Py.nl +:+ Py.nl
  +:+ "Please provide a detailed, accurate answer based solely on the "
  +:+ "information provided in the text above.".

Definition create_multi_agent_r_prompt (combined_chunks sub_query : string)
    : string :=
  "You are a meticulous expert tasked with answering a question "
  +:+ "based ONLY on the following reference materials. Do not use "
  +:+ "any outside knowledge." +:+ Py.nl +:+ Py.nl
  +:+ "Reference Materials:" +:+ Py.nl
  +:+ combined_chunks +:+ Py.nl +:+ Py.nl
  +:+ "Question: " +:+ sub_query +:+ Py.nl +:+ Py.nl
  +:+ "Please provide a comprehensive answer by analyzing all the provided "
  +:+ "reference materials. Synthesize information from different sections "
  +:+ "when relevant, but base your answer strictly on the text provided "
  +:+ "above.".

Definition synthesis_prompt (original_query agent_r_response : string)
    : string :=
  "You are Agent A. You delegated a user's question to a reference "
  +:+ "agent and received a factual response. Now synthesize this information "
  +:+ "into a natural, conversational answer that directly addresses "
  +:+ "the user's original query." +:+ Py.nl +:+ Py.nl
  +:+ "Original user query: " +:+ quoted original_query +:+ Py.nl +:+ Py.nl
  +:+ "Reference agent's response: " +:+ quoted agent_r_response
  +:+ Py.nl +:+ Py.nl
  +:+ "Please rephrase this information into a natural, conversational "
  +:+ "answer that directly addresses the user's question. Make it "
  +:+ "sound helpful and engaging, not robotic.".

(** The delimiter line of one section of the combined context, and the
    marker that stands for a chunk file that was not found. *)
Definition section_header (i : nat) (section_desc : string) : string :=
  Py.nl +:+ "--- REFERENCE SECTION " +:+ Py.str_nat i +:+ ": "
  +:+ section_desc +:+ " ---" +:+ Py.nl.

Definition load_error_marker (chunk_file : string) : string :=
  Py.nl +:+ "--- ERROR: Could not load " +:+ chunk_file +:+ " ---" +:+ Py.nl.

(** The fixed answers of the router. *)
Definition MSG_ERROR : string :=
  "I encountered an error processing your query. "
  +:+ "Please try rephrasing it.".
Definition MSG_NO_ANSWER : string :=
  "I couldn't generate a proper response.".
Definition MSG_SCOPE_FORMAT : string :=
  "I encountered an error with the scope format. "
  +:+ "Please try rephrasing your query.".
Definition msg_missing (missing_scopes : list json) : string :=
  "I wanted to check my reference material for "
  +:+ PyVal.repr (JArr missing_scopes)
  +:+ ", but those sections don't exist in my knowledge base.".

(* ===================================================================== *)
(** * Operations of Python on the decision                                 *)
(* ===================================================================== *)

Definition lift {A} (r : Res A) : M A := fun w => (r, w).

Fixpoint is_substring (p s : string) : bool :=
  String.prefix p s
  || match s with
     | EmptyString => false
     | String _ r => is_substring p r
     end.

Definition is_str (k : string) (v : json) : bool :=
  match v with JStr s => String.eqb s k | _ => false end.

(** [k in d] for a string [k]: a key of a dictionary, an element of a list,
    a substring of a string; a [TypeError] on anything else. *)
Definition py_in (k : string) (d : json) : Res bool :=
  match d with
  | JObj kv => Val (Dict.mem k kv)
  | JArr l => Val (existsb (is_str k) l)
  | JStr s => Val (is_substring k s)
  | _ => Exc TypeError
  end.

(** [d.get(k, default)]: only a dictionary has the method. *)
Definition py_get (d : json) (k : string) (default : json) : Res json :=
  match d with
  | JObj kv => Val (match Dict.get k kv with Some v => v | None => default end)
  | _ => Exc AttributeError
  end.

(** [s not in directory] for an element of the scope. *)
Definition not_in_directory (directory : Directory) (s : json) : bool :=
  match s with
  | JStr k => negb (Dict.mem k directory)
  | _ => true
  end.

(** [[s for s in scope_list if s not in directory]]: hashing a list or a
    dictionary raises [TypeError]. *)
Fixpoint missing_scopes_of (directory : Directory) (scope_list : list json)
    : Res (list json) :=
  match scope_list with
  | [] => Val []
  | s :: rest =>
      if PyVal.hashable s then
        match missing_scopes_of directory rest with
        | Val m => Val (if not_in_directory directory s then s :: m else m)
        | Exc e => Exc e
        end
      else Exc TypeError
  end.

(** [directory[s]] for an element of the scope. *)
Definition directory_item (directory : Directory) (s : json) : Res Entry :=
  match s with
  | JStr k =>
      match Dict.get k directory with
      | Some e => Val e
      | None => Exc (KeyError k)
      end
  | JArr _ | JObj _ => Exc TypeError
  | _ => Exc (KeyError (PyVal.repr s))
  end.

Fixpoint directory_items (directory : Directory) (scope_list : list json)
    : Res (list Entry) :=
  match scope_list with
  | [] => Val []
  | s :: rest =>
      match directory_item directory s with
      | Val e =>
          match directory_items directory rest with
          | Val l => Val (e :: l)
          | Exc x => Exc x
          end
      | Exc x => Exc x
      end
  end.

(** [re.search(r'\{.*\}', s, re.DOTALL)]: from the first opening brace to
    the last closing brace after it; [s] itself when there is no match. *)
Fixpoint find (d : ascii) (s : string) : option nat :=
  match s with
  | EmptyString => None
  | String c r =>
      if Ascii.eqb c d then Some 0
      else match find d r with Some i => Some (S i) | None => None end
  end.

Definition extract_json (s : string) : string :=
  match find "{" s, Py.rfind "}" s with
  | Some i, Some j =>
      if (i <? j)%nat then String.substring i (j - i + 1) s else s
  | _, _ => s
  end.

(* ===================================================================== *)
(** * Agents                                                               *)
(* ===================================================================== *)

Section agents.

Variable E : Env.

(** [initialize_openrouter_client]: the client is identified by its model. *)
Definition initialize_openrouter_client (model : string) : M string :=
  if String.eqb (OPENROUTER_API_KEY E) API_KEY_PLACEHOLDER then
    raise (ValueError
             ("Please set your OpenRouter API key in the "
              +:+ "OPENROUTER_API_KEY variable"))
  else ret model.

(** [client.invoke([SystemMessage(content=prompt)]).content] *)
Definition invoke (client prompt : string) : M string :=
  fun w =>
    let w' := effect (EvInvoke client prompt) w in
    match llm E (log w) client prompt with
    | inl content => (Val content, w')
    | inr msg => (Exc (ModelError msg), w')
    end.

Definition create_directory_summary (directory : Directory) : string :=
  json_dumps E (directory_summary_value directory).

Definition error_decision (msg : string) : json :=
  JObj [("error", JStr msg)].

(** [query_agent_a] *)
Definition query_agent_a (user_query : string) (directory : Directory)
    : M json :=
  let directory_summary := create_directory_summary directory in
  let system_prompt := create_agent_a_prompt user_query directory_summary in
  try_except
    (let* agent_a := initialize_openrouter_client AGENT_A_MODEL in
     let* content := invoke agent_a system_prompt in
     let response_content := extract_json (Py.strip content) in
     match json_loads E response_content with
     | Some decision => ret decision
     | None => ret (error_decision "malformed_json")
     end)
    (fun e => ret (error_decision (exn_str e))).

(** [query_agent_r_single] *)
Definition query_agent_r_single (chunk_file sub_query : string) : M string :=
  try_except
    (let* chunk_text := read_text chunk_file in
     let system_prompt := create_agent_r_prompt chunk_text sub_query in
     let* agent_r := initialize_openrouter_client AGENT_R_MODEL in
     let* content := invoke agent_r system_prompt in
     ret (Py.strip content))
    (fun e =>
       match e with
       | FileNotFoundError _ =>
           ret ("Error: Chunk file '" +:+ chunk_file +:+ "' not found.")
       | _ => ret ("Error querying Agent R_i: " +:+ exn_str e)
       end).

(** The search of the description of a chunk file in
    [directory.items()], with its [break]. *)
Fixpoint find_section_desc (directory : Directory) (file : string)
    : string :=
  match directory with
  | [] => "Unknown Section"
  | (_, details) :: rest =>
      if String.eqb (chunk_file details) file
      then description details
      else find_section_desc rest file
  end.

(** The loop over [enumerate(chunk_files, 1)] that builds
    [combined_chunks]. *)
Fixpoint combine_chunks (i : nat) (chunk_files : list string)
    (directory : Directory) (combined_chunks : string) : M string :=
  match chunk_files with
  | [] => ret combined_chunks
  | chunk_file :: rest =>
      let* combined_chunks :=
        try_except
          (let* chunk_content := read_text chunk_file in
           let section_desc := find_section_desc directory chunk_file in
           ret (combined_chunks +:+ section_header i section_desc
                +:+ (chunk_content +:+ Py.nl)))
          (fun e =>
             match e with
             | FileNotFoundError _ =>
                 ret (combined_chunks +:+ load_error_marker chunk_file)
             | _ => raise e
             end) in
      combine_chunks (S i) rest directory combined_chunks
  end.

(** [query_agent_r_multiple] *)
Definition query_agent_r_multiple (chunk_files : list string)
    (sub_query : string) (directory : Directory) : M string :=
  try_except
    (let* combined_chunks :=
       combine_chunks 1 chunk_files directory EmptyString in
     let system_prompt :=
       create_multi_agent_r_prompt combined_chunks sub_query in
     let* agent_r := initialize_openrouter_client AGENT_R_MODEL in
     let* content := invoke agent_r system_prompt in
     ret (Py.strip content))
    (fun e =>
       ret ("Error querying Agent R_i with multiple chunks: "
            +:+ exn_str e)).

(** [synthesize_response] *)
Definition synthesize_response (original_query agent_r_response : string)
    : M string :=
  try_except
    (let* agent_a := initialize_openrouter_client AGENT_A_MODEL in
     let* content :=
       invoke agent_a (synthesis_prompt original_query agent_r_response) in
     ret (Py.strip content))
    (fun _ => ret agent_r_response).

(** Steps 3 and 4 of [process_user_query], once the scope is validated. *)
Definition dispatch (user_query : string) (directory : Directory)
    (scope_list : list json) (sub_query : json) : M json :=
  let* agent_r_response :=
    match scope_list with
    | [s] =>
        let* e := lift (directory_item directory s) in
        query_agent_r_single (chunk_file e) (PyVal.str sub_query)
    | _ =>
        let* es := lift (directory_items directory scope_list) in
        query_agent_r_multiple (map chunk_file es) (PyVal.str sub_query)
          directory
    end in
  let* final_response := synthesize_response user_query agent_r_response in
  ret (JStr final_response).

(** Step 2 of [process_user_query]: what is done with the decision of
    Agent A. *)
Definition route (user_query : string) (directory : Directory)
    (agent_a_decision : json) : M json :=
  let* has_error := lift (py_in "error" agent_a_decision) in
  if has_error then ret (JStr MSG_ERROR)
  else
    let* needs_reference :=
      lift (py_get agent_a_decision "needs_reference" (JBool false)) in
    if negb (PyVal.truthy needs_reference) then
      lift (py_get agent_a_decision "answer" (JStr MSG_NO_ANSWER))
    else
      let* scope := lift (py_get agent_a_decision "scope" JNull) in
      let* sub_query := lift (py_get agent_a_decision "sub_query" JNull) in
      let* reason := lift (py_get agent_a_decision "reason" (JStr "")) in
      let continue (scope_list : list json) : M json :=
        let* missing_scopes :=
          lift (missing_scopes_of directory scope_list) in
        match missing_scopes with
        | _ :: _ => ret (JStr (msg_missing missing_scopes))
        | [] => dispatch user_query directory scope_list sub_query
        end in
      match scope with
      | JStr _ => continue [scope]
      | JArr scope_list => continue scope_list
      | _ => ret (JStr MSG_SCOPE_FORMAT)
      end.

(** [process_user_query] *)
Definition process_user_query (user_query : string) (directory : Directory)
    : M json :=
  let* agent_a_decision := query_agent_a user_query directory in
  route user_query directory agent_a_decision.

End agents.

(* ===================================================================== *)
(** * Declarative descriptions of the chunker's output                     *)
(* ===================================================================== *)

(** [enumerate(l, i)] *)
Fixpoint numbered {A} (i : nat) (l : list A) : list (nat * A) :=
  match l with
  | [] => []
  | x :: r => (i, x) :: numbered (S i) r
  end.

(** A fragment that [strip()] leaves non-empty. *)
Definition nonblank (section : string) : bool :=
  Py.nonempty (Py.strip section).

(** The fragments that follow the top-level heading markers of a text, each
    with the 1-based position of its heading, the blank ones left out. *)
Definition chapters (content : string) : list (nat * string) :=
  List.filter (fun p => nonblank (snd p))
    (numbered 1 (tl (Py.re_split "# " content))).

Definition chapter_body (section : string) : string :=
  Py.strip ("# " +:+ heading_of section +:+ Py.nl +:+ content_of section).

Definition chapter_entry (file_prefix : string) (p : nat * string)
    : string * Entry :=
  (chapter_id file_prefix (fst p),
   mkEntry (heading_of (snd p)) (chunk_path (chapter_id file_prefix (fst p)))).

(** Sections taken two by two; the last batch may hold one. *)
Fixpoint batches (sections : list string) : list (list string) :=
  match sections with
  | a :: b :: rest => [a; b] :: batches rest
  | [a] => [[a]]
  | [] => []
  end.

(** The non-blank fragments that follow the second-level heading markers
    of a text. *)
Definition h2_sections_of (content : string) : list string :=
  List.filter nonblank (tl (Py.re_split "## " content)).

(** The description of a batch: the title alone, the first and the last
    title of a full batch, the first title [and others] otherwise. *)
Definition batch_description (batch : list string) : string :=
  let titles := map heading_of batch in
  match titles with
  | [t] => t
  | _ =>
      if (List.length titles =? sections_per_chunk)%nat
      then nth 0 titles EmptyString +:+ " and "
           +:+ List.last titles EmptyString
      else nth 0 titles EmptyString +:+ " and others"
  end.

Definition h2_section_text (section : string) : string :=
  "## " +:+ heading_of section +:+ Py.nl +:+ content_of section.

Definition batch_body (batch : list string) : string :=
  Py.strip (Py.join blank_line (map h2_section_text batch)).

Definition group_entry (file_prefix : string) (p : nat * list string)
    : string * Entry :=
  (group_id file_prefix (fst p),
   mkEntry (batch_description (snd p))
     (chunk_path (group_id file_prefix (fst p)))).

(** The world after the effects [evs] (newest first). *)
Definition effects (evs : list Event) (w : World) : World :=
  fold_right effect w evs.

(** Every write succeeds. *)
Definition writes_succeed (E : Env) : Prop :=
  forall path data, write_error E path data = None.

(** The combined context of a multi-chunk dispatch, section by section:
    the entries of the scope with the bodies of their chunks. *)
Fixpoint combined_context (i : nat) (sections : list (Entry * string))
    : string :=
  match sections with
  | [] => EmptyString
  | (e, body) :: rest =>
      section_header i (description e) +:+ (body +:+ Py.nl)
      +:+ combined_context (S i) rest
  end.

(** The same when chunk files may be missing: what each chunk file
    contributes in the file system [fs]. *)
Definition contribution (fs : gmap string file_state)
    (directory : Directory) (i : nat) (file : string) : string :=
  match fs !! file with
  | Some (Text body) =>
      section_header i (find_section_desc directory file)
      +:+ (body +:+ Py.nl)
  | _ => load_error_marker file
  end.

Fixpoint assembled_context (fs : gmap string file_state)
    (directory : Directory) (i : nat) (chunk_files : list string) : string :=
  match chunk_files with
  | [] => EmptyString
  | file :: rest =>
      contribution fs directory i file
      +:+ assembled_context fs directory (S i) rest
  end.

(** The scope of a delegation as a list of ids: one id, or a list of ids. *)
Definition scope_of_ids (scope : json) (ids : list string) : Prop :=
  (exists id, scope = JStr id /\ ids = [id]) \/ scope = JArr (map JStr ids).

Definition missing_ids (directory : Directory) (ids : list string)
    : list string :=
  List.filter (fun id => negb (Dict.mem id directory)) ids.

(** The events of [w'] that [w] does not have yet. *)
Definition new_events (w w' : World) : list Event :=
  firstn (List.length (log w') - List.length (log w)) (log w').

(** [runs m a evs]: in every world [m] returns [a] and has the effects
    [evs] (newest first). *)
Definition runs {A} (m : M A) (a : A) (evs : list Event) : Prop :=
  forall w, m w = (Val a, effects evs w).

(** [stored E st evs st']: from the loop state [st], a sequence of chunks
    has been written and entered, or lost when the writing failed on the
    way, with the effects [evs], and the state is [st']. *)
Inductive stored (E : Env)
  : Directory * nat -> list Event -> Directory * nat -> Prop :=
| stored_refl st : stored E st [] st
| stored_write st evs st' section_id desc body :
    stored E st evs st' ->
    stored E st (EvWrite (chunk_path section_id) body :: evs)
      (Dict.set section_id (mkEntry desc (chunk_path section_id)) (fst st'),
       S (snd st'))
| stored_lost st evs st' section_id data kept msg :
    stored E st evs st' ->
    write_error E (chunk_path section_id) data = Some (WriteFails kept msg) ->
    stored E st
      (EvWrite (chunk_path section_id) (String.substring 0 kept data) :: evs)
      st'.

(** Every entry is in the chunk file of its own id. *)
Definition chunked (d : Directory) : Prop :=
  forall id e, In (id, e) d -> chunk_file e = chunk_path id.

Definition chapter_write (file_prefix : string) (p : nat * string) : Event :=
  EvWrite (chunk_path (chapter_id file_prefix (fst p))) (chapter_body (snd p)).

Definition group_write (file_prefix : string) (p : nat * list string)
    : Event :=
  EvWrite (chunk_path (group_id file_prefix (fst p))) (batch_body (snd p)).

(** The complete pairs of a list of sections and what is left over. *)
Fixpoint full_pairs (l : list string) : list (list string) :=
  match l with
  | a :: b :: r => [a; b] :: full_pairs r
  | _ => []
  end.

Fixpoint leftover (l : list string) : list string :=
  match l with
  | a :: b :: r => leftover r
  | _ => l
  end.

(* ===================================================================== *)
(** * What the specification says of the chunker, word for word            *)
(* ===================================================================== *)

(** The chunks of a run: id, description and what the chunk file holds. *)
Definition chunks_written (run : Res (Directory * nat) * World)
    : list (string * string * option file_state) :=
  match fst run with
  | Val (entries, _) =>
      map (fun kv : string * Entry =>
             (fst kv, description (snd kv),
              files (snd run) !! chunk_file (snd kv)))
        entries
  | Exc _ => []
  end.

(** The specification's primary algorithm: every fragment after a
    top-level heading marker is one chunk, described by its first line and
    holding the fragment as it is. *)
Definition spec_chapter (file_prefix : string) (p : nat * string)
    : string * string * option file_state :=
  (chapter_id file_prefix (fst p),
   nth 0 (Py.split_line (snd p)) EmptyString,
   Some (Text ("# " +:+ snd p))).

Definition spec_chapters (file_prefix content : string)
    : list (string * string * option file_state) :=
  map (spec_chapter file_prefix) (numbered 1 (tl (Py.re_split "# " content))).

(** The specification's fallback: the fragments after the second-level
    heading markers, two by two, each batch a chunk. *)
Definition spec_groups (file_prefix content : string)
    : list (string * string) :=
  map (fun p : nat * list string =>
         (group_id file_prefix (fst p), batch_description (snd p)))
    (numbered 1 (batches (tl (Py.re_split "## " content)))).

Definition entries_described (run : Res (Directory * nat) * World)
    : list (string * string) :=
  map (fun c => fst c) (chunks_written run).

(** The API key is configured. *)
Definition key_set (E : Env) : Prop :=
  OPENROUTER_API_KEY E <> API_KEY_PLACEHOLDER.

(** The fields of a decision as [dict.get] reads them. *)
Definition flag_of (kv : list (string * json)) : json :=
  match Dict.get "needs_reference" kv with Some v => v | None => JBool false end.

Definition answer_of (kv : list (string * json)) : json :=
  match Dict.get "answer" kv with Some v => v | None => JStr MSG_NO_ANSWER end.

Definition scope_field (kv : list (string * json)) : json :=
  match Dict.get "scope" kv with Some v => v | None => JNull end.

Definition sub_query_of (kv : list (string * json)) : json :=
  match Dict.get "sub_query" kv with Some v => v | None => JNull end.

(** The answers with which the router rejects a decision. *)
Definition router_error (r : json) : Prop :=
  r = JStr MSG_ERROR \/ r = JStr MSG_SCOPE_FORMAT
  \/ exists missing, r = JStr (msg_missing missing).

(** The validation of the specification: an object with a boolean flag
    and, when the flag is true, a non-empty string for [sub_query]. *)
Definition spec_valid_decision (decision : json) : Prop :=
  exists kv b,
    decision = JObj kv
    /\ Dict.get "needs_reference" kv = Some (JBool b)
    /\ (b = true ->
        exists s, Dict.get "sub_query" kv = Some (JStr s) /\ s <> EmptyString).

(* ===================================================================== *)
(** * Scenarios                                                            *)
(* ===================================================================== *)

Module Scenario.

(** Whether a model has been called yet. *)
Definition called (history : list Event) : bool :=
  existsb (fun ev => match ev with EvInvoke _ _ => true | _ => false end)
    history.

(** An environment in which every write succeeds and the first call to a
    model, that of Agent A for the routing, is answered with a text that
    decodes to [decision]; the reference agent and the synthesis answer or
    fail as [reference] and [synthesis] say. *)
Definition env (decision : json) (reference synthesis : string + string)
    : Env :=
  {| OPENROUTER_API_KEY := "sk-or-demo";
     llm := fun history model _ =>
              if String.eqb model AGENT_R_MODEL then reference
              else if called history then synthesis
              else inl "{}";
     json_loads := fun _ => Some decision;
     json_dumps := fun _ => "{}";
     directory_loads := fun _ => None;
     directory_dumps := fun _ => "{}";
     write_error := fun _ _ => None |}.

Definition plain : Env := env JNull (inl "facts") (inl "answer").

Definition lines (l : list string) : string :=
  Py.join Py.nl l +:+ Py.nl.

(** A world that holds one document, [doc.md]. *)
Definition world (content : string) : World :=
  {| files := {[ "doc.md" := Text content ]}; log := [] |}.

(** Two top-level headings, [Overview] then [Specs]. *)
Definition two_chapters : string :=
  lines ["# Overview"; "The device."; "## Parts"; "Two coils.";
         "# Specs"; "Mass: 4 kg."].

(** An empty top-level heading, then a heading with a trailing blank. *)
Definition empty_heading : string :=
  lines ["# "; "# Overview "; "text"].

(** Second-level headings only. *)
Definition three_sections : string :=
  lines ["intro"; "## A"; "alpha"; "## B"; "beta"; "## C"; "gamma"].

(** Second-level headings only, the first of them empty. *)
Definition empty_section : string :=
  lines ["## "; "## A"; "x"; "## B"; "y"].

(** No heading at all. *)
Definition no_heading : string := lines ["just text"].

(** The directory of [two_chapters] and the world after chunking it. *)
Definition directory : Directory :=
  [("doc_chapter_1", mkEntry "Overview" "chunks/doc_chapter_1.txt");
   ("doc_chapter_2", mkEntry "Specs" "chunks/doc_chapter_2.txt")].

Definition chunked_world : World :=
  snd (parse_markdown_document plain "doc.md" (world two_chapters)).

Definition delegation (scope : json) (sub_query : string) : json :=
  JObj [("needs_reference", JBool true); ("scope", scope);
        ("sub_query", JStr sub_query); ("reason", JStr "look it up")].

End Scenario.

Module Degraded.

(** The world of the two chapters after the chunk of the first one has
    been deleted, and after the chunk of the second one has been made
    unreadable. *)
Definition deleted : World :=
  {| files := delete "chunks/doc_chapter_1.txt" (files Scenario.chunked_world);
     log := [] |}.

Definition denied : string :=
  "[Errno 13] Permission denied: 'chunks/doc_chapter_2.txt'".

Definition locked : World :=
  {| files := <["chunks/doc_chapter_2.txt" := Unreadable denied]>
                (files Scenario.chunked_world);
     log := [] |}.

Definition chunk_files : list string :=
  ["chunks/doc_chapter_1.txt"; "chunks/doc_chapter_2.txt"].

End Degraded.

Module Shared.

(** A directory in which two sections are stored in the same chunk file,
    and a world that holds that file. *)
Definition directory : Directory :=
  [("a", mkEntry "First" "chunks/shared.txt");
   ("b", mkEntry "Second" "chunks/shared.txt")].

Definition world : World :=
  {| files := {[ "chunks/shared.txt" := Text "The text." ]}; log := [] |}.

(** A markdown document kept under the name of the directory file. *)
Definition misnamed : World :=
  {| files := {[ DIRECTORY_FILE := Text Scenario.two_chapters ]}; log := [] |}.

End Shared.

(* ===================================================================== *)
(** * More Python strings: the command loops and the demo                  *)
(* ===================================================================== *)

Module PyStr.

(** [c.lower()] on one code point below 256: the letters [A-Z] and the
    capital letters of Latin-1 (192 to 222, save the multiplication sign). *)
Definition lower_char (c : ascii) : ascii :=
  let n := nat_of_ascii c in
  if (((65 <=? n) && (n <=? 90))
      || ((192 <=? n) && (n <=? 222) && negb (n =? 215)))%nat
  then ascii_of_nat (n + 32) else c.

(** [s.lower()] *)
Fixpoint lower (s : string) : string :=
  match s with
  | EmptyString => EmptyString
  | String c r => String (lower_char c) (lower r)
  end.

(** [s[n:]] *)
Fixpoint drop (n : nat) (s : string) : string :=
  match n, s with
  | S k, String _ r => drop k r
  | _, _ => s
  end.

(** [s.split('\n\n')]: [s] is cut at every pair of line feeds, from the
    left; [cur] is the current piece, reversed. *)
Fixpoint split_blank (cur : list ascii) (s : string) : list string :=
  match s with
  | EmptyString => [Py.rev_string cur]
  | String c r =>
      match r with
      | String c2 r2 =>
          if Ascii.eqb c Py.LF && Ascii.eqb c2 Py.LF
          then Py.rev_string cur :: split_blank [] r2
          else split_blank (c :: cur) r
      | EmptyString => [Py.rev_string (c :: cur)]
      end
  end.

End PyStr.

(* ===================================================================== *)
(** * The demo: simulated agents ([demo_system.py])                        *)
(* ===================================================================== *)

(** What [input()] gives: a line, or the interruption of the user. *)
Inductive Input :=
| Line (s : string)
| Interrupt.

(** A command loop after the inputs it was given: it has ended, or it waits
    for the next input with the directory it holds. *)
Inductive Session :=
| Ended
| Waiting (directory : Directory).

(** [user_input.lower() in ['quit', 'exit', 'q']] *)
Definition is_quit (user_input : string) : bool :=
  existsb (String.eqb (PyStr.lower user_input)) ["quit"; "exit"; "q"].

(** [s in directory] for any value [s]. *)
Definition py_in_directory (directory : Directory) (s : json) : Res bool :=
  if PyVal.hashable s then Val (negb (not_in_directory directory s))
  else Exc TypeError.

Module Demo.

Definition teleport_keywords : list string :=
  ["teleport"; "quantum"; "device"; "x7-delta"; "quantumport";
   "specifications"; "components"; "operating"; "safety"; "troubleshooting";
   "malfunction"; "configuration"; "zeridium"; "heisenberg"; "cooldown"].

Definition planet_keywords : list string :=
  ["planet"; "kepler"; "vorthak"; "orbital"; "atmosphere"; "weather";
   "geological"; "terrain"; "flora"; "fauna"; "resources"; "mining";
   "gravity"; "binary"; "star"; "xenophine"].

Definition general_questions : list string :=
  ["hello"; "hi"; "what can you do"; "help"; "how are you";
   "what is your name"; "who are you"].

(** [sum(1 for keyword in keywords if keyword in text)] *)
Definition matches (keywords : list string) (text : string) : nat :=
  List.length (List.filter (fun keyword => is_substring keyword text) keywords).

(** [any(word in text for word in words)] *)
Definition any_in (words : list string) (text : string) : bool :=
  existsb (fun word => is_substring word text) words.

Definition delegate (scope sub_query reason : string) : json :=
  JObj [("needs_reference", JBool true); ("scope", JStr scope);
        ("sub_query", JStr sub_query); ("reason", JStr reason)].

Definition answer (text : string) : json :=
  JObj [("needs_reference", JBool false); ("answer", JStr text)].

Definition teleport_scope (q : string) : string :=
  if any_in ["spec"; "component"; "size"; "weight"] q
  then "teleportation_manual_section_1"
  else if any_in ["operate"; "use"; "safety"; "procedure"] q
  then "teleportation_manual_section_2"
  else if any_in ["problem"; "error"; "troubleshoot"; "fix"] q
  then "teleportation_manual_section_3"
  else if any_in ["advanced"; "config"; "setting"; "precision"] q
  then "teleportation_manual_section_4"
  else "teleportation_manual_section_1".

Definition planet_scope (q : string) : string :=
  if any_in ["orbit"; "size"; "gravity"; "characteristic"] q
  then "planet_kepler_vorthak_section_1"
  else if any_in ["atmosphere"; "weather"; "air"; "gas"] q
  then "planet_kepler_vorthak_section_2"
  else if any_in ["terrain"; "geological"; "canyon"; "desert"; "floating"] q
  then "planet_kepler_vorthak_section_3"
  else if any_in ["life"; "flora"; "fauna"; "animals"; "plants"] q
  then "planet_kepler_vorthak_section_4"
  else if any_in ["resource"; "mining"; "mineral"; "crystal"] q
  then "planet_kepler_vorthak_section_5"
  else "planet_kepler_vorthak_section_1".

Definition GREETING : string :=
  "Hello! I'm an AI assistant with access to specialized knowledge "
  +:+ "about a teleportation device (QuantumPort X7-Delta) and a "
  +:+ "fictional planet (Kepler-Vorthak). I can answer questions about "
  +:+ "their technical specifications, operations, and characteristics. "
  +:+ "What would you like to know?".

Definition NOT_SURE : string :=
  "I'm not sure I have specific information about that topic. I have "
  +:+ "detailed knowledge about the QuantumPort X7-Delta teleportation "
  +:+ "device and planet Kepler-Vorthak. Could you ask me something about "
  +:+ "those topics instead?".

(** [simulate_agent_a_decision]; the directory is not looked at. *)
Definition simulate_agent_a_decision (user_query : string)
    (directory : Directory) : json :=
  let user_query_lower := PyStr.lower user_query in
  let teleport_matches := matches teleport_keywords user_query_lower in
  let planet_matches := matches planet_keywords user_query_lower in
  if (0 <? teleport_matches)%nat then
    delegate (teleport_scope user_query_lower)
      ("Please answer this question about the teleportation device: "
       +:+ user_query)
      ("This question requires specific technical information about "
       +:+ "the teleportation device.")
  else if (0 <? planet_matches)%nat then
    delegate (planet_scope user_query_lower)
      ("Please answer this question about planet Kepler-Vorthak: "
       +:+ user_query)
      "This question requires specific information about planet Kepler-Vorthak."
  else if any_in general_questions user_query_lower then answer GREETING
  else answer NOT_SURE.

Definition EXCERPT_HEADER : string :=
  "Based on the technical documentation, here's the relevant information:"
  +:+ Py.nl +:+ Py.nl.

(** The first three paragraphs of a chunk. *)
Definition excerpt (chunk_content : string) : string :=
  Py.join blank_line (firstn 3 (PyStr.split_blank [] chunk_content)).

(** [simulate_agent_r_response]; the sub-query is not looked at. *)
Definition simulate_agent_r_response (chunk_file sub_query : string)
    : M string :=
  try_except
    (let* chunk_content := read_text chunk_file in
     ret (EXCERPT_HEADER +:+ excerpt chunk_content))
    (fun e =>
       match e with
       | FileNotFoundError _ =>
           ret "Error: Could not access the reference material for this query."
       | _ => ret ("Error processing the reference material: " +:+ exn_str e)
       end).

(** One turn of the loop of [demo_system], for an input that is neither
    blank nor a command to leave: the response that is shown, or [None] when
    the section of the decision is not in the directory. *)
Definition demo_turn (user_input : string) (directory : Directory)
    : M (option string) :=
  let agent_a_decision := simulate_agent_a_decision user_input directory in
  let* needs_reference :=
    lift (py_get agent_a_decision "needs_reference" (JBool false)) in
  if negb (PyVal.truthy needs_reference) then
    let* response :=
      lift (py_get agent_a_decision "answer" (JStr MSG_NO_ANSWER)) in
    ret (Some (PyVal.str response))
  else
    let* scope := lift (py_get agent_a_decision "scope" JNull) in
    let* sub_query := lift (py_get agent_a_decision "sub_query" JNull) in
    let* reason := lift (py_get agent_a_decision "reason" (JStr "")) in
    let* known := lift (py_in_directory directory scope) in
    if known then
      let* e := lift (directory_item directory scope) in
      let* agent_r_response :=
        simulate_agent_r_response (chunk_file e) (PyVal.str sub_query) in
      ret (Some agent_r_response)
    else ret None.

(** The loop of [demo_system] on the inputs it is given. *)
Fixpoint demo_loop (inputs : list Input) (directory : Directory)
    : M Session :=
  match inputs with
  | [] => ret (Waiting directory)
  | Interrupt :: _ => ret Ended
  | Line raw :: rest =>
      let user_input := Py.strip raw in
      if negb (Py.nonempty user_input) then demo_loop rest directory
      else if is_quit user_input then ret Ended
      else
        let* _ := try_except (demo_turn user_input directory)
                    (fun _ => ret None) in
        demo_loop rest directory
  end.

End Demo.

(* ===================================================================== *)
(** * The interaction loop of [main]                                       *)
(* ===================================================================== *)

Section interaction.

Variable E : Env.

(** What the loop does with an input that is neither blank nor a command
    to leave; the result is the directory it holds afterwards. *)
Definition main_turn (user_input : string) (directory : Directory)
    : M Directory :=
  if String.eqb (PyStr.lower user_input) "help" then ret directory
  else if String.prefix "load " (PyStr.lower user_input) then
    let filename := Py.strip (PyStr.drop 5 user_input) in
    let* loaded := load_document E filename in
    if loaded then load_directory E else ret directory
  else if (List.length directory =? 0)%nat then ret directory
  else
    let* response := process_user_query E user_input directory in
    ret directory.

(** The [while True] loop of [main] on the inputs it is given: an exception
    of a turn is caught and the loop goes on with the directory it had. *)
Fixpoint main_loop (inputs : list Input) (directory : Directory)
    : M Session :=
  match inputs with
  | [] => ret (Waiting directory)
  | Interrupt :: _ => ret Ended
  | Line raw :: rest =>
      let user_input := Py.strip raw in
      if negb (Py.nonempty user_input) then main_loop rest directory
      else if is_quit user_input then ret Ended
      else
        let* directory :=
          try_except (main_turn user_input directory)
            (fun _ => ret directory) in
        main_loop rest directory
  end.

(** [demo_system]: the directory is loaded, and the loop runs unless the
    directory is empty. *)
Definition demo_system (inputs : list Input) : M Session :=
  let* directory := load_directory E in
  match directory with
  | [] => ret Ended
  | _ :: _ => Demo.demo_loop inputs directory
  end.

End interaction.

(* ===================================================================== *)
(** * Vocabulary of the further properties                                 *)
(* ===================================================================== *)

(** The chunk file of a chapter can be written. *)
Definition chapter_writable (E : Env) (file_prefix : string)
    (p : nat * string) : bool :=
  match write_error E (chunk_path (chapter_id file_prefix (fst p)))
          (chapter_body (snd p)) with
  | None => true
  | Some _ => false
  end.

(** What a write leaves in the log: the data, what went through of it when
    the writing fails, nothing when the file cannot be opened. *)
Definition write_events (E : Env) (path data : string) : list Event :=
  match write_error E path data with
  | None => [EvWrite path data]
  | Some (OpenFails _) => []
  | Some (WriteFails kept _) => [EvWrite path (String.substring 0 kept data)]
  end.

Definition chapter_events (E : Env) (file_prefix : string)
    (p : nat * string) : list Event :=
  write_events E (chunk_path (chapter_id file_prefix (fst p)))
    (chapter_body (snd p)).

(** The effects of the attempts to write the chapters, the newest first. *)
Definition chapter_attempts (E : Env) (file_prefix : string)
    (l : list (nat * string)) : list Event :=
  rev (flat_map (chapter_events E file_prefix) l).

(** No write fails once the file is open. *)
Definition no_partial_write (E : Env) : Prop :=
  forall path data kept msg,
    write_error E path data <> Some (WriteFails kept msg).

(** The ids of a directory are ids that the chunker gives. *)
Definition chunker_ids (d : Directory) : Prop :=
  forall id, In id (Dict.keys d) ->
    exists file_prefix n,
      id = chapter_id file_prefix n \/ id = group_id file_prefix n.

(** The state of the fallback loop holds the groups 1 to n, and counts
    them. *)
Definition grouped (file_prefix : string) (st : Directory * nat) : Prop :=
  Dict.keys (fst st)
  = map (group_id file_prefix) (seq 1 (List.length (fst st)))
  /\ snd st = List.length (fst st).

Definition is_write (ev : Event) : bool :=
  match ev with EvWrite _ _ => true | _ => false end.

Definition is_call (model : string) (ev : Event) : bool :=
  match ev with EvInvoke m _ => String.eqb m model | _ => false end.

(** The number of calls to a model among some effects. *)
Definition calls (model : string) (evs : list Event) : nat :=
  List.length (List.filter (is_call model) evs).

(** Effects without a write, with at most [a] calls to Agent A and [r]
    calls to the reference agent. *)
Definition bounded (a r : nat) (evs : list Event) : Prop :=
  existsb is_write evs = false
  /\ calls AGENT_A_MODEL evs <= a
  /\ calls AGENT_R_MODEL evs <= r.

Definition is_read (ev : Event) : bool :=
  match ev with EvRead _ => true | _ => false end.

(** No effect, or one call to Agent A. *)
Definition agent_a_call (evs : list Event) : Prop :=
  evs = [] \/ exists prompt, evs = [EvInvoke AGENT_A_MODEL prompt].

(** Reads of files, then at most one call to the reference agent. *)
Definition reference_effects (evs : list Event) : Prop :=
  exists reads,
    forallb is_read reads = true
    /\ (evs = reads \/ exists prompt, evs = EvInvoke AGENT_R_MODEL prompt :: reads).

Definition is_digit (c : ascii) : bool :=
  let n := nat_of_ascii c in ((48 <=? n) && (n <=? 57))%nat.

Fixpoint drop_digits (l : list ascii) : list ascii :=
  match l with
  | [] => []
  | c :: r => if is_digit c then drop_digits r else l
  end.

(** The two characters that precede the digits at the end of an id, the
    last one first. *)
Definition id_kind (id : string) : list ascii :=
  firstn 2 (drop_digits (rev (list_ascii_of_string id))).



(** An input that is not a [load] command. *)
Definition no_load (i : Input) : bool :=
  match i with
  | Line raw => negb (String.prefix "load " (PyStr.lower (Py.strip raw)))
  | Interrupt => true
  end.

(** An input on which a command loop ends. *)
Definition leaves (i : Input) : bool :=
  match i with
  | Line raw => is_quit (Py.strip raw)
  | Interrupt => true
  end.

Module Extra.

(** An environment like [Scenario.plain] in which the writes to the paths
    [locked] fail with [fault]. *)
Definition faulty (locked : list string) (fault : WriteFault) : Env :=
  {| OPENROUTER_API_KEY := "sk-or-demo";
     llm := fun _ _ _ => inl "facts";
     json_loads := fun _ => None;
     json_dumps := fun _ => "{}";
     directory_loads := fun _ => None;
     directory_dumps := fun _ => "{}";
     write_error := fun path _ =>
                      if existsb (String.eqb path) locked
                      then Some fault else None |}.

(** The files [locked] cannot be opened for writing. *)
Definition failing (locked : list string) : Env :=
  faulty locked (OpenFails "[Errno 13] Permission denied").

(** The disk is full after the first [kept] characters of a write to one
    of the files [locked]. *)
Definition cutting (locked : list string) (kept : nat) : Env :=
  faulty locked (WriteFails kept "[Errno 28] No space left on device").

(** An environment whose codec of the directory file gives back the
    directory of the two chapters. *)
Definition storing : Env :=
  {| OPENROUTER_API_KEY := "sk-or-demo";
     llm := fun _ _ _ => inl "facts";
     json_loads := fun _ => None;
     json_dumps := fun _ => "{}";
     directory_loads := fun text =>
                          if String.eqb text "two chapters"
                          then Some Scenario.directory else None;
     directory_dumps := fun _ => "two chapters";
     write_error := fun _ _ => None |}.

(** Top-level and second-level headings. *)
Definition mixed : string :=
  Scenario.lines ["# One"; "a"; "## Sub"; "b"; "# Two"; "c"].

End Extra.

(* ===================================================================== *)
(** * Strings: cancellation and injectivity of the identifiers            *)
(* ===================================================================== *)

Lemma str_nat_inj n m : Py.str_nat n = Py.str_nat m -> n = m.
Proof.
  unfold Py.str_nat. intros H.
  apply DecimalNat.Unsigned.to_uint_inj.
  assert (Hs : Some (Nat.to_uint n) = Some (Nat.to_uint m)).
  { rewrite <- !NilEmpty.usu. now rewrite H. }
  now inversion Hs.
Qed.

Lemma chapter_id_inj p i j : chapter_id p i = chapter_id p j -> i = j.
Proof.
  unfold chapter_id. intros H.
  apply str_nat_inj. now do 2 apply String.app_inj in H.
Qed.

Lemma group_id_inj p i j : group_id p i = group_id p j -> i = j.
Proof.
  unfold group_id. intros H.
  apply str_nat_inj. now do 2 apply String.app_inj in H.
Qed.

Lemma append_cons x (a b : string) : String x a +:+ b = String x (a +:+ b).
Proof. reflexivity. Qed.

Lemma append_nil_l (b : string) : EmptyString +:+ b = b.
Proof. reflexivity. Qed.

Lemma append_assoc (a b c : string) : (a +:+ b) +:+ c = a +:+ (b +:+ c).
Proof.
  induction a as [|x a IH]; [reflexivity|].
  rewrite !append_cons. now rewrite IH.
Qed.

Lemma append_nil_r (a : string) : a +:+ EmptyString = a.
Proof.
  induction a as [|x a IH]; [reflexivity|].
  rewrite append_cons. now rewrite IH.
Qed.

Lemma length_append (a b : string) :
  String.length (a +:+ b) = String.length a + String.length b.
Proof.
  induction a as [|x a IH]; [reflexivity|].
  rewrite append_cons. simpl. now rewrite IH.
Qed.

Lemma append_inj_l (a b c : string) : a +:+ c = b +:+ c -> a = b.
Proof.
  revert b. induction a as [|x a IH]; intros [|y b] H.
  - reflexivity.
  - exfalso. apply (f_equal String.length) in H.
    rewrite append_nil_l, append_cons in H. simpl in H.
    rewrite length_append in H. lia.
  - exfalso. apply (f_equal String.length) in H.
    rewrite append_nil_l, append_cons in H. simpl in H.
    rewrite length_append in H. lia.
  - rewrite !append_cons in H. inversion H; subst. f_equal. now apply IH.
Qed.

Lemma chunk_path_inj a b : chunk_path a = chunk_path b -> a = b.
Proof.
  unfold chunk_path. intros H.
  do 2 apply String.app_inj in H. now apply append_inj_l in H.
Qed.

(* ===================================================================== *)
(** * Dictionaries                                                         *)
(* ===================================================================== *)

Section dict_facts.
Context {V : Type}.
Implicit Types (d : list (string * V)) (k : string) (v : V).

Lemma get_set k k' v d :
  Dict.get k' (Dict.set k v d)
  = if String.eqb k' k then Some v else Dict.get k' d.
Proof.
  induction d as [|[k0 v0] d IH]; simpl.
  - reflexivity.
  - destruct (String.eqb_spec k k0) as [->|Hk]; simpl.
    + destruct (String.eqb k' k0); reflexivity.
    + destruct (String.eqb_spec k' k0) as [->|Hk'].
      * destruct (String.eqb_spec k0 k); [congruence | reflexivity].
      * apply IH.
Qed.

Lemma get_none_keys k d : Dict.get k d = None <-> ~ In k (Dict.keys d).
Proof.
  induction d as [|[k0 v0] d IH]; simpl.
  - tauto.
  - destruct (String.eqb_spec k k0) as [->|Hk].
    + split; [discriminate | tauto].
    + rewrite IH. split; [intros H [?|?]; [congruence | tauto] | tauto].
Qed.

Lemma get_some_in k v d : Dict.get k d = Some v -> In (k, v) d.
Proof.
  induction d as [|[k0 v0] d IH]; simpl; [discriminate|].
  destruct (String.eqb_spec k k0) as [->|Hk].
  - intros [= ->]. now left.
  - intros H. right. now apply IH.
Qed.

Lemma set_fresh k v d : Dict.get k d = None -> Dict.set k v d = d ++ [(k, v)].
Proof.
  induction d as [|[k0 v0] d IH]; simpl; [reflexivity|].
  destruct (String.eqb_spec k k0) as [->|Hk]; [discriminate|].
  intros H. now rewrite IH.
Qed.

Lemma keys_set_in k v d : forall k', In k' (Dict.keys (Dict.set k v d))
  <-> k' = k \/ In k' (Dict.keys d).
Proof.
  induction d as [|[k0 v0] d IH]; simpl; intros k'.
  - intuition congruence.
  - destruct (String.eqb_spec k k0) as [->|Hk]; simpl.
    + intuition congruence.
    + rewrite IH. intuition congruence.
Qed.

Lemma wf_set k v d : Dict.wf d -> Dict.wf (Dict.set k v d).
Proof.
  unfold Dict.wf. induction d as [|[k0 v0] d IH]; simpl; intros Hnd.
  - constructor; [simpl; tauto | constructor].
  - inversion Hnd as [|? ? Hni Hnd']; subst.
    destruct (String.eqb_spec k k0) as [->|Hk]; simpl.
    + now constructor.
    + constructor; [|now apply IH].
      intros Hin. apply keys_set_in in Hin. destruct Hin; [congruence|tauto].
Qed.

Lemma wf_update d incoming : Dict.wf d -> Dict.wf (Dict.update d incoming).
Proof.
  unfold Dict.update. revert d.
  induction incoming as [|[k v] inc IH]; simpl; intros d Hd; [exact Hd|].
  apply IH. now apply wf_set.
Qed.

Lemma get_update d incoming k :
  Dict.wf incoming ->
  Dict.get k (Dict.update d incoming)
  = match Dict.get k incoming with
    | Some v => Some v
    | None => Dict.get k d
    end.
Proof.
  unfold Dict.update, Dict.wf. revert d.
  induction incoming as [|[k0 v0] inc IH]; simpl; intros d Hnd.
  - reflexivity.
  - inversion Hnd as [|? ? Hni Hnd']; subst.
    rewrite IH by assumption. rewrite get_set.
    destruct (String.eqb_spec k k0) as [->|Hk].
    + apply get_none_keys in Hni. now rewrite Hni.
    + reflexivity.
Qed.

Lemma update_comm_disjoint d1 d2 :
  Dict.wf d1 -> Dict.wf d2 ->
  (forall k, Dict.mem k d1 && Dict.mem k d2 = false) ->
  Dict.same (Dict.update d1 d2) (Dict.update d2 d1).
Proof.
  intros H1 H2 Hdis k. rewrite !get_update by assumption.
  specialize (Hdis k). unfold Dict.mem in Hdis.
  destruct (Dict.get k d1), (Dict.get k d2); simpl in Hdis;
    congruence.
Qed.

End dict_facts.

(* ===================================================================== *)
(** * Computations that do not look at the world                           *)
(* ===================================================================== *)

Lemma effects_app (evs1 evs2 : list Event) (w : World) :
  effects (evs1 ++ evs2) w = effects evs1 (effects evs2 w).
Proof. unfold effects. now rewrite fold_right_app. Qed.

Lemma log_effects (evs : list Event) (w : World) : log (effects evs w) = evs ++ log w.
Proof. induction evs as [|ev evs IH]; simpl; [reflexivity | now rewrite IH]. Qed.

Lemma runs_ret {A} (a : A) : runs (ret a) a [].
Proof. intros w. reflexivity. Qed.

Lemma runs_bind {A B} (m : M A) (k : A -> M B) a b evs1 evs2 :
  runs m a evs1 -> runs (k a) b evs2 -> runs (bind m k) b (evs2 ++ evs1).
Proof.
  intros Hm Hk w. unfold bind. rewrite Hm, Hk. now rewrite effects_app.
Qed.

Lemma files_effects_written (evs : list Event) (w : World) (path data : string) :
  In (EvWrite path data) evs ->
  exists data', In (EvWrite path data') evs
    /\ forall w', files (effects evs w') !! path = Some (Text data').
Proof.
  induction evs as [|ev evs IH]; simpl; [tauto|].
  intros Hin.
  destruct ev as [p|p d|mdl prompt].
  - destruct Hin as [?|Hin]; [discriminate|].
    destruct (IH Hin) as (d' & Hd' & Hl). exists d'. split; [now right|].
    intros w'. apply Hl.
  - destruct (decide (p = path)) as [->|Hne].
    + exists d. split; [now left|]. intros w'. apply lookup_insert_eq.
    + destruct Hin as [Heq|Hin]; [congruence|].
      destruct (IH Hin) as (d' & Hd' & Hl). exists d'. split; [now right|].
      intros w'. rewrite lookup_insert_ne by exact Hne. apply Hl.
  - destruct Hin as [?|Hin]; [discriminate|].
    destruct (IH Hin) as (d' & Hd' & Hl). exists d'. split; [now right|].
    intros w'. apply Hl.
Qed.

Lemma files_effects_unique (evs : list Event) (w : World) (path data : string) :
  In (EvWrite path data) evs ->
  (forall data', In (EvWrite path data') evs -> data' = data) ->
  files (effects evs w) !! path = Some (Text data).
Proof.
  intros Hin Huniq.
  destruct (files_effects_written evs w path data Hin) as (d' & Hd' & Hl).
  rewrite Hl. now rewrite (Huniq d' Hd').
Qed.

(* ===================================================================== *)
(** * The chunker, step by step                                            *)
(* ===================================================================== *)

Lemma stored_trans (E : Env) st1 evs1 st2 evs2 st3 :
  stored E st1 evs1 st2 -> stored E st2 evs2 st3 ->
  stored E st1 (evs2 ++ evs1) st3.
Proof.
  intros H1 H2. induction H2; simpl; [exact H1| |].
  - constructor. now apply IHstored.
  - econstructor; [now apply IHstored | eassumption].
Qed.

(** When no write fails once the file is open, every effect is the write
    of a chunk that was entered. *)
Lemma stored_count (E : Env) st evs st' :
  no_partial_write E ->
  stored E st evs st' -> snd st' = snd st + List.length evs.
Proof.
  intros Hno. induction 1; simpl; [lia | lia |].
  now destruct (Hno _ _ _ _ H0).
Qed.

Lemma stored_wf (E : Env) st evs st' :
  stored E st evs st' -> Dict.wf (fst st) -> Dict.wf (fst st').
Proof.
  induction 1; simpl; intros Hwf; [exact Hwf | | auto].
  apply wf_set; auto.
Qed.

Lemma in_set_inv {V} k (v : V) d k' v' :
  In (k', v') (Dict.set k v d) -> (k', v') = (k, v) \/ In (k', v') d.
Proof.
  induction d as [|[k0 v0] d IH]; simpl.
  - intuition congruence.
  - destruct (String.eqb_spec k k0) as [->|Hk]; simpl.
    + intuition congruence.
    + intros [H|H]; [tauto|]. destruct (IH H); tauto.
Qed.

Lemma stored_chunked (E : Env) st evs st' :
  stored E st evs st' -> chunked (fst st) -> chunked (fst st').
Proof.
  induction 1; simpl; intros Hc; [exact Hc | | auto].
  intros id e Hin. apply in_set_inv in Hin. destruct Hin as [Heq|Hin].
  - inversion Heq; subst. reflexivity.
  - now apply (IHstored Hc).
Qed.

(** An entry of the final state was there at the start, or its chunk file
    was written on the way. *)
Lemma stored_written (E : Env) st evs st' :
  stored E st evs st' ->
  forall id e, In (id, e) (fst st') ->
    In (id, e) (fst st) \/ exists body, In (EvWrite (chunk_file e) body) evs.
Proof.
  induction 1; simpl; intros id e Hin; [now left | |].
  - apply in_set_inv in Hin. destruct Hin as [Heq|Hin].
    + inversion Heq; subst. right. exists body. now left.
    + destruct (IHstored id e Hin) as [?|(b & Hb)]; [now left|].
      right. exists b. now right.
  - destruct (IHstored id e Hin) as [?|(b & Hb)]; [now left|].
    right. exists b. now right.
Qed.

Lemma EvWrite_inj (p d p' d' : string) :
  EvWrite p d = EvWrite p' d' -> p = p' /\ d = d'.
Proof. intros H. now inversion H. Qed.

Lemma files_effects_untouched (evs : list Event) (w : World)
    (path : string) :
  (forall data, ~ In (EvWrite path data) evs) ->
  files (effects evs w) !! path = files w !! path.
Proof.
  induction evs as [|ev evs IH]; simpl; intros Hno; [reflexivity|].
  assert (Hrest : forall data, ~ In (EvWrite path data) evs)
    by (intros data Hin; apply (Hno data); now right).
  destruct ev as [p|p data|mdl prompt]; try (now apply IH).
  destruct (decide (p = path)) as [->|Hne].
  - exfalso. apply (Hno data). now left.
  - rewrite lookup_insert_ne by exact Hne. now apply IH.
Qed.

Lemma stored_events (E : Env) (st st' : Directory * nat)
    (evs : list Event) :
  stored E st evs st' ->
  forall ev, In ev evs -> exists id body, ev = EvWrite (chunk_path id) body.
Proof.
  induction 1; simpl; intros ev Hin; [contradiction | |];
    (destruct Hin as [<-|Hin]; [eauto | now apply IHstored]).
Qed.

Section chunker_facts.

Variable E : Env.

Lemma store_chunk_ok section_id desc content st :
  write_error E (chunk_path section_id) (Py.strip content) = None ->
  runs (store_chunk E section_id desc content st)
    (Dict.set section_id (mkEntry desc (chunk_path section_id)) (fst st),
     S (snd st))
    [EvWrite (chunk_path section_id) (Py.strip content)].
Proof.
  intros Hok w. unfold store_chunk, try_except, bind, write_text.
  now rewrite Hok.
Qed.

(** A chunk whose write fails is skipped; what the write leaves in its
    file is the only effect. *)
Lemma store_chunk_failed section_id desc content st fault :
  write_error E (chunk_path section_id) (Py.strip content) = Some fault ->
  runs (store_chunk E section_id desc content st) st
    (write_events E (chunk_path section_id) (Py.strip content)).
Proof.
  intros Hko w. unfold store_chunk, try_except, bind, write_text, write_events.
  rewrite Hko. now destruct fault.
Qed.

Lemma store_chunk_run section_id desc content st :
  exists st' evs,
    stored E st evs st'
    /\ runs (store_chunk E section_id desc content st) st' evs.
Proof.
  destruct (write_error E (chunk_path section_id) (Py.strip content))
    as [fault|] eqn:Hw.
  - exists st, (write_events E (chunk_path section_id) (Py.strip content)).
    split; [|now apply store_chunk_failed with fault].
    unfold write_events. rewrite Hw. destruct fault as [msg|kept msg].
    + constructor.
    + econstructor; [constructor | exact Hw].
  - eexists _, _. split; [|now apply store_chunk_ok].
    constructor. constructor.
Qed.

Lemma h1_loop_run file_prefix h1_sections :
  forall h1_idx st,
  exists st' evs,
    stored E st evs st'
    /\ runs (h1_loop E file_prefix h1_idx h1_sections st) st' evs.
Proof.
  induction h1_sections as [|sec rest IH]; intros idx st; simpl.
  - exists st, []. split; [constructor | apply runs_ret].
  - destruct (negb (Py.nonempty (Py.strip sec))); [apply IH|].
    destruct (idx =? 0)%nat; [apply IH|].
    destruct (store_chunk_run (chapter_id file_prefix idx) (heading_of sec)
                ("# " +:+ heading_of sec +:+ Py.nl +:+ content_of sec) st)
      as (st1 & evs1 & Hs1 & Hr1).
    destruct (IH (S idx) st1) as (st2 & evs2 & Hs2 & Hr2).
    exists st2, (evs2 ++ evs1). split; [now apply stored_trans with st1|].
    now apply runs_bind with st1.
Qed.

Lemma h2_loop_run file_prefix sections :
  forall cur st,
  exists cur' st' evs,
    stored E st evs st'
    /\ runs (h2_loop E file_prefix sections (cur, st)) (cur', st') evs.
Proof.
  induction sections as [|sec rest IH]; intros [cs ts] st; simpl.
  - exists (cs, ts), st, []. split; [constructor | apply runs_ret].
  - destruct (negb (Py.nonempty (Py.strip sec))); [apply IH|].
    match goal with |- context [if ?c then _ else _] => destruct c end;
      [|apply IH].
    match goal with |- context [store_chunk E ?i ?d ?c st] =>
      destruct (store_chunk_run i d c st) as (st1 & evs1 & Hs1 & Hr1) end.
    destruct (IH ([], []) st1) as (cur2 & st2 & evs2 & Hs2 & Hr2).
    exists cur2, st2, (evs2 ++ evs1).
    split; [now apply stored_trans with st1|].
    now apply runs_bind with st1.
Qed.

Lemma h2_grouping_run file_prefix content st :
  exists st' evs,
    stored E st evs st' /\ runs (h2_grouping E file_prefix content st) st' evs.
Proof.
  unfold h2_grouping.
  destruct (h2_loop_run file_prefix (tl (Py.re_split "## " content))
              ([], []) st) as ([cs ts] & st1 & evs1 & Hs1 & Hr1).
  destruct cs as [|c cs].
  - exists st1, ([] ++ evs1). split; [exact Hs1|].
    eapply runs_bind; [exact Hr1|]. apply runs_ret.
  - destruct (store_chunk_run
                (group_id file_prefix (List.length (fst st1) + 1))
                (rest_description ts) (Py.join blank_line (c :: cs)) st1)
      as (st2 & evs2 & Hs2 & Hr2).
    exists st2, (evs2 ++ evs1). split; [now apply stored_trans with st1|].
    eapply runs_bind; [exact Hr1|]. exact Hr2.
Qed.

(** The chunker never raises; its result and its effects depend on the
    world only through what the document path holds. *)
Lemma parse_run file_path (doc : option file_state) :
  exists st evs,
    stored E ([], 0) evs st
    /\ forall w, files w !! file_path = doc ->
         parse_markdown_document E file_path w
         = (Val st, effects (evs ++ [EvRead file_path]) w).
Proof.
  destruct doc as [[content|msg]|].
  - set (pre := file_prefix_of file_path).
    destruct (h1_loop_run pre (Py.re_split "# " content) 0 ([], 0))
      as (st1 & evs1 & Hs1 & Hr1).
    destruct (snd st1 =? 0)%nat eqn:Hc.
    + destruct (h2_grouping_run pre content st1) as (st2 & evs2 & Hs2 & Hr2).
      exists st2, (evs2 ++ evs1). split; [now apply stored_trans with st1|].
      intros w Hw. unfold parse_markdown_document, bind, try_except, read_text.
      rewrite Hw. unfold ret. fold pre.
      change (effect (EvRead file_path) w) with (effects [EvRead file_path] w).
      rewrite Hr1, Hc, Hr2. now rewrite <- !effects_app, <- app_assoc.
    + exists st1, evs1. split; [exact Hs1|].
      intros w Hw. unfold parse_markdown_document, bind, try_except, read_text.
      rewrite Hw. unfold ret. fold pre.
      change (effect (EvRead file_path) w) with (effects [EvRead file_path] w).
      rewrite Hr1, Hc. now rewrite <- !effects_app.
  - exists ([], 0), []. split; [constructor|].
    intros w Hw. unfold parse_markdown_document, bind, try_except, read_text.
    now rewrite Hw.
  - exists ([], 0), []. split; [constructor|].
    intros w Hw. unfold parse_markdown_document, bind, try_except, read_text.
    now rewrite Hw.
Qed.

(** The entries that the chunker returns have distinct ids, and each is in
    the chunk file of its id. *)
Lemma parse_entries_chunked file_path (w w' : World)
    (entries : Directory) (count : nat) :
  parse_markdown_document E file_path w = (Val (entries, count), w') ->
  Dict.wf entries /\ chunked entries.
Proof.
  intros Hp.
  destruct (parse_run file_path (files w !! file_path))
    as (st & evs & Hst & Hrun).
  rewrite (Hrun w eq_refl) in Hp. inversion Hp; subst st.
  split.
  - apply (stored_wf _ _ _ _ Hst). constructor.
  - apply (stored_chunked _ _ _ _ Hst). intros id e [].
Qed.

(** One turn of the merge loop of [build_knowledge_directory]: a document
    with chunks is merged into the directory with [dict.update]. *)
Lemma build_loop_merges file_path (rest : list string)
    (st : Directory * nat) (w w1 : World) (new_entries : Directory)
    (chunk_count : nat) :
  is_Some (files w !! file_path) ->
  parse_markdown_document E file_path w
  = (Val (new_entries, chunk_count), w1) ->
  chunk_count <> 0 ->
  build_loop E (file_path :: rest) st w
  = build_loop E rest
      (Dict.update (fst st) new_entries, snd st + chunk_count) w1.
Proof.
  intros Hex Hp Hc. cbn [build_loop]. unfold bind, path_exists.
  rewrite bool_decide_eq_true_2 by exact Hex. cbn [negb]. rewrite Hp.
  destruct (Nat.ltb_spec 0 chunk_count); [reflexivity | lia].
Qed.

End chunker_facts.

Lemma chunked_set (d : Directory) (id : string) (e : Entry) :
  chunked d -> chunk_file e = chunk_path id -> chunked (Dict.set id e d).
Proof.
  intros Hd He id' e' Hin. apply in_set_inv in Hin.
  destruct Hin as [Heq|Hin]; [now inversion Heq; subst | now apply Hd].
Qed.

(** Merging directories made by the chunker gives such a directory. *)
Lemma chunked_update (d incoming : Directory) :
  chunked d -> chunked incoming -> chunked (Dict.update d incoming).
Proof.
  unfold Dict.update. revert d.
  induction incoming as [|[k v] inc IH]; simpl; intros d Hd Hi; [exact Hd|].
  apply IH.
  - apply chunked_set; [exact Hd|]. apply Hi. now left.
  - intros id e Hin. apply Hi. now right.
Qed.

Lemma new_events_effects (evs : list Event) (w : World) :
  new_events w (effects evs w) = evs.
Proof.
  unfold new_events. rewrite log_effects, length_app.
  replace (List.length evs + List.length (log w) - List.length (log w))
    with (List.length evs + 0) by lia.
  now rewrite firstn_app_2, firstn_O, app_nil_r.
Qed.

(* ===================================================================== *)
(** * Theorems: the directory store                                        *)
(* ===================================================================== *)

(** C8. Merging is the key-wise union in which the incoming entry wins:
    an id of the merged directory has the incoming entry if there is one and
    the base entry otherwise; for directories without a common id the two
    orders of merging give the same mapping; and after several merges an id
    has the entry of the source merged last. *)
Theorem merge_union_incoming_wins (base incoming : Directory) :
  Dict.wf base -> Dict.wf incoming ->
  (forall id,
     Dict.get id (Dict.update base incoming)
     = match Dict.get id incoming with
       | Some e => Some e
       | None => Dict.get id base
       end)
  /\ ((forall id, Dict.mem id base && Dict.mem id incoming = false) ->
      Dict.same (Dict.update base incoming) (Dict.update incoming base))
  /\ (forall (later : Directory) id e,
        Dict.wf later -> Dict.get id later = Some e ->
        Dict.get id (Dict.update (Dict.update base incoming) later) = Some e).
Proof.
  intros Hb Hi. split; [|split].
  - intros id. now apply get_update.
  - intros Hdis. now apply update_comm_disjoint.
  - intros later id e Hl Hget. rewrite get_update by exact Hl.
    now rewrite Hget.
Qed.

Lemma merge_union_incoming_wins_witness :
  let base := Scenario.directory in
  let incoming := [("doc_chapter_2", mkEntry "Limits" "chunks/doc_chapter_2.txt");
                   ("faq_chapter_1", mkEntry "Questions" "chunks/faq_chapter_1.txt")] in
  Dict.get "doc_chapter_2" (Dict.update base incoming)
  = match Dict.get "doc_chapter_2" incoming with
    | Some e => Some e
    | None => Dict.get "doc_chapter_2" base
    end.
Proof.
  intros base incoming.
  refine (proj1 (merge_union_incoming_wins base incoming _ _) "doc_chapter_2").
  - unfold Dict.wf. simpl. repeat constructor; simpl; intuition discriminate.
  - unfold Dict.wf. simpl. repeat constructor; simpl; intuition discriminate.
Defined.

(** What [load_document] stores when the document has chunks: the loaded
    directory updated with the new entries. *)
Lemma load_document_merges (E : Env) (file_path : string) (w w1 w2 : World)
    (new_entries directory : Directory) (chunk_count : nat) :
  parse_markdown_document E file_path w = (Val (new_entries, chunk_count), w1) ->
  chunk_count <> 0 ->
  load_directory E w1 = (Val directory, w2) ->
  load_document E file_path w
  = (Val true,
     snd (save_directory E (Dict.update directory new_entries) w2)).
Proof.
  intros Hp Hc Hl. unfold load_document, bind. rewrite Hp.
  destruct (Nat.eqb_spec chunk_count 0) as [?|_]; [contradiction|].
  rewrite Hl.
  unfold save_directory, try_except, write_text.
  destruct (write_error E DIRECTORY_FILE _) as [[msg|kept msg]|]; reflexivity.
Qed.

Lemma directory_file_no_chunk (id : string) : DIRECTORY_FILE <> chunk_path id.
Proof. intros H. vm_compute in H. discriminate H. Qed.

(** C10. When parsing yields no chunk, [load_document] returns [False] and
    does nothing beyond the parsing: the directory file is neither read for
    a merge nor written, and what is stored in it is what was stored.  The
    effects are the reading of the document and what chunk writes that
    failed left in their chunk files; when no write fails once its file is
    open, the reading of the document is the only effect and every file is
    as it was. *)
Theorem load_document_without_chunks (E : Env) (file_path : string)
    (w w1 : World) (new_entries : Directory) :
  parse_markdown_document E file_path w = (Val (new_entries, 0), w1) ->
  load_document E file_path w = (Val false, w1)
  /\ files w1 !! DIRECTORY_FILE = files w !! DIRECTORY_FILE
  /\ (forall path, (forall id, path <> chunk_path id) ->
        files w1 !! path = files w !! path)
  /\ (exists lost,
        w1 = effects (lost ++ [EvRead file_path]) w
        /\ new_events w w1 = lost ++ [EvRead file_path]
        /\ forall ev, In ev lost ->
             exists id data, ev = EvWrite (chunk_path id) data)
  /\ (no_partial_write E ->
      w1 = effect (EvRead file_path) w
      /\ files w1 = files w
      /\ new_events w w1 = [EvRead file_path]).
Proof.
  intros Hp.
  destruct (parse_run E file_path (files w !! file_path))
    as (st & evs & Hst & Hrun).
  specialize (Hrun w eq_refl). rewrite Hrun in Hp.
  inversion Hp as [[Hs Hw]]. subst st.
  assert (Hframe : forall path, (forall id, path <> chunk_path id) ->
            files (effects (evs ++ [EvRead file_path]) w) !! path
            = files w !! path).
  { intros path Hother. apply files_effects_untouched.
    intros data Hin. apply in_app_or in Hin.
    destruct Hin as [Hin|[Hin|[]]]; [|discriminate].
    destruct (stored_events _ _ _ _ Hst _ Hin) as (id & body & Heq).
    apply EvWrite_inj in Heq. now apply (Hother id). }
  split; [|split; [|split; [|split]]].
  - unfold load_document, bind. now rewrite Hrun.
  - apply Hframe. apply directory_file_no_chunk.
  - exact Hframe.
  - exists evs. split; [reflexivity|].
    split; [apply new_events_effects|].
    intros ev Hin. now apply (stored_events _ _ _ _ Hst).
  - intros Hno. apply (stored_count _ _ _ _ Hno) in Hst. simpl in Hst.
    destruct evs; [|discriminate]. simpl.
    split; [reflexivity|]. split; [reflexivity|].
    apply (new_events_effects [EvRead file_path] w).
Qed.

Lemma load_document_without_chunks_witness :
  let w := Scenario.world Scenario.no_heading in
  load_document Scenario.plain "doc.md" w
  = (Val false, effect (EvRead "doc.md") w).
Proof.
  intros w.
  refine (eq_trans
    (proj1 (load_document_without_chunks Scenario.plain "doc.md" w
              (effect (EvRead "doc.md") w) [] _)) eq_refl).
  vm_compute. reflexivity.
Defined.

(* ===================================================================== *)
(** * Theorems: determinism of the chunker                                 *)
(* ===================================================================== *)

(** C7. Chunking again a document whose text is unchanged gives the same
    entries (ids and descriptions) and the same count, and the second run
    writes every chunk file anew: what the file holds afterwards is what
    this run wrote, which is also what the first run wrote. *)
Theorem rechunking_idempotent (E : Env) (file_path : string) (w : World) :
  let run1 := parse_markdown_document E file_path w in
  let run2 := parse_markdown_document E file_path (snd run1) in
  files (snd run1) !! file_path = files w !! file_path ->
  fst run2 = fst run1
  /\ exists entries count,
       fst run1 = Val (entries, count)
       /\ forall id e, In (id, e) entries ->
            exists body,
              In (EvWrite (chunk_file e) body) (new_events (snd run1) (snd run2))
              /\ files (snd run2) !! chunk_file e = Some (Text body)
              /\ files (snd run1) !! chunk_file e = Some (Text body).
Proof.
  intros run1 run2 Hsame.
  destruct (parse_run E file_path (files w !! file_path))
    as ([entries count] & evs & Hst & Hrun).
  assert (H1 : run1 = (Val (entries, count),
                       effects (evs ++ [EvRead file_path]) w))
    by (apply Hrun; reflexivity).
  assert (H2 : run2 = (Val (entries, count),
                       effects (evs ++ [EvRead file_path]) (snd run1)))
    by (apply Hrun; exact Hsame).
  clearbody run2. clearbody run1. subst run2. subst run1. simpl.
  split; [reflexivity|].
  exists entries, count. split; [reflexivity|].
  intros id e Hin.
  destruct (stored_written _ _ _ _ Hst id e Hin) as [[]|(body & Hb)].
  assert (Hb' : In (EvWrite (chunk_file e) body) (evs ++ [EvRead file_path]))
    by (apply in_or_app; now left).
  destruct (files_effects_written _ w _ _ Hb') as (body' & Hin' & Hl).
  exists body'. rewrite new_events_effects. split; [exact Hin'|].
  split; apply Hl.
Qed.

Lemma rechunking_idempotent_witness :
  let w := Scenario.world Scenario.two_chapters in
  let run1 := parse_markdown_document Scenario.plain "doc.md" w in
  let run2 := parse_markdown_document Scenario.plain "doc.md" (snd run1) in
  fst run2 = fst run1.
Proof.
  intros w run1 run2.
  refine (proj1 (rechunking_idempotent Scenario.plain "doc.md" w _)).
  vm_compute. reflexivity.
Defined.

(* ===================================================================== *)
(** * The chunker when every write succeeds                                *)
(* ===================================================================== *)

Lemma numbered_ge {A} (l : list A) : forall a i x,
  In (i, x) (numbered a l) -> a <= i.
Proof.
  induction l as [|y l IH]; simpl; intros a i x; [tauto|].
  intros [H|H]; [inversion H; lia|]. apply IH in H. lia.
Qed.

Lemma numbered_lt {A} (l : list A) : forall a i x,
  In (i, x) (numbered a l) -> i < a + List.length l.
Proof.
  induction l as [|y l IH]; simpl; intros a i x; [tauto|].
  intros [H|H]; [inversion H; lia|]. apply IH in H. lia.
Qed.

Lemma numbered_functional {A} (l : list A) : forall a i x y,
  In (i, x) (numbered a l) -> In (i, y) (numbered a l) -> x = y.
Proof.
  induction l as [|z l IH]; simpl; intros a i x y; [tauto|].
  intros [Hx|Hx] [Hy|Hy].
  - congruence.
  - inversion Hx; subst. apply numbered_ge in Hy. lia.
  - inversion Hy; subst. apply numbered_ge in Hx. lia.
  - eapply IH; eassumption.
Qed.

Lemma numbered_app {A} (l1 l2 : list A) : forall a,
  numbered a (l1 ++ l2) = numbered a l1 ++ numbered (a + List.length l1) l2.
Proof.
  induction l1 as [|x l1 IH]; simpl; intros a.
  - now rewrite Nat.add_0_r.
  - rewrite IH. now replace (S a + List.length l1) with (a + S (List.length l1)) by lia.
Qed.

Lemma length_numbered {A} (l : list A) a :
  List.length (numbered a l) = List.length l.
Proof. revert a. induction l; simpl; intros; [reflexivity | now rewrite IHl]. Qed.

Lemma re_split_bol_cons marker s : forall bol skip cur,
  exists first rest, Py.re_split_bol marker bol skip cur s = first :: rest.
Proof.
  induction s as [|c s IH]; intros bol skip cur; simpl.
  - eauto.
  - destruct skip; [|apply IH].
    match goal with |- context [if ?b then _ else _] => destruct b end;
      [eauto | apply IH].
Qed.

Lemma get_app_fresh {V} k (d1 d2 : list (string * V)) :
  Dict.get k d1 = None -> Dict.get k (d1 ++ d2) = Dict.get k d2.
Proof.
  induction d1 as [|[k0 v0] d1 IH]; simpl; [reflexivity|].
  destruct (String.eqb k k0); [discriminate | exact IH].
Qed.


Section chunker_exact.

Variable E : Env.
Hypothesis writes_ok : writes_succeed E.

Lemma h1_loop_exact file_prefix h1_sections :
  forall h1_idx st,
  1 <= h1_idx ->
  (forall j, h1_idx <= j -> Dict.get (chapter_id file_prefix j) (fst st) = None) ->
  let kept := List.filter (fun p => nonblank (snd p))
                (numbered h1_idx h1_sections) in
  runs (h1_loop E file_prefix h1_idx h1_sections st)
    (fst st ++ map (chapter_entry file_prefix) kept,
     snd st + List.length kept)
    (rev (map (chapter_write file_prefix) kept)).
Proof.
  induction h1_sections as [|sec rest IH]; intros idx [d n] Hidx Hfresh; simpl.
  - rewrite app_nil_r, Nat.add_0_r. apply runs_ret.
  - change (Py.nonempty (Py.strip sec)) with (nonblank sec).
    destruct (nonblank sec) eqn:Hnb; simpl.
    + destruct (Nat.eqb_spec idx 0) as [?|_]; [lia|].
      eapply runs_bind.
      * apply store_chunk_ok. apply writes_ok.
      * simpl. rewrite set_fresh by (apply (Hfresh idx); lia).
        specialize (IH (S idx)
          (d ++ [(chapter_id file_prefix idx,
                  mkEntry (heading_of sec)
                    (chunk_path (chapter_id file_prefix idx)))], S n)).
        simpl in IH. rewrite <- app_assoc in IH. simpl in IH.
        replace (n + S (List.length
                   (List.filter (fun p => nonblank (snd p))
                      (numbered (S idx) rest))))
          with (S n + List.length
                   (List.filter (fun p => nonblank (snd p))
                      (numbered (S idx) rest))) by lia.
        apply IH; [lia|].
        intros j Hj. rewrite get_app_fresh by (apply (Hfresh j); lia).
        simpl. destruct (String.eqb_spec (chapter_id file_prefix j)
                           (chapter_id file_prefix idx)) as [Heq|_];
          [|reflexivity].
        apply chapter_id_inj in Heq. lia.
    + apply (IH (S idx) (d, n)); [lia|].
      intros j Hj. apply Hfresh. lia.
Qed.

Lemma pairs_ind (P : list string -> Prop) :
  P [] -> (forall a, P [a]) -> (forall a b r, P r -> P (a :: b :: r)) ->
  forall l, P l.
Proof.
  intros H0 H1 H2.
  assert (H : forall l, P l /\ forall a, P (a :: l)).
  { induction l as [|x l [IH1 IH2]]; split; auto. }
  intros l. apply H.
Qed.

Lemma batches_full_leftover (l : list string) :
  batches l
  = full_pairs l ++ match leftover l with [] => [] | _ => [leftover l] end.
Proof.
  induction l as [| a | a b r IH] using pairs_ind; simpl; try reflexivity.
  now rewrite IH.
Qed.

Lemma leftover_short (l : list string) : List.length (leftover l) <= 1.
Proof. induction l using pairs_ind; simpl; lia. Qed.

Lemma h2_loop_exact file_prefix sections :
  forall pend st,
  List.length pend <= 1 ->
  (forall j, List.length (fst st) < j ->
             Dict.get (group_id file_prefix j) (fst st) = None) ->
  let all := pend ++ List.filter nonblank sections in
  let groups := numbered (List.length (fst st) + 1) (full_pairs all) in
  runs (h2_loop E file_prefix sections
          ((map h2_section_text pend, map heading_of pend), st))
    ((map h2_section_text (leftover all), map heading_of (leftover all)),
     (fst st ++ map (group_entry file_prefix) groups,
      snd st + List.length groups))
    (rev (map (group_write file_prefix) groups)).
Proof.
  induction sections as [|sec rest IH]; intros pend [d n] Hpend Hfresh;
    simpl in Hfresh.
  - simpl. rewrite app_nil_r.
    destruct pend as [|x [|y pend]]; simpl in *; try lia.
    + rewrite app_nil_r, Nat.add_0_r. apply runs_ret.
    + rewrite app_nil_r, Nat.add_0_r. apply runs_ret.
  - simpl. change (Py.nonempty (Py.strip sec)) with (nonblank sec).
    destruct (nonblank sec) eqn:Hnb; simpl; [|now apply IH].
    destruct pend as [|x [|y pend]]; simpl in Hpend; try lia.
    + apply (IH [sec] (d, n)); [simpl; lia | exact Hfresh].
    + simpl.
      eapply runs_bind.
      * apply store_chunk_ok. apply writes_ok.
      * simpl. rewrite set_fresh by (apply (Hfresh (List.length d + 1)); lia).
        specialize (IH []
          (d ++ [group_entry file_prefix (List.length d + 1, [x; sec])],
           S n)).
        simpl in IH. rewrite <- app_assoc in IH. simpl in IH.
        rewrite length_app in IH. simpl in IH.
        replace (List.length d + 1 + 1) with (S (List.length d + 1)) in IH
          by lia.
        replace (n + S (List.length
                   (numbered (S (List.length d + 1))
                      (full_pairs (List.filter nonblank rest)))))
          with (S n + List.length
                   (numbered (S (List.length d + 1))
                      (full_pairs (List.filter nonblank rest)))) by lia.
        apply IH; [lia|].
        intros j Hj. rewrite get_app_fresh by (apply (Hfresh j); lia).
        simpl. destruct (String.eqb_spec (group_id file_prefix j)
                           (group_id file_prefix (List.length d + 1)))
          as [Heq|_]; [|reflexivity].
        apply group_id_inj in Heq. lia.
Qed.

Lemma h2_grouping_exact file_prefix content st :
  (forall j, List.length (fst st) < j ->
             Dict.get (group_id file_prefix j) (fst st) = None) ->
  let groups := numbered (List.length (fst st) + 1)
                  (batches (h2_sections_of content)) in
  runs (h2_grouping E file_prefix content st)
    (fst st ++ map (group_entry file_prefix) groups,
     snd st + List.length groups)
    (rev (map (group_write file_prefix) groups)).
Proof.
  intros Hfresh. destruct st as [d n]. simpl in Hfresh.
  unfold h2_grouping, h2_sections_of.
  pose proof (h2_loop_exact file_prefix (tl (Py.re_split "## " content))
                [] (d, n) ltac:(simpl; lia) Hfresh) as Hloop.
  simpl in Hloop. simpl.
  set (secs := List.filter nonblank (tl (Py.re_split "## " content))) in *.
  rewrite batches_full_leftover.
  pose proof (leftover_short secs) as Hshort.
  destruct (leftover secs) as [|x [|y r]] eqn:Hleft; simpl in Hshort; try lia.
  - rewrite app_nil_r.
    replace (rev (map (group_write file_prefix)
                    (numbered (List.length d + 1) (full_pairs secs))))
      with ([] ++ rev (map (group_write file_prefix)
                    (numbered (List.length d + 1) (full_pairs secs))))
      by reflexivity.
    eapply runs_bind; [exact Hloop|]. apply runs_ret.
  - rewrite numbered_app, map_app, map_app, rev_app_distr, length_app.
    simpl. rewrite !length_numbered, app_assoc.
    match goal with |- runs _ _ (?a :: ?l) => change (a :: l) with ([a] ++ l) end.
    eapply runs_bind; [exact Hloop|]. simpl.
    rewrite length_app, length_map, length_numbered.
    replace (n + (List.length (full_pairs secs) + 1))
      with (S (n + List.length (full_pairs secs))) by lia.
    replace (List.length d + 1 + List.length (full_pairs secs))
      with (List.length d + List.length (full_pairs secs) + 1) by lia.
    pose proof (store_chunk_ok E
      (group_id file_prefix
         (List.length d + List.length (full_pairs secs) + 1))
      (rest_description [heading_of x])
      (Py.join blank_line [h2_section_text x])
      (d ++ map (group_entry file_prefix)
              (numbered (List.length d + 1) (full_pairs secs)),
       n + List.length (full_pairs secs))
      (writes_ok _ _)) as Hstore.
    simpl in Hstore. rewrite set_fresh in Hstore; [exact Hstore|].
    rewrite get_app_fresh by (apply (Hfresh _); lia).
    apply get_none_keys. unfold Dict.keys. rewrite map_map. simpl.
    intros Hin. apply in_map_iff in Hin. destruct Hin as ([j b] & Heq & Hin).
    simpl in Heq. apply group_id_inj in Heq. subst j.
    pose proof (numbered_lt _ _ _ _ Hin). lia.
Qed.

End chunker_exact.

(** [split('\n', 1)] loses nothing: joining the pieces with a line feed
    gives the text back. *)
Lemma split_line_join (s : string) : Py.join Py.nl (Py.split_line s) = s.
Proof.
  induction s as [|c r IH]; [reflexivity|]. simpl.
  destruct (Ascii.eqb_spec c Py.LF) as [->|_]; [reflexivity|].
  destruct (Py.split_line r) as [|h [|c' t]].
  - cbn [Py.join] in *. now rewrite <- IH.
  - cbn [Py.join] in *. now rewrite IH.
  - cbn [Py.join] in *. rewrite append_cons. now rewrite IH.
Qed.

(** When the heading line of a fragment has no blank around it, the body of
    its chunk is the heading marker and the whole fragment, lower-level
    headings included, without the blanks at its end. *)
Lemma chapter_body_whole_fragment (section : string) :
  List.length (Py.split_line section) = 2 ->
  Py.strip (nth 0 (Py.split_line section) EmptyString)
  = nth 0 (Py.split_line section) EmptyString ->
  chapter_body section = Py.strip ("# " +:+ section).
Proof.
  intros Hlen Hclean. unfold chapter_body, heading_of, content_of.
  rewrite Hclean, Hlen. cbn [Nat.ltb Nat.leb].
  pose proof (split_line_join section) as Hjoin.
  destruct (Py.split_line section) as [|h [|c [|x t]]]; try discriminate.
  cbn [nth Py.join] in *. now rewrite Hjoin.
Qed.

Lemma batches_shape (l : list string) : forall a n batch,
  In (n, batch) (numbered a (batches l)) ->
  (exists x y, batch = [x; y])
  \/ (exists x, batch = [x] /\ n + 1 = a + List.length (batches l)).
Proof.
  induction l as [| x | x y r IH] using pairs_ind; simpl; intros a n batch.
  - tauto.
  - intros [H|[]]. inversion H; subst. right. exists x. split; [reflexivity|lia].
  - intros [H|H].
    + inversion H; subst. left. eauto.
    + destruct (IH _ _ _ H) as [?|(z & -> & Hn)]; [now left|].
      right. exists z. split; [reflexivity|lia].
Qed.

(* ===================================================================== *)
(** * Theorems: the chunker                                                *)
(* ===================================================================== *)

(** C1, as amended.  When every write succeeds and the document has a
    non-blank fragment after a top-level heading marker, the chunker returns
    one entry for each such non-blank fragment, in order: its id is
    [<prefix>_chapter_<position>] with the 1-based position of the heading
    among all top-level headings, its description is the first line of the
    fragment with surrounding whitespace removed, and its chunk file holds
    the heading marker, that description, a line feed and the rest of the
    fragment, with surrounding whitespace removed.  The fragment before the
    first marker and the blank fragments give no chunk. *)
Theorem chapters_become_chunks (E : Env) (file_path content : string)
    (w : World) :
  writes_succeed E ->
  files w !! file_path = Some (Text content) ->
  chapters content <> [] ->
  let file_prefix := file_prefix_of file_path in
  exists w',
    parse_markdown_document E file_path w
    = (Val (map (chapter_entry file_prefix) (chapters content),
            List.length (chapters content)), w')
    /\ forall i section, In (i, section) (chapters content) ->
         files w' !! chunk_path (chapter_id file_prefix i)
         = Some (Text (chapter_body section)).
Proof.
  intros Hok Hdoc Hne pre.
  destruct (re_split_bol_cons "# " content true 0 []) as (f0 & rest & Hsplit).
  fold (Py.re_split "# " content) in Hsplit.
  assert (Hch : chapters content
                = List.filter (fun p => nonblank (snd p)) (numbered 1 rest))
    by (unfold chapters; now rewrite Hsplit).
  pose proof (h1_loop_exact E Hok pre rest 1 ([], 0) (le_n 1)
                (fun j _ => eq_refl)) as Hloop.
  simpl in Hloop. rewrite <- Hch in Hloop.
  exists (effects (rev (map (chapter_write pre) (chapters content)))
            (effect (EvRead file_path) w)).
  split.
  - unfold parse_markdown_document, bind, try_except, read_text.
    rewrite Hdoc. unfold ret. fold pre. rewrite Hsplit.
    assert (Hfirst : h1_loop E pre 0 (f0 :: rest) ([], 0)
                     = h1_loop E pre 1 rest ([], 0)).
    { simpl. now destruct (negb (Py.nonempty (Py.strip f0))). }
    rewrite Hfirst, Hloop. simpl.
    destruct (chapters content); [contradiction | reflexivity].
  - intros i section Hin.
    apply files_effects_unique.
    + rewrite <- in_rev.
      change (EvWrite (chunk_path (chapter_id pre i)) (chapter_body section))
        with (chapter_write pre (i, section)).
      now apply in_map.
    + intros data' Hin'. rewrite <- in_rev in Hin'.
      apply in_map_iff in Hin'. destruct Hin' as ([j sec'] & Heq & Hj).
      unfold chapter_write in Heq.
      apply EvWrite_inj in Heq. destruct Heq as [Hpath Hd]. simpl fst in *.
      apply chunk_path_inj, chapter_id_inj in Hpath. subst j.
      simpl snd in *. subst data'.
      rewrite Hch in Hin, Hj.
      apply filter_In in Hin, Hj. destruct Hin as [Hin _], Hj as [Hj _].
      now rewrite (numbered_functional _ _ _ _ _ Hj Hin).
Qed.

Lemma chapters_become_chunks_witness :
  exists w',
    parse_markdown_document Scenario.plain "doc.md"
      (Scenario.world Scenario.two_chapters)
    = (Val (map (chapter_entry (file_prefix_of "doc.md"))
              (chapters Scenario.two_chapters),
            List.length (chapters Scenario.two_chapters)), w')
    /\ forall i section, In (i, section) (chapters Scenario.two_chapters) ->
         files w' !! chunk_path (chapter_id (file_prefix_of "doc.md") i)
         = Some (Text (chapter_body section)).
Proof.
  apply (chapters_become_chunks Scenario.plain "doc.md"
           Scenario.two_chapters (Scenario.world Scenario.two_chapters)).
  - intros path. reflexivity.
  - vm_compute. reflexivity.
  - vm_compute. discriminate.
Defined.

(** The chunks of the scenario of the specification. *)
Example two_chapters_chunks :
  chunks_written
    (parse_markdown_document Scenario.plain "doc.md"
       (Scenario.world Scenario.two_chapters))
  = [("doc_chapter_1", "Overview",
      Some (Text (Py.join Py.nl ["# Overview"; "The device."; "## Parts";
                                 "Two coils."])));
     ("doc_chapter_2", "Specs",
      Some (Text (Py.join Py.nl ["# Specs"; "Mass: 4 kg."])))].
Proof. vm_compute. reflexivity. Qed.

(** C1 as stated fails: of the two fragments that follow a top-level
    heading marker in [# / # Overview_ / text], the blank one gives no
    chunk, and the chunk of the other has neither the first line as it is
    for description nor the fragment as it is for body. *)
Lemma chapters_counterexample :
  let run := parse_markdown_document Scenario.plain "doc.md"
               (Scenario.world Scenario.empty_heading) in
  chunks_written run
  = [("doc_chapter_2", "Overview",
      Some (Text (Py.join Py.nl ["# Overview"; "text"])))]
  /\ spec_chapters "doc" Scenario.empty_heading
     = [("doc_chapter_1", "", Some (Text (Scenario.lines ["# "])));
        ("doc_chapter_2", "Overview ",
         Some (Text (Scenario.lines ["# Overview "; "text"])))]
  /\ chunks_written run <> spec_chapters "doc" Scenario.empty_heading.
Proof.
  split; [|split].
  - vm_compute. reflexivity.
  - vm_compute. reflexivity.
  - vm_compute. discriminate.
Qed.

(** C2, as amended.  When every write succeeds and the document has no
    top-level heading marker, the chunker takes the non-blank fragments that
    follow the second-level heading markers two by two: the n-th batch gives
    the entry [<prefix>_group_<n>], described by its title alone when it
    holds one section and by [A and B] when it holds two, and its chunk file
    holds the sections of the batch; only the last batch may hold a single
    section, and it is written like the others. *)
Theorem sections_grouped_by_two (E : Env) (file_path content : string)
    (w : World) :
  writes_succeed E ->
  files w !! file_path = Some (Text content) ->
  tl (Py.re_split "# " content) = [] ->
  let file_prefix := file_prefix_of file_path in
  let groups := numbered 1 (batches (h2_sections_of content)) in
  exists w',
    parse_markdown_document E file_path w
    = (Val (map (group_entry file_prefix) groups, List.length groups), w')
    /\ (forall n batch, In (n, batch) groups ->
          files w' !! chunk_path (group_id file_prefix n)
          = Some (Text (batch_body batch)))
    /\ (forall n batch, In (n, batch) groups ->
          (exists a b, batch = [a; b]
                       /\ batch_description batch
                          = heading_of a +:+ " and " +:+ heading_of b)
          \/ (exists a, batch = [a] /\ n = List.length groups
                        /\ batch_description batch = heading_of a)).
Proof.
  intros Hok Hdoc Hno pre groups.
  destruct (re_split_bol_cons "# " content true 0 []) as (f0 & rest & Hsplit).
  fold (Py.re_split "# " content) in Hsplit.
  rewrite Hsplit in Hno. simpl in Hno. subst rest.
  pose proof (h2_grouping_exact E Hok pre content ([], 0)
                (fun j _ => eq_refl)) as Hgrp.
  simpl in Hgrp. fold groups in Hgrp.
  exists (effects (rev (map (group_write pre) groups))
            (effect (EvRead file_path) w)).
  split; [|split].
  - unfold parse_markdown_document, bind, try_except, read_text.
    rewrite Hdoc. unfold ret. fold pre. rewrite Hsplit.
    assert (Hfirst : forall w0, h1_loop E pre 0 [f0] ([], 0) w0
                                = (Val ([], 0), w0)).
    { intros w0. simpl. now destruct (negb (Py.nonempty (Py.strip f0))). }
    rewrite Hfirst. simpl. now rewrite Hgrp.
  - intros n batch Hin.
    apply files_effects_unique.
    + rewrite <- in_rev.
      change (EvWrite (chunk_path (group_id pre n)) (batch_body batch))
        with (group_write pre (n, batch)).
      now apply in_map.
    + intros data' Hin'. rewrite <- in_rev in Hin'.
      apply in_map_iff in Hin'. destruct Hin' as ([j b'] & Heq & Hj).
      unfold group_write in Heq.
      apply EvWrite_inj in Heq. destruct Heq as [Hpath Hd]. simpl fst in *.
      apply chunk_path_inj, group_id_inj in Hpath. subst j.
      simpl snd in *. subst data'.
      now rewrite (numbered_functional _ _ _ _ _ Hj Hin).
  - intros n batch Hin. unfold groups in *.
    destruct (batches_shape _ _ _ _ Hin) as [(a & b & ->)|(a & -> & Hn)].
    + left. exists a, b. split; reflexivity.
    + right. exists a. rewrite length_numbered.
      split; [reflexivity|]. split; [lia | reflexivity].
Qed.

Lemma sections_grouped_by_two_witness :
  let content := Scenario.three_sections in
  let groups := numbered 1 (batches (h2_sections_of content)) in
  exists w',
    parse_markdown_document Scenario.plain "doc.md" (Scenario.world content)
    = (Val (map (group_entry (file_prefix_of "doc.md")) groups,
            List.length groups), w')
    /\ (forall n batch, In (n, batch) groups ->
          files w' !! chunk_path (group_id (file_prefix_of "doc.md") n)
          = Some (Text (batch_body batch)))
    /\ (forall n batch, In (n, batch) groups ->
          (exists a b, batch = [a; b]
                       /\ batch_description batch
                          = heading_of a +:+ " and " +:+ heading_of b)
          \/ (exists a, batch = [a] /\ n = List.length groups
                        /\ batch_description batch = heading_of a)).
Proof.
  apply (sections_grouped_by_two Scenario.plain "doc.md"
           Scenario.three_sections (Scenario.world Scenario.three_sections)).
  - intros path. reflexivity.
  - vm_compute. reflexivity.
  - vm_compute. reflexivity.
Defined.

Example three_sections_chunks :
  chunks_written
    (parse_markdown_document Scenario.plain "doc.md"
       (Scenario.world Scenario.three_sections))
  = [("doc_group_1", "A and B",
      Some (Text (Py.join Py.nl ["## A"; "alpha"; ""; ""; "## B"; "beta"])));
     ("doc_group_2", "C",
      Some (Text (Py.join Py.nl ["## C"; "gamma"])))].
Proof. vm_compute. reflexivity. Qed.

(** C2 as stated fails: in [## / ## A / x / ## B / y] the first of the
    three second-level headings is blank and is not counted, so that the
    chunker makes one chunk, [A and B], where batches of two consecutive
    headings give two. *)
Lemma groups_counterexample :
  let run := parse_markdown_document Scenario.plain "doc.md"
               (Scenario.world Scenario.empty_section) in
  tl (Py.re_split "# " Scenario.empty_section) = []
  /\ entries_described run = [("doc_group_1", "A and B")]
  /\ spec_groups "doc" Scenario.empty_section
     = [("doc_group_1", " and A"); ("doc_group_2", "B")]
  /\ entries_described run <> spec_groups "doc" Scenario.empty_section.
Proof.
  split; [|split; [|split]].
  - vm_compute. reflexivity.
  - vm_compute. reflexivity.
  - vm_compute. reflexivity.
  - vm_compute. discriminate.
Qed.

(* ===================================================================== *)
(** * The agents, step by step                                             *)
(* ===================================================================== *)

Section agent_facts.

Variable E : Env.

Lemma initialize_ok (model : string) (w : World) :
  key_set E -> initialize_openrouter_client E model w = (Val model, w).
Proof.
  intros Hk. unfold initialize_openrouter_client.
  destruct (String.eqb_spec (OPENROUTER_API_KEY E) API_KEY_PLACEHOLDER);
    [contradiction | reflexivity].
Qed.

(** [synthesize_response] never raises; its only effect is the call to
    Agent A, if the client could be made. *)
Lemma synthesize_response_run (original_query agent_r_response : string)
    (w : World) :
  exists s evs,
    synthesize_response E original_query agent_r_response w
    = (Val s, effects evs w)
    /\ (evs = [] \/ exists prompt, evs = [EvInvoke AGENT_A_MODEL prompt]).
Proof.
  unfold synthesize_response, try_except, bind, initialize_openrouter_client.
  destruct (String.eqb (OPENROUTER_API_KEY E) API_KEY_PLACEHOLDER).
  - exists agent_r_response, []. split; [reflexivity | now left].
  - unfold ret, invoke.
    destruct (llm E (log w) AGENT_A_MODEL
                (synthesis_prompt original_query agent_r_response)).
    + eexists _, [_]. split; [reflexivity | right; eauto].
    + eexists _, [_]. split; [reflexivity | right; eauto].
Qed.

(** A decision of Agent A without an [error] key comes from a call that
    succeeded: the key is configured and the call is the only effect. *)
Lemma query_agent_a_inv (user_query : string) (directory : Directory)
    (w w1 : World) (decision : json) :
  query_agent_a E user_query directory w = (Val decision, w1) ->
  py_in "error" decision = Val false ->
  key_set E
  /\ w1 = effects [EvInvoke AGENT_A_MODEL
                     (create_agent_a_prompt user_query
                        (create_directory_summary E directory))] w.
Proof.
  unfold query_agent_a, try_except, bind, initialize_openrouter_client,
    key_set.
  destruct (String.eqb_spec (OPENROUTER_API_KEY E) API_KEY_PLACEHOLDER)
    as [Hk|Hk].
  - unfold raise, ret. intros [= <- <-] Herr. discriminate.
  - unfold ret, invoke.
    destruct (llm E (log w) AGENT_A_MODEL _) as [content|msg].
    + destruct (json_loads E (extract_json (Py.strip content))).
      * intros [= <- <-] _. split; [exact Hk | reflexivity].
      * intros [= <- <-] Herr. discriminate.
    + intros [= <- <-] Herr. discriminate.
Qed.

End agent_facts.

(* ===================================================================== *)
(** * Theorems: synthesis                                                  *)
(* ===================================================================== *)

(** C9. [synthesize_response] never raises, and when the call for the
    synthesis fails (the client cannot be made, or the model raises) it
    returns the factual answer as it received it. *)
Theorem synthesis_failure_returns_factual_answer (E : Env)
    (original_query factual_answer : string) (w : World) :
  (exists s, fst (synthesize_response E original_query factual_answer w)
             = Val s)
  /\ (OPENROUTER_API_KEY E = API_KEY_PLACEHOLDER
      \/ (exists msg, llm E (log w) AGENT_A_MODEL
                        (synthesis_prompt original_query factual_answer)
                      = inr msg) ->
      fst (synthesize_response E original_query factual_answer w)
      = Val factual_answer).
Proof.
  unfold synthesize_response, try_except, bind, initialize_openrouter_client.
  destruct (String.eqb_spec (OPENROUTER_API_KEY E) API_KEY_PLACEHOLDER)
    as [Hk|Hk].
  - split; [eauto | reflexivity].
  - unfold ret, invoke.
    destruct (llm E (log w) AGENT_A_MODEL
                (synthesis_prompt original_query factual_answer))
      as [content|msg].
    + split; [eauto|]. intros [?|[msg ?]]; [contradiction | discriminate].
    + split; [eauto | reflexivity].
Qed.

Lemma synthesis_failure_returns_factual_answer_witness :
  let E := Scenario.env JNull (inl "facts") (inr "timeout") in
  let w := effect (EvInvoke AGENT_A_MODEL "routing") Scenario.chunked_world in
  fst (synthesize_response E "What is the mass?" "Mass: 4 kg." w)
  = Val "Mass: 4 kg.".
Proof.
  intros E w.
  apply (proj2 (synthesis_failure_returns_factual_answer E
                  "What is the mass?" "Mass: 4 kg." w)).
  right. exists "timeout". reflexivity.
Defined.

(* ===================================================================== *)
(** * Validation of the scope and assembly of the context                  *)
(* ===================================================================== *)

Lemma missing_scopes_of_ids (directory : Directory) (ids : list string) :
  missing_scopes_of directory (map JStr ids)
  = Val (map JStr (missing_ids directory ids)).
Proof.
  induction ids as [|id ids IH]; simpl; [reflexivity|].
  rewrite IH. now destruct (negb (Dict.mem id directory)).
Qed.

Lemma directory_items_ids (directory : Directory) (ids : list string)
    (entries : list Entry) :
  Forall2 (fun id e => Dict.get id directory = Some e) ids entries ->
  directory_items directory (map JStr ids) = Val entries.
Proof.
  induction 1 as [|id e ids entries Hget _ IH]; simpl; [reflexivity|].
  now rewrite Hget, IH.
Qed.

(** When no two entries share a chunk file, the search by chunk file finds
    the description of the entry itself. *)
Lemma find_section_desc_own (directory : Directory) (id : string)
    (e : Entry) :
  List.NoDup (map (fun kv : string * Entry => chunk_file (snd kv)) directory) ->
  In (id, e) directory ->
  find_section_desc directory (chunk_file e) = description e.
Proof.
  induction directory as [|[k0 e0] rest IH]; simpl; [tauto|].
  intros Hnd Hin. inversion Hnd as [|? ? Hni Hnd']; subst.
  destruct (String.eqb_spec (chunk_file e0) (chunk_file e)) as [Heq|Hne].
  - destruct Hin as [Hin|Hin]; [now inversion Hin|].
    exfalso. apply Hni. rewrite Heq.
    apply (in_map (fun kv : string * Entry => chunk_file (snd kv))) in Hin.
    exact Hin.
  - destruct Hin as [Hin|Hin]; [inversion Hin; subst; contradiction|].
    now apply IH.
Qed.

(** A directory whose entries are in the chunk files of their ids, as the
    chunker makes them, has no chunk file twice. *)
Lemma chunked_distinct_files (directory : Directory) :
  Dict.wf directory -> chunked directory ->
  List.NoDup (map (fun kv : string * Entry => chunk_file (snd kv)) directory).
Proof.
  unfold Dict.wf, chunked.
  induction directory as [|[k0 e0] rest IH]; simpl; intros Hwf Hch.
  - constructor.
  - inversion Hwf as [|? ? Hni Hwf']; subst. constructor.
    + intros Hin. apply in_map_iff in Hin. destruct Hin as ([k e] & Heq & Hin).
      simpl in Heq. apply Hni.
      rewrite (Hch k0 e0) in Heq by now left.
      rewrite (Hch k e) in Heq by now right.
      apply chunk_path_inj in Heq. subst k.
      apply (in_map fst) in Hin. exact Hin.
    + apply IH; [exact Hwf'|]. intros id e Hin. apply Hch. now right.
Qed.

(** Hence a directory of the chunker into which the chunks of a document
    are merged has no chunk file twice. *)
Lemma merged_directory_distinct_files (E : Env) (file_path : string)
    (w w' : World) (directory new_entries : Directory) (chunk_count : nat) :
  Dict.wf directory -> chunked directory ->
  parse_markdown_document E file_path w
  = (Val (new_entries, chunk_count), w') ->
  List.NoDup
    (map (fun kv : string * Entry => chunk_file (snd kv))
       (Dict.update directory new_entries)).
Proof.
  intros Hwf Hch Hp.
  destruct (parse_entries_chunked E file_path w w' new_entries chunk_count Hp)
    as [_ Hnew].
  apply chunked_distinct_files.
  - now apply wf_update.
  - now apply chunked_update.
Qed.

(** The loop that builds the combined context, when every chunk file is
    there or missing: it reads the files in the order given and adds what
    each contributes. *)
Lemma combine_chunks_assembled (directory : Directory)
    (chunk_files : list string) :
  forall (i : nat) (combined : string) (w : World),
  Forall (fun file => forall msg, files w !! file <> Some (Unreadable msg))
    chunk_files ->
  combine_chunks i chunk_files directory combined w
  = (Val (combined +:+ assembled_context (files w) directory i chunk_files),
     effects (rev (map EvRead chunk_files)) w).
Proof.
  induction chunk_files as [|file rest IH]; intros i combined w Hall; simpl.
  - unfold ret. now rewrite append_nil_r.
  - inversion Hall as [|? ? Hfile Hrest]; subst.
    unfold bind, try_except, read_text, contribution.
    destruct (files w !! file) as [[body|msg]|] eqn:Hf.
    + unfold ret. rewrite IH by exact Hrest. simpl files.
      rewrite effects_app. simpl. now rewrite !append_assoc.
    + exfalso. now apply (Hfile msg).
    + unfold ret. rewrite IH by exact Hrest. simpl files.
      rewrite effects_app. simpl. now rewrite !append_assoc.
Qed.

(** With every chunk file present and no chunk file shared, the assembled
    context is the combined context of the sections. *)
Lemma assembled_combined (fs : gmap string file_state) (directory : Directory)
    (sections : list (Entry * string)) :
  List.NoDup (map (fun kv : string * Entry => chunk_file (snd kv)) directory) ->
  forall i,
  Forall (fun s : Entry * string =>
            (exists id, In (id, fst s) directory)
            /\ fs !! chunk_file (fst s) = Some (Text (snd s))) sections ->
  assembled_context fs directory i (map (fun s => chunk_file (fst s)) sections)
  = combined_context i sections.
Proof.
  intros Hnd i Hall. revert i.
  induction Hall as [|[e body] rest [(id & Hin) Hf] _ IH]; intros i; simpl.
  - reflexivity.
  - unfold contribution. simpl in Hf. rewrite Hf.
    rewrite (find_section_desc_own directory id e Hnd Hin).
    rewrite IH. now rewrite !append_assoc.
Qed.

Lemma assembled_context_app (fs : gmap string file_state)
    (directory : Directory) (pre post : list string) : forall i,
  assembled_context fs directory i (pre ++ post)
  = assembled_context fs directory i pre
    +:+ assembled_context fs directory (i + List.length pre) post.
Proof.
  induction pre as [|f pre IH]; intros i; simpl.
  - now rewrite Nat.add_0_r.
  - rewrite IH, append_assoc.
    now replace (S i + List.length pre) with (i + S (List.length pre)) by lia.
Qed.

Section dispatch_facts.

Variable E : Env.

(** [query_agent_r_multiple] never raises.  With the key configured and
    every chunk file there or missing, it reads the chunk files in order and
    sends one request with the assembled context. *)
Lemma query_agent_r_multiple_run (chunk_files : list string)
    (sub_query : string) (directory : Directory) (w : World) :
  key_set E ->
  Forall (fun file => forall msg, files w !! file <> Some (Unreadable msg))
    chunk_files ->
  exists r,
    query_agent_r_multiple E chunk_files sub_query directory w
    = (Val r,
       effects
         (EvInvoke AGENT_R_MODEL
            (create_multi_agent_r_prompt
               (assembled_context (files w) directory 1 chunk_files)
               sub_query)
          :: rev (map EvRead chunk_files)) w).
Proof.
  intros Hk Hall.
  unfold query_agent_r_multiple, try_except, bind.
  rewrite combine_chunks_assembled by exact Hall.
  rewrite initialize_ok by exact Hk.
  rewrite append_nil_l. unfold invoke.
  destruct (llm E _ AGENT_R_MODEL _); eexists; reflexivity.
Qed.

End dispatch_facts.

(* ===================================================================== *)
(** * The router                                                           *)
(* ===================================================================== *)

Section router_facts.

Variable E : Env.
Variables (user_query : string) (directory : Directory).
Variable kv : list (string * json).
Hypothesis no_error : Dict.mem "error" kv = false.

Lemma route_direct (w : World) :
  PyVal.truthy (flag_of kv) = false ->
  route E user_query directory (JObj kv) w = (Val (answer_of kv), w).
Proof.
  intros Hf. unfold route, bind, lift, py_in, py_get.
  rewrite no_error. fold (flag_of kv). now rewrite Hf.
Qed.

Lemma route_validated (ids : list string) (w : World) :
  PyVal.truthy (flag_of kv) = true ->
  scope_of_ids (scope_field kv) ids ->
  route E user_query directory (JObj kv) w
  = match missing_ids directory ids with
    | [] => dispatch E user_query directory (map JStr ids) (sub_query_of kv) w
    | _ :: _ =>
        (Val (JStr (msg_missing (map JStr (missing_ids directory ids)))), w)
    end.
Proof.
  intros Hf Hscope. unfold route, bind, lift, py_in, py_get.
  rewrite no_error. fold (flag_of kv) (scope_field kv) (sub_query_of kv).
  rewrite Hf. simpl negb. cbv iota.
  destruct Hscope as [(id & -> & ->)| ->].
  - change [JStr id] with (map JStr [id]).
    rewrite missing_scopes_of_ids.
    destruct (missing_ids directory [id]); reflexivity.
  - rewrite missing_scopes_of_ids.
    destruct (missing_ids directory ids); reflexivity.
Qed.

Lemma route_scope_format (w : World) :
  PyVal.truthy (flag_of kv) = true ->
  (forall s, scope_field kv <> JStr s) ->
  (forall l, scope_field kv <> JArr l) ->
  route E user_query directory (JObj kv) w = (Val (JStr MSG_SCOPE_FORMAT), w).
Proof.
  intros Hf Hs Hl. unfold route, bind, lift, py_in, py_get.
  rewrite no_error. fold (flag_of kv) (scope_field kv) (sub_query_of kv).
  rewrite Hf. simpl negb. cbv iota.
  destruct (scope_field kv) as [| | |s|l|]; try reflexivity.
  - now destruct (Hs s).
  - now destruct (Hl l).
Qed.

End router_facts.

(* ===================================================================== *)
(** * Theorems: routing and dispatch                                       *)
(* ===================================================================== *)

(** C4. A delegation whose scope names ids that the directory does not have
    is answered with the message that lists exactly those ids, in the order
    of the scope; the call to Agent A is the only effect of the query, so
    that no chunk is read and no reference agent is called. *)
Theorem unknown_scope_rejected (E : Env) (user_query : string)
    (directory : Directory) (w w1 : World) (kv : list (string * json))
    (ids : list string) :
  query_agent_a E user_query directory w = (Val (JObj kv), w1) ->
  Dict.mem "error" kv = false ->
  PyVal.truthy (flag_of kv) = true ->
  scope_of_ids (scope_field kv) ids ->
  missing_ids directory ids <> [] ->
  process_user_query E user_query directory w
  = (Val (JStr (msg_missing (map JStr (missing_ids directory ids)))), w1)
  /\ new_events w w1
     = [EvInvoke AGENT_A_MODEL
          (create_agent_a_prompt user_query
             (create_directory_summary E directory))].
Proof.
  intros Hq Hne Hf Hscope Hmiss.
  destruct (query_agent_a_inv E user_query directory w w1 (JObj kv) Hq)
    as [_ Hw1]; [simpl; now rewrite Hne|].
  split.
  - unfold process_user_query, bind. rewrite Hq.
    rewrite (route_validated E user_query directory kv Hne ids w1 Hf Hscope).
    destruct (missing_ids directory ids); [contradiction | reflexivity].
  - rewrite Hw1. apply new_events_effects.
Qed.

(** The scenario of the specification: [doc_chapter_9] is not in the
    directory of the two chapters. *)
Lemma unknown_scope_rejected_witness :
  let E := Scenario.env
             (Scenario.delegation (JArr [JStr "doc_chapter_9"]) "Mass?")
             (inl "facts") (inl "answer") in
  let w := Scenario.chunked_world in
  process_user_query E "What is the mass?" Scenario.directory w
  = (Val (JStr ("I wanted to check my reference material for "
                +:+ "['doc_chapter_9'], but those sections don't exist "
                +:+ "in my knowledge base.")),
     effect (EvInvoke AGENT_A_MODEL
               (create_agent_a_prompt "What is the mass?" "{}")) w).
Proof.
  intros E w.
  refine (eq_trans
    (proj1 (unknown_scope_rejected E "What is the mass?" Scenario.directory
              w (effect (EvInvoke AGENT_A_MODEL
                           (create_agent_a_prompt "What is the mass?" "{}")) w)
              [("needs_reference", JBool true);
               ("scope", JArr [JStr "doc_chapter_9"]);
               ("sub_query", JStr "Mass?"); ("reason", JStr "look it up")]
              ["doc_chapter_9"] _ _ _ _ _)) _).
  - vm_compute. reflexivity.
  - reflexivity.
  - reflexivity.
  - right. reflexivity.
  - vm_compute. discriminate.
  - vm_compute. reflexivity.
Defined.

Section dispatch_steps.

Variable E : Env.
Hypothesis key_ok : key_set E.
Variables (user_query : string) (directory : Directory).

(** The dispatch to several chunks: the chunk files are read in the order
    of the scope, one request goes to the reference agent, and the
    synthesis follows. *)
Lemma dispatch_multiple (ids : list string) (entries : list Entry)
    (sub_query : json) (w : World) :
  1 < List.length ids ->
  Forall2 (fun id e => Dict.get id directory = Some e) ids entries ->
  Forall (fun file => forall msg, files w !! file <> Some (Unreadable msg))
    (map chunk_file entries) ->
  exists r synth,
    dispatch E user_query directory (map JStr ids) sub_query w
    = (Val r,
       effects
         (synth
          ++ EvInvoke AGENT_R_MODEL
               (create_multi_agent_r_prompt
                  (assembled_context (files w) directory 1
                     (map chunk_file entries))
                  (PyVal.str sub_query))
             :: rev (map EvRead (map chunk_file entries))) w)
    /\ (synth = [] \/ exists prompt, synth = [EvInvoke AGENT_A_MODEL prompt]).
Proof.
  intros Hlen Hget Hfiles.
  destruct ids as [|a [|b rest]]; simpl in Hlen; try lia.
  unfold dispatch. simpl map. cbv iota.
  change (JStr a :: JStr b :: map JStr rest) with (map JStr (a :: b :: rest)).
  unfold bind at 1 2. unfold lift.
  rewrite (directory_items_ids directory _ entries Hget).
  destruct (query_agent_r_multiple_run E (map chunk_file entries)
              (PyVal.str sub_query) directory w key_ok Hfiles) as (r & Hr).
  rewrite Hr.
  destruct (synthesize_response_run E user_query r
              (effects
                 (EvInvoke AGENT_R_MODEL
                    (create_multi_agent_r_prompt
                       (assembled_context (files w) directory 1
                          (map chunk_file entries))
                       (PyVal.str sub_query))
                  :: rev (map EvRead (map chunk_file entries))) w))
    as (s & synth & Hs & Hsynth).
  exists (JStr s), synth. split; [|exact Hsynth].
  unfold bind. rewrite Hs. unfold ret. now rewrite effects_app.
Qed.

(** The dispatch to one chunk. *)
Lemma dispatch_single (id : string) (e : Entry) (body : string)
    (sub_query : json) (w : World) :
  Dict.get id directory = Some e ->
  files w !! chunk_file e = Some (Text body) ->
  exists r synth,
    dispatch E user_query directory [JStr id] sub_query w
    = (Val r,
       effects
         (synth
          ++ [EvInvoke AGENT_R_MODEL
                (create_agent_r_prompt body (PyVal.str sub_query));
              EvRead (chunk_file e)]) w)
    /\ (synth = [] \/ exists prompt, synth = [EvInvoke AGENT_A_MODEL prompt]).
Proof.
  intros Hget Hfile.
  assert (Hsingle : exists r,
    query_agent_r_single E (chunk_file e) (PyVal.str sub_query) w
    = (Val r,
       effects [EvInvoke AGENT_R_MODEL
                  (create_agent_r_prompt body (PyVal.str sub_query));
                EvRead (chunk_file e)] w)).
  { unfold query_agent_r_single, try_except, bind, read_text.
    rewrite Hfile. rewrite initialize_ok by exact key_ok. unfold invoke.
    destruct (llm E _ AGENT_R_MODEL _); eexists; reflexivity. }
  destruct Hsingle as (r & Hr).
  destruct (synthesize_response_run E user_query r
              (effects [EvInvoke AGENT_R_MODEL
                          (create_agent_r_prompt body (PyVal.str sub_query));
                        EvRead (chunk_file e)] w))
    as (s & synth & Hs & Hsynth).
  exists (JStr s), synth. split; [|exact Hsynth].
  unfold dispatch. unfold bind at 1 2. unfold lift. simpl directory_item.
  rewrite Hget, Hr. unfold bind. rewrite Hs. unfold ret.
  now rewrite effects_app.
Qed.

End dispatch_steps.

Lemma files_query_agent_a (E : Env) (user_query : string)
    (directory : Directory) (w : World) :
  files (snd (query_agent_a E user_query directory w)) = files w.
Proof.
  unfold query_agent_a, try_except, bind, initialize_openrouter_client.
  destruct (String.eqb (OPENROUTER_API_KEY E) API_KEY_PLACEHOLDER);
    [reflexivity|].
  unfold ret, invoke.
  destruct (llm E (log w) AGENT_A_MODEL _); [|reflexivity].
  now destruct (json_loads E _).
Qed.

Lemma all_ids_known (directory : Directory) (ids : list string)
    (entries : list Entry) :
  Forall2 (fun id e => Dict.get id directory = Some e) ids entries ->
  missing_ids directory ids = [].
Proof.
  induction 1 as [|id e ids entries Hget _ IH]; simpl; [reflexivity|].
  unfold Dict.mem. now rewrite Hget.
Qed.

(** C3, as amended.  For a delegation whose scope lists more than one id,
    all of them in the directory, with their chunk files readable and no
    chunk file shared by two entries of the directory: after the call to
    Agent A, the chunk files are read in the order of the scope and one
    request goes to the reference agent; its context is, for each id of the
    scope in that order, a delimiter line with the section number and the
    description of the entry, then the body of the chunk.  The order of the
    directory plays no part. *)
Theorem multi_dispatch_follows_scope (E : Env) (user_query : string)
    (directory : Directory) (w w1 : World) (kv : list (string * json))
    (ids : list string) (sections : list (Entry * string)) :
  query_agent_a E user_query directory w = (Val (JObj kv), w1) ->
  Dict.mem "error" kv = false ->
  PyVal.truthy (flag_of kv) = true ->
  scope_field kv = JArr (map JStr ids) ->
  1 < List.length ids ->
  Forall2 (fun id (s : Entry * string) =>
             Dict.get id directory = Some (fst s)
             /\ files w !! chunk_file (fst s) = Some (Text (snd s)))
    ids sections ->
  List.NoDup (map (fun kv : string * Entry => chunk_file (snd kv)) directory) ->
  exists synth,
    new_events w (snd (process_user_query E user_query directory w))
    = synth
      ++ EvInvoke AGENT_R_MODEL
           (create_multi_agent_r_prompt (combined_context 1 sections)
              (PyVal.str (sub_query_of kv)))
         :: rev (map (fun s : Entry * string => EvRead (chunk_file (fst s)))
                   sections)
      ++ [EvInvoke AGENT_A_MODEL
            (create_agent_a_prompt user_query
               (create_directory_summary E directory))]
    /\ (synth = [] \/ exists prompt, synth = [EvInvoke AGENT_A_MODEL prompt]).
Proof.
  intros Hq Hne Hf Hscope Hlen Hsec Hnd.
  destruct (query_agent_a_inv E user_query directory w w1 (JObj kv) Hq)
    as [Hk Hw1]; [simpl; now rewrite Hne|].
  assert (Hfiles : files w1 = files w)
    by (rewrite <- (files_query_agent_a E user_query directory w);
        now rewrite Hq).
  assert (Hget : Forall2 (fun id e => Dict.get id directory = Some e)
                   ids (map fst sections)).
  { clear -Hsec. induction Hsec as [|id s ids sections [Hg _] _ IH]; simpl;
      constructor; assumption. }
  assert (Hall : Forall (fun s : Entry * string =>
                    (exists id, In (id, fst s) directory)
                    /\ files w1 !! chunk_file (fst s) = Some (Text (snd s)))
                   sections).
  { rewrite Hfiles. clear -Hsec.
    induction Hsec as [|id s ids sections [Hg Hf] _ IH]; constructor;
      [|exact IH].
    split; [|exact Hf]. exists id. now apply get_some_in. }
  assert (Hreadable : Forall (fun file => forall msg,
                         files w1 !! file <> Some (Unreadable msg))
                        (map chunk_file (map fst sections))).
  { rewrite map_map. apply Forall_map.
    eapply List.Forall_impl; [|exact Hall].
    intros s [_ Hs] msg. simpl. now rewrite Hs. }
  destruct (dispatch_multiple E Hk user_query directory ids
              (map fst sections) (sub_query_of kv) w1 Hlen Hget Hreadable)
    as (r & synth & Hd & Hsynth).
  exists synth. split; [|exact Hsynth].
  unfold process_user_query, bind. rewrite Hq.
  rewrite (route_validated E user_query directory kv Hne ids w1 Hf)
    by (right; exact Hscope).
  rewrite (all_ids_known directory ids _ Hget).
  rewrite Hd. simpl snd.
  rewrite (map_map fst chunk_file).
  rewrite (assembled_combined _ directory sections Hnd 1 Hall).
  rewrite Hw1, <- effects_app, new_events_effects.
  rewrite <- app_assoc. simpl. f_equal. f_equal. f_equal.
  now rewrite map_map.
Qed.

(** The scenario of the specification: the scope names [doc_chapter_2]
    before [doc_chapter_1], and the [Specs] section comes first. *)
Lemma multi_dispatch_follows_scope_witness :
  let E := Scenario.env
             (Scenario.delegation
                (JArr [JStr "doc_chapter_2"; JStr "doc_chapter_1"]) "Mass?")
             (inl "facts") (inl "answer") in
  let w := Scenario.chunked_world in
  let specs := Py.join Py.nl ["# Specs"; "Mass: 4 kg."] in
  let overview := Py.join Py.nl ["# Overview"; "The device."; "## Parts";
                                 "Two coils."] in
  exists synth,
    new_events w
      (snd (process_user_query E "What is the mass?" Scenario.directory w))
    = synth
      ++ EvInvoke AGENT_R_MODEL
           (create_multi_agent_r_prompt
              (Py.nl +:+ "--- REFERENCE SECTION 1: Specs ---" +:+ Py.nl
               +:+ specs +:+ Py.nl
               +:+ Py.nl +:+ "--- REFERENCE SECTION 2: Overview ---" +:+ Py.nl
               +:+ overview +:+ Py.nl)
              "Mass?")
         :: [EvRead "chunks/doc_chapter_1.txt";
             EvRead "chunks/doc_chapter_2.txt"]
      ++ [EvInvoke AGENT_A_MODEL
            (create_agent_a_prompt "What is the mass?" "{}")]
    /\ (synth = [] \/ exists prompt, synth = [EvInvoke AGENT_A_MODEL prompt]).
Proof.
  intros E w specs overview.
  refine (multi_dispatch_follows_scope E "What is the mass?"
              Scenario.directory w
              (effect (EvInvoke AGENT_A_MODEL
                         (create_agent_a_prompt "What is the mass?" "{}")) w)
              [("needs_reference", JBool true);
               ("scope", JArr [JStr "doc_chapter_2"; JStr "doc_chapter_1"]);
               ("sub_query", JStr "Mass?"); ("reason", JStr "look it up")]
              ["doc_chapter_2"; "doc_chapter_1"]
              [(mkEntry "Specs" "chunks/doc_chapter_2.txt", specs);
               (mkEntry "Overview" "chunks/doc_chapter_1.txt", overview)]
              _ _ _ _ _ _ _).
  - vm_compute. reflexivity.
  - reflexivity.
  - reflexivity.
  - reflexivity.
  - simpl. lia.
  - repeat constructor; vm_compute; reflexivity.
  - simpl. repeat constructor; simpl; intuition discriminate.
Defined.

(** C3 as stated fails: the description in a header is looked up by chunk
    file, in the order of the directory.  When two entries have the same
    chunk file, the headers of both sections carry the description of the
    first of these entries: for the scope [b; a] the first header should
    say [Second], the description of [b], and says [First]. *)
Lemma shared_chunk_file_counterexample :
  let E := Scenario.env (Scenario.delegation (JArr [JStr "b"; JStr "a"]) "What?")
             (inl "facts") (inl "answer") in
  let sent := new_events Shared.world
                (snd (process_user_query E "What is it?" Shared.directory
                        Shared.world)) in
  let claimed := combined_context 1
                   [(mkEntry "Second" "chunks/shared.txt", "The text.");
                    (mkEntry "First" "chunks/shared.txt", "The text.")] in
  let actual := combined_context 1
                  [(mkEntry "First" "chunks/shared.txt", "The text.");
                   (mkEntry "First" "chunks/shared.txt", "The text.")] in
  In (EvInvoke AGENT_R_MODEL (create_multi_agent_r_prompt actual "What?")) sent
  /\ ~ In (EvInvoke AGENT_R_MODEL (create_multi_agent_r_prompt claimed "What?"))
        sent.
Proof.
  split.
  - vm_compute. right. left. reflexivity.
  - intros H. vm_compute in H.
    destruct H as [H|[H|[H|[H|[H|[]]]]]]; discriminate H.
Qed.

(** C6, as amended.  In a multi-chunk dispatch in which every chunk file
    either holds text or does not exist, the request to the reference agent
    is made: the context has, section by section and in order, the header
    and body of a chunk that is there and the marker [ERROR: Could not load]
    for a chunk file that is missing; a missing file changes nothing for the
    sections before it nor after it. *)
Theorem missing_chunk_degrades (E : Env) (chunk_files : list string)
    (sub_query : string) (directory : Directory) (w : World) :
  key_set E ->
  Forall (fun file => forall msg, files w !! file <> Some (Unreadable msg))
    chunk_files ->
  (exists r,
     query_agent_r_multiple E chunk_files sub_query directory w
     = (Val r,
        effects
          (EvInvoke AGENT_R_MODEL
             (create_multi_agent_r_prompt
                (assembled_context (files w) directory 1 chunk_files)
                sub_query)
           :: rev (map EvRead chunk_files)) w))
  /\ forall pre file post,
       chunk_files = pre ++ file :: post ->
       files w !! file = None ->
       assembled_context (files w) directory 1 chunk_files
       = assembled_context (files w) directory 1 pre
         +:+ load_error_marker file
         +:+ assembled_context (files w) directory (List.length pre + 2) post.
Proof.
  intros Hk Hall. split.
  - now apply query_agent_r_multiple_run.
  - intros pre file post -> Hmissing.
    rewrite assembled_context_app. simpl. unfold contribution.
    rewrite Hmissing.
    now replace (List.length pre + 2) with (S (S (List.length pre))) by lia.
Qed.

Lemma missing_chunk_degrades_witness :
  exists r,
    query_agent_r_multiple Scenario.plain Degraded.chunk_files "Mass?"
      Scenario.directory Degraded.deleted
    = (Val r,
       effects
         [EvInvoke AGENT_R_MODEL
            (create_multi_agent_r_prompt
               (Py.nl +:+ "--- ERROR: Could not load chunks/doc_chapter_1.txt ---"
                +:+ Py.nl
                +:+ Py.nl +:+ "--- REFERENCE SECTION 2: Specs ---" +:+ Py.nl
                +:+ Py.join Py.nl ["# Specs"; "Mass: 4 kg."] +:+ Py.nl)
               "Mass?");
          EvRead "chunks/doc_chapter_2.txt";
          EvRead "chunks/doc_chapter_1.txt"] Degraded.deleted).
Proof.
  refine (proj1 (missing_chunk_degrades Scenario.plain Degraded.chunk_files
                   "Mass?" Scenario.directory Degraded.deleted _ _)).
  - vm_compute. discriminate.
  - repeat constructor; intros msg; vm_compute; discriminate.
Defined.

(** C6 as stated fails: a chunk file that exists but cannot be read (here
    for want of permission) makes the whole dispatch end with an error text;
    no context is assembled and the reference agent is not called. *)
Lemma unreadable_chunk_aborts :
  let run := query_agent_r_multiple Scenario.plain Degraded.chunk_files
               "Mass?" Scenario.directory Degraded.locked in
  fst run = Val ("Error querying Agent R_i with multiple chunks: "
                 +:+ Degraded.denied)
  /\ new_events Degraded.locked (snd run)
     = [EvRead "chunks/doc_chapter_2.txt"; EvRead "chunks/doc_chapter_1.txt"]
  /\ ~ exists prompt,
         In (EvInvoke AGENT_R_MODEL prompt)
           (new_events Degraded.locked (snd run)).
Proof.
  assert (Hev : new_events Degraded.locked
                  (snd (query_agent_r_multiple Scenario.plain
                          Degraded.chunk_files "Mass?" Scenario.directory
                          Degraded.locked))
                = [EvRead "chunks/doc_chapter_2.txt";
                   EvRead "chunks/doc_chapter_1.txt"])
    by (vm_compute; reflexivity).
  split; [|split].
  - vm_compute. reflexivity.
  - exact Hev.
  - intros (prompt & Hin). rewrite Hev in Hin.
    destruct Hin as [H|[H|[]]]; discriminate.
Qed.

(** The same in general: the first chunk file that exists but cannot be
    read ends the dispatch.  The files before it have been read, the error
    text is returned, and the reference agent is not called. *)
Lemma unreadable_chunk_stops_the_loop (directory : Directory)
    (file msg : string) (post : list string) (pre : list string) :
  forall (i : nat) (combined : string) (w : World),
  Forall (fun f => forall m, files w !! f <> Some (Unreadable m)) pre ->
  files w !! file = Some (Unreadable msg) ->
  combine_chunks i (pre ++ file :: post) directory combined w
  = (Exc (OSError msg), effects (EvRead file :: rev (map EvRead pre)) w).
Proof.
  induction pre as [|f pre IH]; intros i combined w Hpre Hfile; simpl.
  - unfold bind, try_except, read_text. now rewrite Hfile.
  - inversion Hpre as [|? ? Hf Hrest]; subst.
    unfold bind at 1. unfold try_except at 1. unfold bind at 1.
    unfold read_text at 1.
    destruct (files w !! f) as [[body|m]|] eqn:Hlook.
    + unfold ret at 1. rewrite IH by assumption.
      change (EvRead file :: rev (map EvRead pre) ++ [EvRead f])
        with ((EvRead file :: rev (map EvRead pre)) ++ [EvRead f]).
      now rewrite effects_app.
    + exfalso. now apply (Hf m).
    + unfold ret at 1. rewrite IH by assumption.
      change (EvRead file :: rev (map EvRead pre) ++ [EvRead f])
        with ((EvRead file :: rev (map EvRead pre)) ++ [EvRead f]).
      now rewrite effects_app.
Qed.

Lemma unreadable_chunk_ends_dispatch (E : Env) (pre post : list string)
    (file msg sub_query : string) (directory : Directory) (w : World) :
  Forall (fun f => forall m, files w !! f <> Some (Unreadable m)) pre ->
  files w !! file = Some (Unreadable msg) ->
  query_agent_r_multiple E (pre ++ file :: post) sub_query directory w
  = (Val ("Error querying Agent R_i with multiple chunks: " +:+ msg),
     effects (EvRead file :: rev (map EvRead pre)) w).
Proof.
  intros Hpre Hfile. unfold query_agent_r_multiple, try_except.
  unfold bind at 1.
  now rewrite (unreadable_chunk_stops_the_loop directory file msg post pre
                 1 EmptyString w Hpre Hfile).
Qed.

(* ===================================================================== *)
(** * Theorems: validation of the decision                                 *)
(* ===================================================================== *)

(** C5, as amended.  For a decision that is an object: with an [error] key
    the query is answered with the error message; otherwise the flag is
    read by its truth value, an absent flag counting as false.  When it is
    false the answer is the [answer] field as it is, or a fixed text when
    there is none, and nothing is dispatched.  When it is true the scope has
    to be a string or a list, or else the scope-format message is returned;
    [sub_query] is not checked: for a scope of one known id whose chunk can
    be read, the reference agent is called with [str(sub_query)], whatever
    [sub_query] is ([None] when it is absent). *)
Theorem decision_read_by_truth_value (E : Env) (user_query : string)
    (directory : Directory) (w w1 : World) (kv : list (string * json)) :
  query_agent_a E user_query directory w = (Val (JObj kv), w1) ->
  (Dict.mem "error" kv = true ->
   process_user_query E user_query directory w = (Val (JStr MSG_ERROR), w1))
  /\ (Dict.mem "error" kv = false ->
      PyVal.truthy (flag_of kv) = false ->
      process_user_query E user_query directory w = (Val (answer_of kv), w1))
  /\ (Dict.mem "error" kv = false ->
      PyVal.truthy (flag_of kv) = true ->
      (forall s, scope_field kv <> JStr s) ->
      (forall l, scope_field kv <> JArr l) ->
      process_user_query E user_query directory w
      = (Val (JStr MSG_SCOPE_FORMAT), w1))
  /\ (Dict.mem "error" kv = false ->
      PyVal.truthy (flag_of kv) = true ->
      forall id e body,
        scope_of_ids (scope_field kv) [id] ->
        Dict.get id directory = Some e ->
        files w !! chunk_file e = Some (Text body) ->
        In (EvInvoke AGENT_R_MODEL
              (create_agent_r_prompt body (PyVal.str (sub_query_of kv))))
          (new_events w
             (snd (process_user_query E user_query directory w)))).
Proof.
  intros Hq. split; [|split; [|split]].
  - intros He. unfold process_user_query, bind. rewrite Hq.
    unfold route, bind, lift, py_in. now rewrite He.
  - intros Hne Hf. unfold process_user_query, bind. rewrite Hq.
    now apply route_direct.
  - intros Hne Hf Hs Hl. unfold process_user_query, bind. rewrite Hq.
    now apply route_scope_format.
  - intros Hne Hf id e body Hscope Hget Hfile.
    destruct (query_agent_a_inv E user_query directory w w1 (JObj kv) Hq)
      as [Hk Hw1]; [simpl; now rewrite Hne|].
    assert (Hfiles : files w1 = files w)
      by (rewrite <- (files_query_agent_a E user_query directory w);
          now rewrite Hq).
    rewrite <- Hfiles in Hfile.
    destruct (dispatch_single E Hk user_query directory id e body
                (sub_query_of kv) w1 Hget Hfile)
      as (r & synth & Hd & _).
    unfold process_user_query, bind. rewrite Hq.
    rewrite (route_validated E user_query directory kv Hne [id] w1 Hf Hscope).
    simpl missing_ids. unfold Dict.mem. rewrite Hget. simpl.
    rewrite Hd. simpl snd.
    rewrite Hw1, <- effects_app, new_events_effects.
    rewrite <- app_assoc. apply in_or_app. right. now left.
Qed.

(** A delegation with an empty [sub_query] is dispatched. *)
Lemma decision_read_by_truth_value_witness :
  let E := Scenario.env (Scenario.delegation (JStr "doc_chapter_2") "")
             (inl "facts") (inl "answer") in
  let w := Scenario.chunked_world in
  In (EvInvoke AGENT_R_MODEL
        (create_agent_r_prompt (Py.join Py.nl ["# Specs"; "Mass: 4 kg."]) ""))
    (new_events w
       (snd (process_user_query E "What is the mass?" Scenario.directory w))).
Proof.
  intros E w.
  refine (proj2 (proj2 (proj2
    (decision_read_by_truth_value E "What is the mass?" Scenario.directory w
       (effect (EvInvoke AGENT_A_MODEL
                  (create_agent_a_prompt "What is the mass?" "{}")) w)
       [("needs_reference", JBool true); ("scope", JStr "doc_chapter_2");
        ("sub_query", JStr ""); ("reason", JStr "look it up")] _)))
    _ _ "doc_chapter_2" (mkEntry "Specs" "chunks/doc_chapter_2.txt")
    (Py.join Py.nl ["# Specs"; "Mass: 4 kg."]) _ _ _).
  - vm_compute. reflexivity.
  - reflexivity.
  - reflexivity.
  - left. exists "doc_chapter_2". split; reflexivity.
  - reflexivity.
  - vm_compute. reflexivity.
Defined.

(** C5 as stated fails: a decision without the flag is answered with its
    [answer] field, which is no router error, and a delegation with an empty
    [sub_query] reaches the reference agent. *)
Lemma unvalidated_decisions :
  let no_flag := JObj [("answer", JStr "hi")] in
  let empty_sub := Scenario.delegation (JStr "doc_chapter_2") "" in
  let w := Scenario.chunked_world in
  ~ spec_valid_decision no_flag
  /\ fst (process_user_query
            (Scenario.env no_flag (inl "facts") (inl "answer"))
            "Hello" Scenario.directory w)
     = Val (JStr "hi")
  /\ ~ router_error (JStr "hi")
  /\ ~ spec_valid_decision empty_sub
  /\ In (EvInvoke AGENT_R_MODEL
           (create_agent_r_prompt (Py.join Py.nl ["# Specs"; "Mass: 4 kg."])
              ""))
       (new_events w
          (snd (process_user_query
                  (Scenario.env empty_sub (inl "facts") (inl "answer"))
                  "What is the mass?" Scenario.directory w))).
Proof.
  intros no_flag empty_sub w. split; [|split; [|split; [|split]]].
  - intros (kv & b & Hd & Hflag & _). inversion Hd; subst kv. discriminate.
  - vm_compute. reflexivity.
  - intros [H|[H|(missing & H)]]; discriminate.
  - intros (kv & b & Hd & Hflag & Hsub). inversion Hd; subst kv.
    inversion Hflag; subst b.
    destruct (Hsub eq_refl) as (s & Hs & Hne). inversion Hs; subst s.
    now apply Hne.
  - vm_compute. right. left. reflexivity.
Qed.

(* ===================================================================== *)
(** * Further properties: the chunker whatever the writes do               *)
(* ===================================================================== *)


Lemma keys_app {V} (d1 d2 : list (string * V)) :
  Dict.keys (d1 ++ d2) = Dict.keys d1 ++ Dict.keys d2.
Proof. unfold Dict.keys. apply map_app. Qed.

Section chunker_any.

Variable E : Env.

Lemma chapter_attempts_cons file_prefix (p : nat * string)
    (l : list (nat * string)) :
  chapter_attempts E file_prefix (p :: l)
  = chapter_attempts E file_prefix l ++ chapter_events E file_prefix p.
Proof.
  unfold chapter_attempts. simpl. rewrite rev_app_distr. f_equal.
  unfold chapter_events, write_events.
  now destruct (write_error E _ _) as [[msg|kept msg]|].
Qed.

(** The loop over the top-level fragments, whatever the writes do: the
    entries are those of the non-blank fragments whose chunk file could be
    written, and the effects are what the writes of all of them left. *)
Lemma h1_loop_any file_prefix h1_sections :
  forall h1_idx st,
  1 <= h1_idx ->
  (forall j, h1_idx <= j -> Dict.get (chapter_id file_prefix j) (fst st) = None) ->
  let tried := List.filter (fun p : nat * string => nonblank (snd p))
                 (numbered h1_idx h1_sections) in
  let kept := List.filter (chapter_writable E file_prefix) tried in
  runs (h1_loop E file_prefix h1_idx h1_sections st)
    (fst st ++ map (chapter_entry file_prefix) kept,
     snd st + List.length kept)
    (chapter_attempts E file_prefix tried).
Proof.
  induction h1_sections as [|sec rest IH]; intros idx [d n] Hidx Hfresh;
    cbv zeta in *; simpl.
  - rewrite app_nil_r, Nat.add_0_r. apply runs_ret.
  - change (Py.nonempty (Py.strip sec)) with (nonblank sec).
    destruct (nonblank sec) eqn:Hnb; simpl.
    + destruct (Nat.eqb_spec idx 0) as [?|_]; [lia|].
      rewrite chapter_attempts_cons.
      destruct (chapter_writable E file_prefix (idx, sec)) eqn:Hcw;
        unfold chapter_writable in Hcw; simpl in Hcw;
        destruct (write_error E (chunk_path (chapter_id file_prefix idx))
                    (chapter_body sec))
          as [fault|] eqn:Hw; try discriminate.
      * simpl.
        eapply runs_bind.
        -- unfold chapter_events, write_events. simpl. rewrite Hw.
           now apply store_chunk_ok.
        -- simpl. rewrite set_fresh by (apply (Hfresh idx); lia).
           specialize (IH (S idx)
             (d ++ [(chapter_id file_prefix idx,
                     mkEntry (heading_of sec)
                       (chunk_path (chapter_id file_prefix idx)))], S n)).
           simpl in IH. rewrite <- app_assoc in IH. simpl in IH.
           match goal with |- runs _ (_, n + S ?k) _ =>
             replace (n + S k) with (S n + k) by lia end.
           apply IH; [lia|].
           intros j Hj. rewrite get_app_fresh by (apply (Hfresh j); lia).
           simpl. destruct (String.eqb_spec (chapter_id file_prefix j)
                              (chapter_id file_prefix idx)) as [Heq|_];
             [|reflexivity].
           apply chapter_id_inj in Heq. lia.
      * eapply runs_bind.
        -- now apply store_chunk_failed with fault.
        -- apply (IH (S idx) (d, n)); [lia|].
           intros j Hj. apply Hfresh. lia.
    + apply (IH (S idx) (d, n)); [lia|].
      intros j Hj. apply Hfresh. lia.
Qed.

Lemma h1_loop_first file_prefix (first : string) (rest : list string)
    (st : Directory * nat) (w : World) :
  h1_loop E file_prefix 0 (first :: rest) st w
  = h1_loop E file_prefix 1 rest st w.
Proof. simpl. now destruct (negb (Py.nonempty (Py.strip first))). Qed.

(** Writing a group keeps the state of the fallback loop in order. *)
Lemma store_group_grouped file_prefix (st : Directory * nat)
    (desc content : string) :
  grouped file_prefix st ->
  exists st' evs,
    runs (store_chunk E
            (group_id file_prefix (List.length (fst st) + 1)) desc content st)
      st' evs
    /\ grouped file_prefix st'.
Proof.
  intros [Hkeys Hcount]. destruct st as [d n]. cbn [fst snd] in *.
  destruct (write_error E
              (chunk_path (group_id file_prefix (List.length d + 1)))
              (Py.strip content))
    as [fault|] eqn:Hw.
  - eexists (d, n), _. split; [now apply store_chunk_failed with fault|].
    split; assumption.
  - eexists _, _. split; [now apply store_chunk_ok|].
    unfold grouped. cbn [fst snd]. rewrite set_fresh.
    + split.
      * rewrite keys_app, length_app, Hkeys. cbn [List.length Dict.keys map fst].
        replace (List.length d + 1) with (S (List.length d)) by lia.
        rewrite seq_S, map_app. reflexivity.
      * rewrite length_app. cbn [List.length]. lia.
    + apply get_none_keys. rewrite Hkeys. intros Hin.
      apply in_map_iff in Hin. destruct Hin as (j & Heq & Hj).
      apply group_id_inj in Heq. apply in_seq in Hj. lia.
Qed.

Lemma h2_loop_grouped file_prefix sections :
  forall cur st,
  grouped file_prefix st ->
  exists cur' st' evs,
    runs (h2_loop E file_prefix sections (cur, st)) (cur', st') evs
    /\ grouped file_prefix st'.
Proof.
  induction sections as [|sec rest IH]; intros [cs ts] st Hg; simpl.
  - exists (cs, ts), st, []. split; [apply runs_ret | exact Hg].
  - destruct (negb (Py.nonempty (Py.strip sec))); [now apply IH|].
    match goal with |- context [if ?c then _ else _] => destruct c end;
      [|now apply IH].
    destruct (store_group_grouped file_prefix st
                (full_description (ts ++ [heading_of sec]))
                (Py.join blank_line
                   (cs ++ ["## " +:+ heading_of sec +:+ Py.nl
                           +:+ content_of sec])) Hg)
      as (st1 & evs1 & Hr1 & Hg1).
    destruct (IH ([], []) st1 Hg1) as (cur2 & st2 & evs2 & Hr2 & Hg2).
    exists cur2, st2, (evs2 ++ evs1). split; [|exact Hg2].
    now apply runs_bind with st1.
Qed.

Lemma h2_grouping_grouped file_prefix content st :
  grouped file_prefix st ->
  exists st' evs,
    runs (h2_grouping E file_prefix content st) st' evs
    /\ grouped file_prefix st'.
Proof.
  intros Hg. unfold h2_grouping.
  destruct (h2_loop_grouped file_prefix (tl (Py.re_split "## " content))
              ([], []) st Hg) as ([cs ts] & st1 & evs1 & Hr1 & Hg1).
  destruct cs as [|c cs].
  - exists st1, ([] ++ evs1). split; [|exact Hg1].
    eapply runs_bind; [exact Hr1|]. apply runs_ret.
  - destruct (store_group_grouped file_prefix st1 (rest_description ts)
                (Py.join blank_line (c :: cs)) Hg1)
      as (st2 & evs2 & Hr2 & Hg2).
    exists st2, (evs2 ++ evs1). split; [|exact Hg2].
    eapply runs_bind; [exact Hr1|]. exact Hr2.
Qed.

(** What the chunker does with a document that can be read: the chapters
    that could be written, or the fallback when there is none; in both
    cases after the attempts to write every chapter. *)
Lemma parse_text file_path content (w : World) :
  files w !! file_path = Some (Text content) ->
  let file_prefix := file_prefix_of file_path in
  let good := List.filter (chapter_writable E file_prefix)
                (chapters content) in
  let w1 := effects (chapter_attempts E file_prefix (chapters content))
              (effect (EvRead file_path) w) in
  parse_markdown_document E file_path w
  = match good with
    | [] => h2_grouping E file_prefix content ([], 0) w1
    | _ :: _ =>
        (Val (map (chapter_entry file_prefix) good, List.length good), w1)
    end.
Proof.
  intros Hdoc pre good w1.
  destruct (re_split_bol_cons "# " content true 0 []) as (f0 & rest & Hsplit).
  fold (Py.re_split "# " content) in Hsplit.
  assert (Hchap : chapters content
                  = List.filter (fun p : nat * string => nonblank (snd p))
                      (numbered 1 rest))
    by (unfold chapters; now rewrite Hsplit).
  pose proof (h1_loop_any pre rest 1 ([], 0) (le_n 1) (fun j _ => eq_refl))
    as Hloop.
  cbv zeta in Hloop. simpl fst in Hloop. simpl snd in Hloop.
  rewrite <- Hchap in Hloop. fold good in Hloop. simpl app in Hloop.
  simpl Nat.add in Hloop.
  unfold parse_markdown_document, bind, try_except, read_text.
  rewrite Hdoc. unfold ret. fold pre. rewrite Hsplit.
  rewrite h1_loop_first, Hloop. simpl snd. fold w1.
  destruct good; reflexivity.
Qed.

(** The chunker never raises, counts the entries it returns, and gives
    them ids of its own making. *)
Lemma parse_shape file_path (w : World) :
  exists entries w',
    parse_markdown_document E file_path w
    = (Val (entries, List.length entries), w')
    /\ chunker_ids entries.
Proof.
  destruct (files w !! file_path) as [[content|msg]|] eqn:Hdoc.
  - rewrite (parse_text file_path content w Hdoc). cbv zeta.
    set (pre := file_prefix_of file_path).
    destruct (List.filter (chapter_writable E pre) (chapters content))
      as [|p good] eqn:Hgood.
    + destruct (h2_grouping_grouped pre content ([], 0))
        as ([d n] & evs & Hr & Hkeys & Hcount); [split; reflexivity|].
      simpl in Hkeys, Hcount. subst n.
      eexists d, _. split; [apply Hr|].
      intros id Hin. rewrite Hkeys in Hin. apply in_map_iff in Hin.
      destruct Hin as (j & <- & _). exists pre, j. now right.
    + eexists _, _. split.
      * now rewrite length_map.
      * intros id Hin. unfold Dict.keys in Hin. rewrite map_map in Hin.
        apply in_map_iff in Hin. destruct Hin as ([j f] & <- & _).
        exists pre, j. now left.
  - exists [], (effect (EvRead file_path) w). split.
    + unfold parse_markdown_document, bind, try_except, read_text.
      now rewrite Hdoc.
    + intros id [].
  - exists [], (effect (EvRead file_path) w). split.
    + unfold parse_markdown_document, bind, try_except, read_text.
      now rewrite Hdoc.
    + intros id [].
Qed.

End chunker_any.

(** X1. The chunker never raises, and the count it returns is the number
    of entries it returns. *)
Theorem chunk_count_is_number_of_entries (E : Env) (file_path : string)
    (w : World) :
  exists entries w',
    parse_markdown_document E file_path w
    = (Val (entries, List.length entries), w').
Proof.
  destruct (parse_shape E file_path w) as (entries & w' & Hp & _). eauto.
Qed.

Lemma chapters_functional (content : string) (i : nat) (s s' : string) :
  In (i, s) (chapters content) -> In (i, s') (chapters content) -> s = s'.
Proof.
  unfold chapters. intros H H'.
  apply filter_In in H, H'. destruct H as [H _], H' as [H' _].
  exact (numbered_functional _ _ _ _ _ H H').
Qed.

Lemma write_events_path (E : Env) (path data path' data' : string) :
  In (EvWrite path' data') (write_events E path data) -> path' = path.
Proof.
  unfold write_events.
  destruct (write_error E path data) as [[msg|kept msg]|]; simpl;
    intros [Heq|[]] || intros []; now apply EvWrite_inj in Heq.
Qed.

(** Among the attempts to write the chapters of a document, those on the
    chunk file of one chapter are the effects of the write of that
    chapter. *)
Lemma chapter_attempts_at (E : Env) (file_prefix content : string)
    (i : nat) (section data : string) :
  In (i, section) (chapters content) ->
  In (EvWrite (chunk_path (chapter_id file_prefix i)) data)
    (chapter_attempts E file_prefix (chapters content))
  <-> In (EvWrite (chunk_path (chapter_id file_prefix i)) data)
        (chapter_events E file_prefix (i, section)).
Proof.
  intros Hin. unfold chapter_attempts. rewrite <- in_rev, in_flat_map.
  split.
  - intros ([j sec'] & Hj & Hev).
    pose proof (write_events_path _ _ _ _ _ Hev) as Hpath. simpl in Hpath.
    apply chunk_path_inj, chapter_id_inj in Hpath. subst j.
    now rewrite (chapters_functional content i section sec' Hin Hj).
  - intros Hev. now exists (i, section).
Qed.

(** What the chunk file of a chapter holds after the attempts to write the
    chapters: its body, what went through of it, or what it held. *)
Lemma chapter_file_after (E : Env) (file_prefix content : string)
    (i : nat) (section : string) (w : World) :
  In (i, section) (chapters content) ->
  let path := chunk_path (chapter_id file_prefix i) in
  files (effects (chapter_attempts E file_prefix (chapters content)) w)
    !! path
  = match write_error E path (chapter_body section) with
    | None => Some (Text (chapter_body section))
    | Some (OpenFails _) => files w !! path
    | Some (WriteFails kept _) =>
        Some (Text (String.substring 0 kept (chapter_body section)))
    end.
Proof.
  intros Hin path.
  pose proof (fun data => chapter_attempts_at E file_prefix content i
                            section data Hin) as Hat.
  fold path in Hat. unfold chapter_events, write_events in Hat.
  simpl fst in Hat. simpl snd in Hat. fold path in Hat.
  destruct (write_error E path (chapter_body section))
    as [[msg|kept msg]|] eqn:Hw.
  - apply files_effects_untouched. intros data Hev.
    now apply Hat in Hev.
  - apply files_effects_unique.
    + apply Hat. now left.
    + intros data' Hev. apply Hat in Hev. destruct Hev as [Heq|[]].
      now apply EvWrite_inj in Heq.
  - apply files_effects_unique.
    + apply Hat. now left.
    + intros data' Hev. apply Hat in Hev. destruct Hev as [Heq|[]].
      now apply EvWrite_inj in Heq.
Qed.

(** X2. A write that fails costs the chunk it was for and no other: when
    the document has chapters whose chunk file can be written, the chunker
    returns the entries of exactly those chapters, with their positions as
    ids, and their chunk files hold their bodies.  The chunk file of a
    chapter whose write failed is as it was when it could not be opened,
    and holds what went through of the body when the writing failed after
    the file was opened. *)
Theorem failed_chunk_writes_are_skipped (E : Env)
    (file_path content : string) (w : World) :
  files w !! file_path = Some (Text content) ->
  let file_prefix := file_prefix_of file_path in
  let good := List.filter (chapter_writable E file_prefix)
                (chapters content) in
  good <> [] ->
  exists w',
    parse_markdown_document E file_path w
    = (Val (map (chapter_entry file_prefix) good, List.length good), w')
    /\ (forall i section, In (i, section) good ->
          files w' !! chunk_path (chapter_id file_prefix i)
          = Some (Text (chapter_body section)))
    /\ (forall i section, In (i, section) (chapters content) ->
          chapter_writable E file_prefix (i, section) = false ->
          files w' !! chunk_path (chapter_id file_prefix i)
          = match write_error E (chunk_path (chapter_id file_prefix i))
                    (chapter_body section) with
            | Some (WriteFails kept _) =>
                Some (Text (String.substring 0 kept (chapter_body section)))
            | _ => files w !! chunk_path (chapter_id file_prefix i)
            end).
Proof.
  intros Hdoc pre good Hne.
  pose proof (parse_text E file_path content w Hdoc) as Hp.
  cbv zeta in Hp. fold pre in Hp. fold good in Hp.
  exists (effects (chapter_attempts E pre (chapters content))
            (effect (EvRead file_path) w)).
  split; [|split].
  - rewrite Hp. destruct good; [contradiction | reflexivity].
  - intros i section Hin. unfold good in Hin. apply filter_In in Hin.
    destruct Hin as [Hin Hok].
    rewrite (chapter_file_after E pre content i section _ Hin).
    unfold chapter_writable in Hok. simpl in Hok.
    now destruct (write_error E _ (chapter_body section)).
  - intros i section Hin Hbad.
    rewrite (chapter_file_after E pre content i section _ Hin).
    unfold chapter_writable in Hbad. simpl in Hbad.
    destruct (write_error E _ (chapter_body section)) as [[msg|kept msg]|];
      [reflexivity | reflexivity | discriminate].
Qed.

Lemma failed_chunk_writes_are_skipped_witness :
  let E := Extra.cutting ["chunks/doc_chapter_1.txt"] 5 in
  let w := Scenario.world Scenario.two_chapters in
  exists w',
    parse_markdown_document E "doc.md" w
    = (Val ([("doc_chapter_2", mkEntry "Specs" "chunks/doc_chapter_2.txt")],
            1), w')
    /\ files w' !! "chunks/doc_chapter_2.txt"
       = Some (Text (Py.join Py.nl ["# Specs"; "Mass: 4 kg."]))
    /\ files w' !! "chunks/doc_chapter_1.txt" = Some (Text "# Ove").
Proof.
  intros E w.
  destruct (failed_chunk_writes_are_skipped E "doc.md" Scenario.two_chapters w)
    as (w' & Hp & Hgood & Hbad).
  - vm_compute. reflexivity.
  - vm_compute. discriminate.
  - exists w'. split; [exact Hp|]. split.
    + apply (Hgood 2 (Py.join Py.nl ["Specs"; "Mass: 4 kg."; ""])).
      vm_compute. now left.
    + apply (Hbad 1 (Py.join Py.nl ["Overview"; "The device."; "## Parts";
                                    "Two coils."; ""])).
      * vm_compute. now left.
      * vm_compute. reflexivity.
Defined.

(** X3. When the document has top-level headings but the chunk file of
    none of its chapters can be written, the chunker goes on as if it had no
    top-level heading: after the attempts to write the chapters, its result
    is that of the grouping of the second-level sections. *)
Theorem fallback_when_no_chapter_is_written (E : Env)
    (file_path content : string) (w : World) :
  files w !! file_path = Some (Text content) ->
  Forall (fun p => chapter_writable E (file_prefix_of file_path) p = false)
    (chapters content) ->
  parse_markdown_document E file_path w
  = h2_grouping E (file_prefix_of file_path) content ([], 0)
      (effects
         (chapter_attempts E (file_prefix_of file_path) (chapters content))
         (effect (EvRead file_path) w)).
Proof.
  intros Hdoc Hbad.
  rewrite (parse_text E file_path content w Hdoc). cbv zeta.
  destruct (List.filter (chapter_writable E (file_prefix_of file_path))
              (chapters content)) as [|p good] eqn:Hgood; [reflexivity|].
  assert (Hin : In p (List.filter
                        (chapter_writable E (file_prefix_of file_path))
                        (chapters content)))
    by (rewrite Hgood; now left).
  apply filter_In in Hin. destruct Hin as [Hin Hw].
  rewrite List.Forall_forall in Hbad. rewrite (Hbad p Hin) in Hw.
  discriminate.
Qed.

Lemma fallback_when_no_chapter_is_written_witness :
  let E := Extra.failing ["chunks/doc_chapter_1.txt";
                          "chunks/doc_chapter_2.txt"] in
  let w := Scenario.world Extra.mixed in
  fst (parse_markdown_document E "doc.md" w)
  = Val ([("doc_group_1", mkEntry "Sub" "chunks/doc_group_1.txt")], 1).
Proof.
  intros E w.
  refine (eq_trans (f_equal fst
    (fallback_when_no_chapter_is_written E "doc.md" Extra.mixed w _ _)) _).
  - vm_compute. reflexivity.
  - vm_compute. repeat constructor.
  - vm_compute. reflexivity.
Defined.

(** X4. The chunker writes chunk files only: a path that is not the chunk
    file of an id holds after the run what it held before; so does the
    directory file. *)
Theorem chunker_writes_only_chunk_files (E : Env) (file_path : string)
    (w : World) (path : string) :
  (forall id, path <> chunk_path id) ->
  files (snd (parse_markdown_document E file_path w)) !! path
  = files w !! path.
Proof.
  intros Hother.
  destruct (parse_run E file_path (files w !! file_path))
    as (st & evs & Hst & Hrun).
  rewrite (Hrun w eq_refl). simpl snd.
  apply files_effects_untouched.
  intros data Hin. apply in_app_or in Hin. destruct Hin as [Hin|[Hin|[]]].
  - destruct (stored_events _ _ _ _ Hst _ Hin) as (id & body & Heq).
    apply EvWrite_inj in Heq. destruct Heq as [Heq _].
    now apply (Hother id).
  - discriminate.
Qed.

Lemma chunker_writes_only_chunk_files_witness :
  let w := Scenario.world Scenario.two_chapters in
  files (snd (parse_markdown_document Scenario.plain "doc.md" w))
    !! DIRECTORY_FILE
  = files w !! DIRECTORY_FILE.
Proof.
  intros w.
  apply (chunker_writes_only_chunk_files Scenario.plain "doc.md" w
           DIRECTORY_FILE).
  intros id H. vm_compute in H. discriminate.
Defined.

(** X5. A document that does not exist or cannot be read is not loaded:
    the chunker returns no entry, [load_document] returns [False], and the
    attempt to read the document is the only effect. *)
Theorem unreadable_document_is_not_loaded (E : Env) (file_path : string)
    (w : World) :
  files w !! file_path = None
  \/ (exists msg, files w !! file_path = Some (Unreadable msg)) ->
  parse_markdown_document E file_path w
  = (Val ([], 0), effect (EvRead file_path) w)
  /\ load_document E file_path w = (Val false, effect (EvRead file_path) w).
Proof.
  intros Hdoc.
  assert (Hp : parse_markdown_document E file_path w
               = (Val ([], 0), effect (EvRead file_path) w)).
  { unfold parse_markdown_document, bind, try_except, read_text.
    destruct Hdoc as [->|[msg ->]]; reflexivity. }
  split; [exact Hp|].
  unfold load_document, bind. now rewrite Hp.
Qed.

Lemma unreadable_document_is_not_loaded_witness :
  let w := Scenario.world Scenario.two_chapters in
  load_document Scenario.plain "missing.md" w
  = (Val false, effect (EvRead "missing.md") w).
Proof.
  intros w.
  apply (proj2 (unreadable_document_is_not_loaded Scenario.plain
                  "missing.md" w (or_introl eq_refl))).
Defined.

(** X6. A document without a line that starts with a top-level or a
    second-level heading marker, an empty document included, gives no chunk
    whatever the environment: [load_document] returns [False] and writes
    nothing. *)
Theorem document_without_headings (E : Env) (file_path content : string)
    (w : World) :
  files w !! file_path = Some (Text content) ->
  tl (Py.re_split "# " content) = [] ->
  tl (Py.re_split "## " content) = [] ->
  load_document E file_path w = (Val false, effect (EvRead file_path) w).
Proof.
  intros Hdoc Hh1 Hh2.
  assert (Hp : parse_markdown_document E file_path w
               = (Val ([], 0), effect (EvRead file_path) w)).
  { rewrite (parse_text E file_path content w Hdoc). cbv zeta.
    unfold chapters. rewrite Hh1. simpl.
    unfold h2_grouping. rewrite Hh2. reflexivity. }
  unfold load_document, bind. now rewrite Hp.
Qed.

Lemma document_without_headings_witness :
  let w := Scenario.world EmptyString in
  load_document Scenario.plain "doc.md" w
  = (Val false, effect (EvRead "doc.md") w).
Proof.
  intros w.
  apply (document_without_headings Scenario.plain "doc.md" EmptyString w);
    reflexivity.
Defined.

(* ===================================================================== *)
(** * Further properties: the directory store                              *)
(* ===================================================================== *)

Lemma load_directory_text (E : Env) (w : World) (text : string)
    (directory : Directory) :
  files w !! DIRECTORY_FILE = Some (Text text) ->
  directory_loads E text = Some directory ->
  load_directory E w = (Val directory, effect (EvRead DIRECTORY_FILE) w).
Proof.
  intros Hf Hdec.
  unfold load_directory, bind, path_exists, try_except, read_text.
  rewrite bool_decide_eq_true_2 by (rewrite Hf; eauto).
  cbn [negb]. rewrite Hf. unfold ret. now rewrite Hdec.
Qed.

Lemma saved_directory_round_trip (E : Env) (directory : Directory)
    (w : World) :
  write_error E DIRECTORY_FILE (directory_dumps E directory) = None ->
  directory_loads E (directory_dumps E directory) = Some directory ->
  let w1 := snd (save_directory E directory w) in
  fst (save_directory E directory w) = Val tt
  /\ load_directory E w1
     = (Val directory, effect (EvRead DIRECTORY_FILE) w1).
Proof.
  intros Hw Hcodec.
  assert (Hsave : save_directory E directory w
                  = (Val tt,
                     effect (EvWrite DIRECTORY_FILE
                               (directory_dumps E directory)) w)).
  { unfold save_directory, try_except, write_text. now rewrite Hw. }
  rewrite Hsave. cbn [fst snd]. split; [reflexivity|].
  apply load_directory_text with (directory_dumps E directory);
    [|exact Hcodec].
  apply lookup_insert_eq.
Qed.

(** X7. [save_directory] never raises.  When the directory file cannot be
    opened for writing nothing changes.  When the writing fails once the
    file is open, the directory file is left with what went through of the
    new text: what it held is lost.  When the write succeeds and the codec
    gives the directory back from its text, [load_directory] returns
    afterwards the directory that was saved. *)
Theorem saved_directory_is_loaded_back (E : Env) (directory : Directory)
    (w : World) :
  fst (save_directory E directory w) = Val tt
  /\ (forall msg,
        write_error E DIRECTORY_FILE (directory_dumps E directory)
        = Some (OpenFails msg) ->
        save_directory E directory w = (Val tt, w))
  /\ (forall kept msg,
        write_error E DIRECTORY_FILE (directory_dumps E directory)
        = Some (WriteFails kept msg) ->
        save_directory E directory w
        = (Val tt,
           effect (EvWrite DIRECTORY_FILE
                     (String.substring 0 kept (directory_dumps E directory)))
             w)
        /\ files (snd (save_directory E directory w)) !! DIRECTORY_FILE
           = Some (Text (String.substring 0 kept
                           (directory_dumps E directory))))
  /\ (write_error E DIRECTORY_FILE (directory_dumps E directory) = None ->
      directory_loads E (directory_dumps E directory) = Some directory ->
      let w1 := snd (save_directory E directory w) in
      load_directory E w1
      = (Val directory, effect (EvRead DIRECTORY_FILE) w1)).
Proof.
  split; [|split; [|split]].
  - unfold save_directory, try_except, write_text.
    now destruct (write_error E DIRECTORY_FILE _) as [[msg|kept msg]|].
  - intros msg Hw. unfold save_directory, try_except, write_text.
    now rewrite Hw.
  - intros kept msg Hw. unfold save_directory, try_except, write_text.
    rewrite Hw. split; [reflexivity|]. cbn [snd]. apply lookup_insert_eq.
  - intros Hw Hcodec. now apply saved_directory_round_trip.
Qed.

Lemma saved_directory_is_loaded_back_witness :
  let w := Scenario.world Scenario.two_chapters in
  let w1 := snd (save_directory Extra.storing Scenario.directory w) in
  load_directory Extra.storing w1
  = (Val Scenario.directory, effect (EvRead DIRECTORY_FILE) w1).
Proof.
  intros w w1.
  apply (proj2 (proj2 (proj2 (saved_directory_is_loaded_back Extra.storing
                                Scenario.directory w)))); reflexivity.
Defined.

(** X8. [load_directory] gives the empty directory, and raises nothing,
    when the directory file does not exist or does not decode; but a
    directory file that exists and cannot be opened makes it raise.  It
    never writes. *)
Theorem load_directory_defaults (E : Env) (w : World) :
  (files w !! DIRECTORY_FILE = None -> load_directory E w = (Val [], w))
  /\ (forall text,
        files w !! DIRECTORY_FILE = Some (Text text) ->
        directory_loads E text = None ->
        load_directory E w = (Val [], effect (EvRead DIRECTORY_FILE) w))
  /\ (forall msg,
        files w !! DIRECTORY_FILE = Some (Unreadable msg) ->
        load_directory E w
        = (Exc (OSError msg), effect (EvRead DIRECTORY_FILE) w)).
Proof.
  unfold load_directory, bind, path_exists, try_except, read_text.
  split; [|split].
  - intros Hf. rewrite bool_decide_eq_false_2; [reflexivity|].
    rewrite Hf. intros [x Hx]. discriminate.
  - intros text Hf Hdec.
    rewrite bool_decide_eq_true_2 by (rewrite Hf; eauto).
    cbn [negb]. rewrite Hf. unfold ret. now rewrite Hdec.
  - intros msg Hf.
    rewrite bool_decide_eq_true_2 by (rewrite Hf; eauto).
    cbn [negb]. now rewrite Hf.
Qed.

Lemma load_directory_defaults_witness :
  let w := {| files := {[ DIRECTORY_FILE := Unreadable "[Errno 13] Permission denied: 'directory.json'" ]};
              log := [] |} in
  load_directory Scenario.plain w
  = (Exc (OSError "[Errno 13] Permission denied: 'directory.json'"),
     effect (EvRead DIRECTORY_FILE) w).
Proof.
  intros w.
  apply (proj2 (proj2 (load_directory_defaults Scenario.plain w))).
  reflexivity.
Defined.

(** X9. After [load_document] has loaded a document with chunks, when the
    directory file can be written and the codec gives the merged directory
    back, [load_directory] returns the directory that was there merged with
    the new entries, and every new entry is in it as the chunker made it. *)
Theorem loaded_document_is_in_the_directory (E : Env) (file_path : string)
    (w w1 w2 : World) (new_entries old : Directory) (chunk_count : nat) :
  parse_markdown_document E file_path w
  = (Val (new_entries, chunk_count), w1) ->
  chunk_count <> 0 ->
  load_directory E w1 = (Val old, w2) ->
  write_error E DIRECTORY_FILE
    (directory_dumps E (Dict.update old new_entries)) = None ->
  directory_loads E (directory_dumps E (Dict.update old new_entries))
  = Some (Dict.update old new_entries) ->
  let after := load_document E file_path w in
  fst after = Val true
  /\ fst (load_directory E (snd after)) = Val (Dict.update old new_entries)
  /\ forall id e, Dict.get id new_entries = Some e ->
       Dict.get id (Dict.update old new_entries) = Some e.
Proof.
  intros Hp Hc Hl Hw Hcodec after.
  assert (Hafter : after
                   = (Val true,
                      snd (save_directory E (Dict.update old new_entries) w2)))
    by (apply load_document_merges with w1 chunk_count; assumption).
  rewrite Hafter. simpl fst. simpl snd.
  destruct (saved_directory_round_trip E (Dict.update old new_entries) w2
              Hw Hcodec) as [_ Hload].
  split; [reflexivity|]. split; [now rewrite Hload|].
  intros id e Hget.
  destruct (parse_entries_chunked E file_path w w1 new_entries chunk_count Hp)
    as [Hwf _].
  rewrite get_update by exact Hwf. now rewrite Hget.
Qed.

Lemma loaded_document_is_in_the_directory_witness :
  let w := Scenario.world Scenario.two_chapters in
  fst (load_directory Extra.storing
         (snd (load_document Extra.storing "doc.md" w)))
  = Val Scenario.directory.
Proof.
  intros w.
  refine (proj1 (proj2
    (loaded_document_is_in_the_directory Extra.storing "doc.md" w
       (snd (parse_markdown_document Extra.storing "doc.md" w))
       (snd (parse_markdown_document Extra.storing "doc.md" w))
       Scenario.directory [] 2 _ _ _ _ _))).
  - vm_compute. reflexivity.
  - discriminate.
  - vm_compute. reflexivity.
  - reflexivity.
  - vm_compute. reflexivity.
Defined.

Lemma get_summary (directory : Directory) (id : string) (e : Entry) :
  Dict.get id directory = Some e ->
  Dict.get id
    (map (fun kv : string * Entry =>
            (fst kv, JObj [("description", JStr (description (snd kv)))]))
       directory)
  = Some (JObj [("description", JStr (description e))]).
Proof.
  induction directory as [|[k0 e0] d IH]; simpl; [discriminate|].
  destruct (String.eqb id k0); [now intros [= ->] | exact IH].
Qed.

(** X10. The summary that Agent A is given lists the ids of the directory
    in its order, each with its description and nothing else: it, and so
    the prompt of Agent A, is the same for two directories that differ in
    their chunk files only. *)
Theorem summary_shows_descriptions_only (E : Env) (user_query : string)
    (d1 d2 : Directory) :
  map (fun kv : string * Entry => (fst kv, description (snd kv))) d1
  = map (fun kv : string * Entry => (fst kv, description (snd kv))) d2 ->
  directory_summary_value d1 = directory_summary_value d2
  /\ create_agent_a_prompt user_query (create_directory_summary E d1)
     = create_agent_a_prompt user_query (create_directory_summary E d2)
  /\ exists kv, directory_summary_value d1 = JObj kv
       /\ Dict.keys kv = Dict.keys d1
       /\ forall id e, Dict.get id d1 = Some e ->
            Dict.get id kv
            = Some (JObj [("description", JStr (description e))]).
Proof.
  intros Hsame.
  assert (Hval : directory_summary_value d1 = directory_summary_value d2).
  { unfold directory_summary_value. f_equal.
    apply (f_equal (map (fun p : string * string =>
                           (fst p, JObj [("description", JStr (snd p))]))))
      in Hsame.
    rewrite !map_map in Hsame. exact Hsame. }
  split; [exact Hval|]. split.
  - unfold create_directory_summary. now rewrite Hval.
  - eexists. split; [reflexivity|]. split.
    + unfold Dict.keys. now rewrite map_map.
    + intros id e. apply get_summary.
Qed.

Lemma summary_shows_descriptions_only_witness :
  let moved := [("doc_chapter_1", mkEntry "Overview" "archive/one.txt");
                ("doc_chapter_2", mkEntry "Specs" "archive/two.txt")] in
  create_agent_a_prompt "What is the mass?"
    (create_directory_summary Scenario.plain Scenario.directory)
  = create_agent_a_prompt "What is the mass?"
      (create_directory_summary Scenario.plain moved).
Proof.
  intros moved.
  apply (proj1 (proj2 (summary_shows_descriptions_only Scenario.plain
                         "What is the mass?" Scenario.directory moved
                         eq_refl))).
Defined.

Lemma keys_set_spec {V} (k : string) (v : V) (d : list (string * V)) :
  forall k', In k' (Dict.keys (Dict.set k v d))
             <-> k' = k \/ In k' (Dict.keys d).
Proof. apply keys_set_in. Qed.

Lemma chunker_ids_update (d incoming : Directory) :
  chunker_ids d -> chunker_ids incoming ->
  chunker_ids (Dict.update d incoming).
Proof.
  unfold Dict.update. revert d.
  induction incoming as [|[k v] inc IH]; simpl; intros d Hd Hi; [exact Hd|].
  apply IH.
  - intros id Hin. apply keys_set_spec in Hin. destruct Hin as [->|Hin].
    + apply Hi. now left.
    + now apply Hd.
  - intros id Hin. apply Hi. now right.
Qed.

Section build_facts.

Variable E : Env.

(** The merge loop never raises and keeps a directory of the chunker a
    directory of the chunker. *)
Lemma build_loop_keeps (knowledge_files : list string) :
  forall (st : Directory * nat) (w : World),
  Dict.wf (fst st) -> chunked (fst st) ->
  exists st' w',
    build_loop E knowledge_files st w = (Val st', w')
    /\ Dict.wf (fst st') /\ chunked (fst st')
    /\ (chunker_ids (fst st) -> chunker_ids (fst st')).
Proof.
  induction knowledge_files as [|file_path rest IH]; intros st w Hwf Hch.
  - exists st, w. repeat split; try assumption. auto.
  - cbn [build_loop]. unfold bind at 1. unfold path_exists.
    destruct (bool_decide (is_Some (files w !! file_path))); cbn [negb];
      [|now apply IH].
    destruct (parse_shape E file_path w) as (entries & w1 & Hp & Hnew).
    unfold bind. rewrite Hp.
    destruct (0 <? List.length entries)%nat; [|now apply IH].
    destruct (parse_entries_chunked E file_path w w1 entries _ Hp)
      as [Hwf' Hch'].
    destruct (IH (Dict.update (fst st) entries,
                  snd st + List.length entries) w1)
      as (st' & w' & Hb & Hwf2 & Hch2 & Hids2); cbn [fst].
    + now apply wf_update.
    + now apply chunked_update.
    + exists st', w'. repeat split; try assumption.
      intros Hids. apply Hids2. cbn [fst].
      now apply chunker_ids_update.
Qed.

End build_facts.

(** X11. The merge loop of [build_knowledge_directory] never raises, and
    from a directory in which the ids are distinct and every entry is in the
    chunk file of its id (the empty one, for a start) it gives such a
    directory again: no two of its entries share a chunk file. *)
Theorem built_directory_is_well_formed (E : Env)
    (knowledge_files : list string) (st : Directory * nat) (w : World) :
  Dict.wf (fst st) -> chunked (fst st) ->
  exists st' w',
    build_loop E knowledge_files st w = (Val st', w')
    /\ Dict.wf (fst st') /\ chunked (fst st')
    /\ List.NoDup
         (map (fun kv : string * Entry => chunk_file (snd kv)) (fst st')).
Proof.
  intros Hwf Hch.
  destruct (build_loop_keeps E knowledge_files st w Hwf Hch)
    as (st' & w' & Hb & Hwf' & Hch' & _).
  exists st', w'. repeat split; try assumption.
  now apply chunked_distinct_files.
Qed.

Lemma built_directory_is_well_formed_witness :
  exists st' w',
    build_loop Scenario.plain ["doc.md"; "missing.md"] ([], 0)
      (Scenario.world Scenario.two_chapters)
    = (Val st', w')
    /\ Dict.wf (fst st') /\ chunked (fst st')
    /\ List.NoDup
         (map (fun kv : string * Entry => chunk_file (snd kv)) (fst st')).
Proof.
  apply (built_directory_is_well_formed Scenario.plain
           ["doc.md"; "missing.md"] ([], 0)
           (Scenario.world Scenario.two_chapters)).
  - constructor.
  - intros id e [].
Defined.

(* ===================================================================== *)
(** * Further properties: the agents and the router                        *)
(* ===================================================================== *)

Lemma files_effects_no_write (evs : list Event) (w : World) :
  existsb is_write evs = false -> files (effects evs w) = files w.
Proof.
  induction evs as [|ev evs IH]; simpl; [reflexivity|].
  destruct ev; simpl; try discriminate; exact IH.
Qed.

Lemma bounded_shape (synth rc gate : list Event) :
  agent_a_call synth -> reference_effects rc -> agent_a_call gate ->
  bounded 2 1 (synth ++ rc ++ gate).
Proof.
  intros Hs (reads & Hreads & Hrc) Hg.
  assert (Hr : existsb is_write reads = false
               /\ calls AGENT_A_MODEL reads = 0
               /\ calls AGENT_R_MODEL reads = 0).
  { clear Hrc. unfold calls.
    induction reads as [|ev reads IH]; simpl; [auto|].
    simpl in Hreads. apply andb_prop in Hreads. destruct Hreads as [Hev Hrest].
    destruct ev; try discriminate. simpl. now apply IH. }
  destruct Hr as (Hw & Ha & Hrr).
  assert (Hrcb : existsb is_write rc = false
                 /\ calls AGENT_A_MODEL rc = 0 /\ calls AGENT_R_MODEL rc <= 1).
  { destruct Hrc as [->|(prompt & ->)].
    - rewrite Hw, Ha, Hrr. auto.
    - unfold calls in *. simpl. rewrite Hw, Ha, Hrr. auto. }
  destruct Hrcb as (Hw' & Ha' & Hr').
  unfold bounded, calls in *.
  rewrite !existsb_app, !List.filter_app, !length_app, Hw', Ha'.
  destruct Hs as [->|(p1 & ->)], Hg as [->|(p2 & ->)]; simpl;
    repeat split; lia.
Qed.

Section agent_runs.

Variable E : Env.

(** [query_agent_a] never raises; it has no effect, or its one call. *)
Lemma query_agent_a_run (user_query : string) (directory : Directory)
    (w : World) :
  exists decision evs,
    query_agent_a E user_query directory w = (Val decision, effects evs w)
    /\ agent_a_call evs.
Proof.
  unfold query_agent_a, try_except, bind, initialize_openrouter_client.
  destruct (String.eqb (OPENROUTER_API_KEY E) API_KEY_PLACEHOLDER).
  - eexists _, []. split; [reflexivity | now left].
  - unfold ret, invoke.
    destruct (llm E (log w) AGENT_A_MODEL _) as [content|msg].
    + destruct (json_loads E (extract_json (Py.strip content)));
        eexists _, [_]; (split; [reflexivity | right; eauto]).
    + eexists _, [_]. split; [reflexivity | right; eauto].
Qed.

(** [query_agent_r_single] never raises; it reads the chunk file and calls
    the reference agent at most once. *)
Lemma query_agent_r_single_run (file sub_query : string) (w : World) :
  exists r evs,
    query_agent_r_single E file sub_query w = (Val r, effects evs w)
    /\ reference_effects evs.
Proof.
  unfold query_agent_r_single, try_except, bind, read_text,
    initialize_openrouter_client.
  destruct (files w !! file) as [[body|msg]|].
  - destruct (String.eqb (OPENROUTER_API_KEY E) API_KEY_PLACEHOLDER).
    + eexists _, [EvRead file]. split; [reflexivity|].
      exists [EvRead file]. split; [reflexivity | now left].
    + unfold ret, invoke.
      destruct (llm E _ AGENT_R_MODEL _);
        eexists _, [_; EvRead file]; (split; [reflexivity|]);
        exists [EvRead file]; (split; [reflexivity | right; eauto]).
  - eexists _, [EvRead file]. split; [reflexivity|].
    exists [EvRead file]. split; [reflexivity | now left].
  - eexists _, [EvRead file]. split; [reflexivity|].
    exists [EvRead file]. split; [reflexivity | now left].
Qed.

(** The loop that builds the combined context only reads. *)
Lemma combine_chunks_run (directory : Directory) (chunk_files : list string) :
  forall (i : nat) (combined : string) (w : World),
  exists res reads,
    combine_chunks i chunk_files directory combined w
    = (res, effects reads w)
    /\ forallb is_read reads = true.
Proof.
  induction chunk_files as [|file rest IH]; intros i combined w.
  - exists (Val combined), []. split; reflexivity.
  - cbn [combine_chunks]. unfold bind at 1. unfold try_except at 1.
    unfold bind at 1. unfold read_text.
    destruct (files w !! file) as [[body|msg]|].
    + destruct (IH (S i)
                  (combined +:+ section_header i
                                  (find_section_desc directory file)
                   +:+ (body +:+ Py.nl))
                  (effect (EvRead file) w)) as (res & reads & Hr & Hreads).
      exists res, (reads ++ [EvRead file]). split.
      * unfold ret. rewrite Hr. now rewrite effects_app.
      * rewrite forallb_app, Hreads. reflexivity.
    + exists (Exc (OSError msg)), [EvRead file]. split; reflexivity.
    + destruct (IH (S i) (combined +:+ load_error_marker file)
                  (effect (EvRead file) w)) as (res & reads & Hr & Hreads).
      exists res, (reads ++ [EvRead file]). split.
      * unfold ret. rewrite Hr. now rewrite effects_app.
      * rewrite forallb_app, Hreads. reflexivity.
Qed.

(** [query_agent_r_multiple] never raises; it reads chunk files and calls
    the reference agent at most once. *)
Lemma query_agent_r_multiple_any (chunk_files : list string)
    (sub_query : string) (directory : Directory) (w : World) :
  exists r evs,
    query_agent_r_multiple E chunk_files sub_query directory w
    = (Val r, effects evs w)
    /\ reference_effects evs.
Proof.
  unfold query_agent_r_multiple, try_except. unfold bind at 1.
  destruct (combine_chunks_run directory chunk_files 1 EmptyString w)
    as ([combined|e] & reads & Hr & Hreads); rewrite Hr.
  - unfold bind, initialize_openrouter_client.
    destruct (String.eqb (OPENROUTER_API_KEY E) API_KEY_PLACEHOLDER).
    + eexists _, reads. split; [reflexivity|].
      exists reads. split; [exact Hreads | now left].
    + unfold ret, invoke.
      destruct (llm E _ AGENT_R_MODEL _);
        eexists _, (_ :: reads); (split; [reflexivity|]);
        exists reads; (split; [exact Hreads | right; eauto]).
  - eexists _, reads. split; [reflexivity|].
    exists reads. split; [exact Hreads | now left].
Qed.

(** The dispatch: the effects of the reference helper, then at most the
    call for the synthesis. *)
Lemma dispatch_run (user_query : string) (directory : Directory)
    (scope_list : list json) (sub_query : json) (w : World) :
  exists res synth rc,
    dispatch E user_query directory scope_list sub_query w
    = (res, effects (synth ++ rc) w)
    /\ agent_a_call synth /\ reference_effects rc.
Proof.
  assert (Hnone : reference_effects []).
  { exists []. split; [reflexivity | now left]. }
  assert (Hsynth : forall r rc, reference_effects rc ->
            forall k : M string,
            k w = (Val r, effects rc w) ->
            exists res synth rc',
              (let* agent_r_response := k in
               let* final_response :=
                 synthesize_response E user_query agent_r_response in
               ret (JStr final_response)) w
              = (res, effects (synth ++ rc') w)
              /\ agent_a_call synth /\ reference_effects rc').
  { intros r rc Hrc k Hk.
    destruct (synthesize_response_run E user_query r (effects rc w))
      as (s & synth & Hs & Hsy).
    exists (Val (JStr s)), synth, rc. split; [|split; assumption].
    unfold bind. rewrite Hk, Hs. unfold ret. now rewrite effects_app. }
  unfold dispatch.
  destruct scope_list as [|s [|s' rest]]; cbv beta iota.
  - destruct (query_agent_r_multiple_any [] (PyVal.str sub_query) directory w)
      as (r & rc & Hr & Hrc).
    apply (Hsynth r rc Hrc). unfold bind, lift. simpl directory_items.
    exact Hr.
  - destruct (directory_item directory s) as [e|x].
    + destruct (query_agent_r_single_run (chunk_file e) (PyVal.str sub_query) w)
        as (r & rc & Hr & Hrc).
      apply (Hsynth r rc Hrc). unfold bind, lift. exact Hr.
    + exists (Exc x), [], []. split; [|split; [now left | exact Hnone]].
      reflexivity.
  - destruct (directory_items directory (s :: s' :: rest)) as [es|x].
    + destruct (query_agent_r_multiple_any (map chunk_file es)
                  (PyVal.str sub_query) directory w) as (r & rc & Hr & Hrc).
      apply (Hsynth r rc Hrc). unfold bind, lift. exact Hr.
    + exists (Exc x), [], []. split; [|split; [now left | exact Hnone]].
      reflexivity.
Qed.

(** The router has the effects of the dispatch, or none. *)
Lemma route_run (user_query : string) (directory : Directory)
    (decision : json) (w : World) :
  exists res synth rc,
    route E user_query directory decision w = (res, effects (synth ++ rc) w)
    /\ agent_a_call synth /\ reference_effects rc.
Proof.
  assert (Hstop : forall res : Res json,
            exists res' synth rc,
              (res, w) = (res', effects (synth ++ rc) w)
              /\ agent_a_call synth /\ reference_effects rc).
  { intros res. exists res, [], []. split; [reflexivity|].
    split; [now left|]. exists []. split; [reflexivity | now left]. }
  unfold route, bind, lift.
  destruct (py_in "error" decision) as [[|]|x]; try apply Hstop.
  destruct (py_get decision "needs_reference" (JBool false)) as [flag|x];
    try apply Hstop.
  destruct (negb (PyVal.truthy flag)); [apply Hstop|].
  destruct (py_get decision "scope" JNull) as [scope|x]; try apply Hstop.
  destruct (py_get decision "sub_query" JNull) as [sub|x]; try apply Hstop.
  destruct (py_get decision "reason" (JStr "")) as [reason|x];
    try apply Hstop.
  destruct scope as [| | |s|l|]; try apply Hstop.
  - destruct (missing_scopes_of directory [JStr s]) as [[|m ms]|x];
      try apply Hstop.
    apply dispatch_run.
  - destruct (missing_scopes_of directory l) as [[|m ms]|x];
      try apply Hstop.
    apply dispatch_run.
Qed.

End agent_runs.

Lemma process_user_query_run (E : Env) (user_query : string)
    (directory : Directory) (w : World) :
  exists res synth rc gate,
    process_user_query E user_query directory w
    = (res, effects (synth ++ rc ++ gate) w)
    /\ agent_a_call synth /\ reference_effects rc /\ agent_a_call gate.
Proof.
  destruct (query_agent_a_run E user_query directory w)
    as (decision & gate & Hq & Hgate).
  destruct (route_run E user_query directory decision (effects gate w))
    as (res & synth & rc & Hr & Hsynth & Hrc).
  exists res, synth, rc, gate.
  split; [|repeat split; assumption].
  unfold process_user_query, bind. rewrite Hq, Hr.
  now rewrite <- effects_app, <- app_assoc.
Qed.

(** X12. Whatever the models answer and whatever the files hold, a query
    writes no file, calls Agent A at most twice (for the routing and for the
    synthesis) and the reference agent at most once: its effects are at most
    the routing call, then reads of chunk files, then one call to the
    reference agent, then the call for the synthesis. *)
Theorem query_effects_are_bounded (E : Env) (user_query : string)
    (directory : Directory) (w : World) :
  exists res synth rc gate,
    process_user_query E user_query directory w
    = (res, effects (synth ++ rc ++ gate) w)
    /\ agent_a_call synth /\ reference_effects rc /\ agent_a_call gate
    /\ bounded 2 1 (synth ++ rc ++ gate)
    /\ files (effects (synth ++ rc ++ gate) w) = files w.
Proof.
  destruct (process_user_query_run E user_query directory w)
    as (res & synth & rc & gate & Hp & Hsynth & Hrc & Hgate).
  exists res, synth, rc, gate.
  pose proof (bounded_shape synth rc gate Hsynth Hrc Hgate) as Hb.
  repeat split; try assumption; try apply Hb.
  apply files_effects_no_write. apply Hb.
Qed.

(** X13. When Agent A gives no decision (no API key is configured, the call
    fails, or the reply does not decode) the query is answered with the
    error message, and nothing follows: without a key there is no effect at
    all, and otherwise the routing call is the only one. *)
Theorem gatekeeper_failure_is_terminal (E : Env) (user_query : string)
    (directory : Directory) (w : World) :
  OPENROUTER_API_KEY E = API_KEY_PLACEHOLDER
  \/ (exists msg,
        llm E (log w) AGENT_A_MODEL
          (create_agent_a_prompt user_query
             (create_directory_summary E directory)) = inr msg)
  \/ (exists content,
        llm E (log w) AGENT_A_MODEL
          (create_agent_a_prompt user_query
             (create_directory_summary E directory)) = inl content
        /\ json_loads E (extract_json (Py.strip content)) = None) ->
  process_user_query E user_query directory w
  = (Val (JStr MSG_ERROR),
     if String.eqb (OPENROUTER_API_KEY E) API_KEY_PLACEHOLDER then w
     else effect (EvInvoke AGENT_A_MODEL
                    (create_agent_a_prompt user_query
                       (create_directory_summary E directory))) w).
Proof.
  intros H.
  unfold process_user_query, query_agent_a, try_except,
    initialize_openrouter_client.
  unfold bind at 1. unfold bind at 1.
  destruct (String.eqb_spec (OPENROUTER_API_KEY E) API_KEY_PLACEHOLDER)
    as [Hk|Hk]; [reflexivity|].
  destruct H as [H|[(msg & H)|(content & H & Hj)]]; [contradiction| |].
  - unfold ret at 1. unfold bind at 1. unfold invoke. rewrite H. reflexivity.
  - unfold ret at 1. unfold bind at 1. unfold invoke. rewrite H, Hj.
    reflexivity.
Qed.

Lemma gatekeeper_failure_is_terminal_witness :
  process_user_query (Extra.failing []) "What is the mass?"
    Scenario.directory Scenario.chunked_world
  = (Val (JStr MSG_ERROR),
     effect (EvInvoke AGENT_A_MODEL
               (create_agent_a_prompt "What is the mass?" "{}"))
       Scenario.chunked_world).
Proof.
  apply (gatekeeper_failure_is_terminal (Extra.failing [])
           "What is the mass?" Scenario.directory Scenario.chunked_world).
  right. right. exists "facts". split; reflexivity.
Defined.

Section single_dispatch.

Variable E : Env.
Hypothesis key_ok : key_set E.

(** With a key, the call for the synthesis is made, whatever it gives. *)
Lemma synthesize_response_call (original_query agent_r_response : string)
    (w : World) :
  exists s,
    synthesize_response E original_query agent_r_response w
    = (Val s,
       effects [EvInvoke AGENT_A_MODEL
                  (synthesis_prompt original_query agent_r_response)] w).
Proof.
  unfold synthesize_response, try_except, bind.
  rewrite initialize_ok by exact key_ok. unfold invoke.
  destruct (llm E _ AGENT_A_MODEL _); eexists; reflexivity.
Qed.

End single_dispatch.

(** X14. A delegation to one section whose chunk file does not exist: the
    reference agent is not called; the text that says that the chunk file
    was not found takes the place of its answer and goes to the synthesis.
    The effects are the routing call, the attempt to read the file and the
    call for the synthesis. *)
Theorem single_dispatch_without_chunk (E : Env) (user_query : string)
    (directory : Directory) (w w1 : World) (kv : list (string * json))
    (id : string) (e : Entry) :
  query_agent_a E user_query directory w = (Val (JObj kv), w1) ->
  Dict.mem "error" kv = false ->
  PyVal.truthy (flag_of kv) = true ->
  scope_of_ids (scope_field kv) [id] ->
  Dict.get id directory = Some e ->
  files w !! chunk_file e = None ->
  (exists s,
     fst (process_user_query E user_query directory w) = Val (JStr s))
  /\ new_events w (snd (process_user_query E user_query directory w))
     = [EvInvoke AGENT_A_MODEL
          (synthesis_prompt user_query
             ("Error: Chunk file '" +:+ chunk_file e +:+ "' not found."));
        EvRead (chunk_file e);
        EvInvoke AGENT_A_MODEL
          (create_agent_a_prompt user_query
             (create_directory_summary E directory))].
Proof.
  intros Hq Hne Hf Hscope Hget Hfile.
  destruct (query_agent_a_inv E user_query directory w w1 (JObj kv) Hq)
    as [Hk Hw1]; [simpl; now rewrite Hne|].
  assert (Hfiles : files w1 !! chunk_file e = None).
  { rewrite <- Hfile. f_equal.
    rewrite <- (files_query_agent_a E user_query directory w).
    now rewrite Hq. }
  destruct (synthesize_response_call E Hk user_query
              ("Error: Chunk file '" +:+ chunk_file e +:+ "' not found.")
              (effect (EvRead (chunk_file e)) w1)) as (s & Hs).
  assert (Hp : process_user_query E user_query directory w
               = (Val (JStr s),
                  effects
                    [EvInvoke AGENT_A_MODEL
                       (synthesis_prompt user_query
                          ("Error: Chunk file '" +:+ chunk_file e
                           +:+ "' not found."));
                     EvRead (chunk_file e);
                     EvInvoke AGENT_A_MODEL
                       (create_agent_a_prompt user_query
                          (create_directory_summary E directory))] w)).
  { unfold process_user_query. unfold bind at 1. rewrite Hq.
    rewrite (route_validated E user_query directory kv Hne [id] w1 Hf Hscope).
    unfold missing_ids, Dict.mem. simpl List.filter. rewrite Hget.
    simpl negb. cbv iota.
    unfold dispatch. simpl map. cbv beta iota.
    unfold bind at 1. unfold bind at 1. unfold lift.
    simpl directory_item. rewrite Hget.
    unfold query_agent_r_single, try_except. unfold bind at 1.
    unfold read_text. rewrite Hfiles.
    unfold ret at 1. unfold bind at 1. rewrite Hs.
    unfold ret. rewrite Hw1. reflexivity. }
  rewrite Hp. split; [now exists s|].
  cbn [snd]. apply new_events_effects.
Qed.

Lemma single_dispatch_without_chunk_witness :
  let E := Scenario.env (Scenario.delegation (JStr "doc_chapter_1") "Parts?")
             (inl "facts") (inl "answer") in
  let w := Degraded.deleted in
  (exists s,
     fst (process_user_query E "Which parts?" Scenario.directory w)
     = Val (JStr s))
  /\ new_events w
       (snd (process_user_query E "Which parts?" Scenario.directory w))
     = [EvInvoke AGENT_A_MODEL
          (synthesis_prompt "Which parts?"
             "Error: Chunk file 'chunks/doc_chapter_1.txt' not found.");
        EvRead "chunks/doc_chapter_1.txt";
        EvInvoke AGENT_A_MODEL
          (create_agent_a_prompt "Which parts?" "{}")].
Proof.
  intros E w.
  refine (single_dispatch_without_chunk E "Which parts?" Scenario.directory w
            (effect (EvInvoke AGENT_A_MODEL
                       (create_agent_a_prompt "Which parts?" "{}")) w)
            [("needs_reference", JBool true);
             ("scope", JStr "doc_chapter_1");
             ("sub_query", JStr "Parts?"); ("reason", JStr "look it up")]
            "doc_chapter_1" (mkEntry "Overview" "chunks/doc_chapter_1.txt")
            _ _ _ _ _ _).
  - vm_compute. reflexivity.
  - reflexivity.
  - reflexivity.
  - left. exists "doc_chapter_1". split; reflexivity.
  - reflexivity.
  - vm_compute. reflexivity.
Defined.

(** X15. A reply of Agent A that decodes to something other than an object
    is never dispatched: the query ends where the routing call left the
    world, with the error message when the value is a list or a string that
    holds [error], and otherwise with an uncaught [TypeError] (for [null], a
    boolean or a number) or [AttributeError] (for a list or a string). *)
Theorem decision_that_is_no_object (E : Env) (user_query : string)
    (directory : Directory) (w w1 : World) (decision : json) :
  query_agent_a E user_query directory w = (Val decision, w1) ->
  (forall kv, decision <> JObj kv) ->
  process_user_query E user_query directory w
  = (match decision with
     | JStr s =>
         if is_substring "error" s then Val (JStr MSG_ERROR)
         else Exc AttributeError
     | JArr l =>
         if existsb (is_str "error") l then Val (JStr MSG_ERROR)
         else Exc AttributeError
     | _ => Exc TypeError
     end, w1).
Proof.
  intros Hq Hobj. unfold process_user_query, bind. rewrite Hq.
  unfold route, bind, lift.
  destruct decision as [| b | z | s | l | kv]; simpl; try reflexivity.
  - now destruct (is_substring "error" s).
  - now destruct (existsb (is_str "error") l).
  - now destruct (Hobj kv).
Qed.

Lemma decision_that_is_no_object_witness :
  process_user_query
    (Scenario.env (JInt 42) (inl "facts") (inl "answer"))
    "What is the mass?" Scenario.directory Scenario.chunked_world
  = (Exc TypeError,
     effect (EvInvoke AGENT_A_MODEL
               (create_agent_a_prompt "What is the mass?" "{}"))
       Scenario.chunked_world).
Proof.
  apply (decision_that_is_no_object
           (Scenario.env (JInt 42) (inl "facts") (inl "answer"))
           "What is the mass?" Scenario.directory Scenario.chunked_world
           (effect (EvInvoke AGENT_A_MODEL
                      (create_agent_a_prompt "What is the mass?" "{}"))
              Scenario.chunked_world)
           (JInt 42)).
  - vm_compute. reflexivity.
  - intros kv; discriminate.
Defined.

(** X16. An empty list as scope is not rejected: nothing is missing, so the
    delegation is dispatched; no chunk is read and the reference agent is
    asked with an empty context, and its answer (or the text of its failure)
    goes to the synthesis. *)
Theorem empty_scope_is_dispatched (E : Env) (user_query : string)
    (directory : Directory) (w w1 : World) (kv : list (string * json)) :
  query_agent_a E user_query directory w = (Val (JObj kv), w1) ->
  Dict.mem "error" kv = false ->
  PyVal.truthy (flag_of kv) = true ->
  scope_field kv = JArr [] ->
  exists r,
    new_events w (snd (process_user_query E user_query directory w))
    = [EvInvoke AGENT_A_MODEL (synthesis_prompt user_query r);
       EvInvoke AGENT_R_MODEL
         (create_multi_agent_r_prompt EmptyString
            (PyVal.str (sub_query_of kv)));
       EvInvoke AGENT_A_MODEL
         (create_agent_a_prompt user_query
            (create_directory_summary E directory))].
Proof.
  intros Hq Hne Hf Hscope.
  destruct (query_agent_a_inv E user_query directory w w1 (JObj kv) Hq)
    as [Hk Hw1]; [simpl; now rewrite Hne|].
  destruct (query_agent_r_multiple_run E [] (PyVal.str (sub_query_of kv))
              directory w1 Hk (List.Forall_nil _)) as (r & Hr).
  destruct (synthesize_response_call E Hk user_query r
              (effects
                 [EvInvoke AGENT_R_MODEL
                    (create_multi_agent_r_prompt
                       (assembled_context (files w1) directory 1 [])
                       (PyVal.str (sub_query_of kv)))] w1)) as (s & Hs).
  exists r.
  unfold process_user_query. unfold bind at 1. rewrite Hq.
  rewrite (route_validated E user_query directory kv Hne [] w1 Hf)
    by (right; exact Hscope).
  simpl missing_ids. cbv iota.
  unfold dispatch. simpl map. cbv beta iota.
  unfold bind at 1. unfold bind at 1. unfold lift. simpl directory_items.
  cbv beta iota. simpl map. rewrite Hr. simpl rev in Hs |- *.
  unfold bind at 1. rewrite Hs. unfold ret. cbn [snd].
  rewrite Hw1, <- !effects_app. rewrite new_events_effects.
  reflexivity.
Qed.

Lemma empty_scope_is_dispatched_witness :
  let E := Scenario.env (Scenario.delegation (JArr []) "Mass?")
             (inl "facts") (inl "answer") in
  let w := Scenario.chunked_world in
  exists r,
    new_events w
      (snd (process_user_query E "What is the mass?" Scenario.directory w))
    = [EvInvoke AGENT_A_MODEL (synthesis_prompt "What is the mass?" r);
       EvInvoke AGENT_R_MODEL
         (create_multi_agent_r_prompt EmptyString "Mass?");
       EvInvoke AGENT_A_MODEL
         (create_agent_a_prompt "What is the mass?" "{}")].
Proof.
  intros E w.
  refine (empty_scope_is_dispatched E "What is the mass?"
            Scenario.directory w
            (effect (EvInvoke AGENT_A_MODEL
                       (create_agent_a_prompt "What is the mass?" "{}")) w)
            [("needs_reference", JBool true); ("scope", JArr []);
             ("sub_query", JStr "Mass?"); ("reason", JStr "look it up")]
            _ _ _ _).
  - vm_compute. reflexivity.
  - reflexivity.
  - reflexivity.
  - reflexivity.
Defined.

Lemma missing_scopes_of_exc (directory : Directory) (l : list json) (x : exn) :
  missing_scopes_of directory l = Exc x -> x = TypeError.
Proof.
  induction l as [|s l IH]; simpl; [discriminate|].
  destruct (PyVal.hashable s); [|now intros [= <-]].
  destruct (missing_scopes_of directory l); [discriminate|].
  intros [= <-]. now apply IH.
Qed.

Lemma missing_scopes_of_other (directory : Directory) (l : list json)
    (s : json) :
  In s l -> (forall id, s <> JStr id) ->
  missing_scopes_of directory l = Exc TypeError
  \/ exists missing, missing_scopes_of directory l = Val missing
                     /\ In s missing.
Proof.
  intros Hin Hs. induction l as [|s' l IH]; [destruct Hin|].
  simpl. destruct (PyVal.hashable s') eqn:Hh; [|now left].
  destruct (missing_scopes_of directory l) as [m|x] eqn:Hm.
  - right. destruct Hin as [->|Hin].
    + exists (s :: m). split; [|now left].
      destruct s; try reflexivity. now destruct (Hs s).
    + destruct (IH Hin) as [Hx|(missing & [= <-] & Hin')]; [discriminate|].
      eexists. split; [reflexivity|].
      destruct (not_in_directory directory s'); [now right | assumption].
  - left. now rewrite (missing_scopes_of_exc directory l x Hm).
Qed.

(** X17. A scope list with an element that is not a string is never
    dispatched: the query ends after the routing call, with an uncaught
    [TypeError] when an element of the list cannot be hashed, and otherwise
    with the message on missing sections, the element among them. *)
Theorem scope_element_that_is_no_id (E : Env) (user_query : string)
    (directory : Directory) (w w1 : World) (kv : list (string * json))
    (l : list json) (s : json) :
  query_agent_a E user_query directory w = (Val (JObj kv), w1) ->
  Dict.mem "error" kv = false ->
  PyVal.truthy (flag_of kv) = true ->
  scope_field kv = JArr l ->
  In s l -> (forall id, s <> JStr id) ->
  process_user_query E user_query directory w = (Exc TypeError, w1)
  \/ exists missing,
       In s missing
       /\ process_user_query E user_query directory w
          = (Val (JStr (msg_missing missing)), w1).
Proof.
  intros Hq Hne Hf Hscope Hin Hs.
  unfold process_user_query, bind. rewrite Hq.
  unfold route, bind, lift, py_in, py_get.
  rewrite Hne. fold (flag_of kv) (scope_field kv) (sub_query_of kv).
  rewrite Hf, Hscope. simpl negb. cbv iota.
  destruct (missing_scopes_of_other directory l s Hin Hs)
    as [Hx|(missing & Hm & Hin')]; rewrite ?Hx, ?Hm.
  - now left.
  - right. exists missing. split; [exact Hin'|].
    destruct missing as [|m ms]; [destruct Hin' | reflexivity].
Qed.

Lemma scope_element_that_is_no_id_witness :
  let E := Scenario.env
             (Scenario.delegation (JArr [JStr "doc_chapter_1"; JInt 2])
                "Mass?")
             (inl "facts") (inl "answer") in
  let w := Scenario.chunked_world in
  let w1 := effect (EvInvoke AGENT_A_MODEL
                      (create_agent_a_prompt "What is the mass?" "{}")) w in
  process_user_query E "What is the mass?" Scenario.directory w
  = (Exc TypeError, w1)
  \/ exists missing,
       In (JInt 2) missing
       /\ process_user_query E "What is the mass?" Scenario.directory w
          = (Val (JStr (msg_missing missing)), w1).
Proof.
  intros E w w1.
  refine (scope_element_that_is_no_id E "What is the mass?"
            Scenario.directory w w1
            [("needs_reference", JBool true);
             ("scope", JArr [JStr "doc_chapter_1"; JInt 2]);
             ("sub_query", JStr "Mass?"); ("reason", JStr "look it up")]
            [JStr "doc_chapter_1"; JInt 2] (JInt 2) _ _ _ _ _ _).
  - vm_compute. reflexivity.
  - reflexivity.
  - reflexivity.
  - reflexivity.
  - right. now left.
  - intros id; discriminate.
Defined.

(* ===================================================================== *)
(** * Further properties: the command loops                                *)
(* ===================================================================== *)

Lemma bounded_app (a1 r1 a2 r2 : nat) (evs1 evs2 : list Event) :
  bounded a1 r1 evs1 -> bounded a2 r2 evs2 ->
  bounded (a1 + a2) (r1 + r2) (evs1 ++ evs2).
Proof.
  unfold bounded, calls. intros (Hw1 & Ha1 & Hr1) (Hw2 & Ha2 & Hr2).
  rewrite existsb_app, !List.filter_app, !length_app, Hw1, Hw2.
  repeat split; lia.
Qed.

Lemma bounded_nil (a r : nat) : bounded a r [].
Proof. unfold bounded, calls. simpl. repeat split; lia. Qed.

Lemma bounded_weaken (a r a' r' : nat) (evs : list Event) :
  bounded a r evs -> a <= a' -> r <= r' -> bounded a' r' evs.
Proof. unfold bounded. intros (Hw & Ha & Hr) Ha' Hr'. repeat split; [assumption|lia|lia]. Qed.

Section loop_facts.

Variable E : Env.

(** A turn of the loop of [main] that is not a [load] command, with its
    exception caught: the directory is kept, and the effects are those of
    at most one query. *)
Lemma main_turn_question (raw : string) (directory : Directory) (w : World) :
  no_load (Line raw) = true ->
  exists evs,
    try_except (main_turn E (Py.strip raw) directory)
      (fun _ => ret directory) w
    = (Val directory, effects evs w)
    /\ bounded 2 1 evs
    /\ (directory = [] -> evs = []).
Proof.
  intros Hload. simpl in Hload. apply negb_true_iff in Hload.
  unfold try_except, main_turn. rewrite Hload.
  destruct (String.eqb (PyStr.lower (Py.strip raw)) "help").
  - exists []. split; [reflexivity|]. split; [apply bounded_nil | reflexivity].
  - destruct directory as [|entry directory'].
    + exists []. split; [reflexivity|].
      split; [apply bounded_nil | reflexivity].
    + cbn [List.length Nat.eqb].
      destruct (process_user_query_run E (Py.strip raw)
                  (entry :: directory') w)
        as (res & synth & rc & gate & Hp & Hsynth & Hrc & Hgate).
      exists (synth ++ rc ++ gate). unfold bind. rewrite Hp.
      split; [now destruct res|].
      split; [now apply bounded_shape | discriminate].
Qed.

Lemma main_loop_questions (inputs : list Input) (directory : Directory) :
  forallb no_load inputs = true ->
  forall w, exists s evs,
    main_loop E inputs directory w = (Val s, effects evs w)
    /\ (s = Ended \/ s = Waiting directory)
    /\ bounded (2 * List.length inputs) (List.length inputs) evs
    /\ (directory = [] -> evs = []).
Proof.
  induction inputs as [|i inputs IH]; intros Hall w.
  - exists (Waiting directory), []. split; [reflexivity|].
    split; [now right|]. split; [apply bounded_nil | reflexivity].
  - simpl in Hall. apply andb_prop in Hall. destruct Hall as [Hi Hall].
    destruct i as [raw|].
    + cbn [main_loop].
      destruct (Py.nonempty (Py.strip raw)); cbn [negb].
      * destruct (is_quit (Py.strip raw)).
        -- exists Ended, []. split; [reflexivity|].
           split; [now left|]. split; [apply bounded_nil | reflexivity].
        -- destruct (main_turn_question raw directory w Hi)
             as (evs1 & Ht & Hb1 & He1).
           destruct (IH Hall (effects evs1 w))
             as (s & evs2 & Hl & Hs & Hb2 & He2).
           exists s, (evs2 ++ evs1). unfold bind. rewrite Ht, Hl.
           split; [now rewrite effects_app|].
           split; [exact Hs|]. split.
           ++ eapply bounded_weaken;
                [apply (bounded_app _ _ _ _ _ _ Hb2 Hb1) | simpl; lia
                | simpl; lia].
           ++ intros Hd. now rewrite (He1 Hd), (He2 Hd).
      * destruct (IH Hall w) as (s & evs & Hl & Hs & Hb & He).
        exists s, evs. split; [exact Hl|]. split; [exact Hs|].
        split; [|exact He].
        eapply bounded_weaken; [exact Hb | simpl; lia | simpl; lia].
    + exists Ended, []. split; [reflexivity|].
      split; [now left|]. split; [apply bounded_nil | reflexivity].
Qed.

End loop_facts.

(** X18. As long as no input is a [load] command, the loop of [main] never
    raises, writes no file and keeps the directory it was started with; each
    input costs at most two calls to Agent A and one call to the reference
    agent, and with an empty directory no model is called and no file is
    read. *)
Theorem questions_leave_the_files_alone (E : Env) (inputs : list Input)
    (directory : Directory) (w : World) :
  forallb no_load inputs = true ->
  exists s evs,
    main_loop E inputs directory w = (Val s, effects evs w)
    /\ (s = Ended \/ s = Waiting directory)
    /\ bounded (2 * List.length inputs) (List.length inputs) evs
    /\ files (effects evs w) = files w
    /\ (directory = [] -> evs = []).
Proof.
  intros Hall.
  destruct (main_loop_questions E inputs directory Hall w)
    as (s & evs & Hl & Hs & Hb & He).
  exists s, evs. split; [exact Hl|]. split; [exact Hs|].
  split; [exact Hb|]. split; [|exact He].
  apply files_effects_no_write. apply Hb.
Qed.

Lemma questions_leave_the_files_alone_witness :
  let E := Scenario.env (Scenario.delegation (JStr "doc_chapter_2") "Mass?")
             (inl "facts") (inl "answer") in
  let inputs := [Line "What is the mass?"; Line "  "; Line "help";
                 Line "Loading takes how long?"; Line "QUIT"] in
  exists s evs,
    main_loop E inputs Scenario.directory Scenario.chunked_world
    = (Val s, effects evs Scenario.chunked_world)
    /\ (s = Ended \/ s = Waiting Scenario.directory)
    /\ bounded (2 * List.length inputs) (List.length inputs) evs
    /\ files (effects evs Scenario.chunked_world)
       = files Scenario.chunked_world
    /\ (Scenario.directory = [] -> evs = []).
Proof.
  intros E inputs.
  apply (questions_leave_the_files_alone E inputs Scenario.directory
           Scenario.chunked_world).
  vm_compute. reflexivity.
Defined.

Lemma blank_is_no_quit (user_input : string) :
  Py.nonempty user_input = false -> is_quit user_input = false.
Proof. destruct user_input; [reflexivity | discriminate]. Qed.

(** X19. The two command loops never raise, whatever a turn does, and they
    end on nothing but a request to leave: the session has ended after the
    inputs exactly when one of them is an interruption or, stripped and in
    lower case, one of [quit], [exit] and [q]. *)
Theorem command_loops_end_on_request (E : Env) (inputs : list Input)
    (directory : Directory) (w : World) :
  (exists s w',
     main_loop E inputs directory w = (Val s, w')
     /\ (s = Ended <-> existsb leaves inputs = true))
  /\ (exists s w',
        Demo.demo_loop inputs directory w = (Val s, w')
        /\ (s = Ended <-> existsb leaves inputs = true)).
Proof.
  split.
  - revert directory w.
    induction inputs as [|i inputs IH]; intros directory w.
    + exists (Waiting directory), w. split; [reflexivity|].
      split; discriminate.
    + destruct i as [raw|].
      * cbn [main_loop existsb leaves].
        destruct (Py.nonempty (Py.strip raw)) eqn:Hne; cbn [negb].
        -- destruct (is_quit (Py.strip raw)).
           ++ exists Ended, w. split; [reflexivity|]. now split.
           ++ unfold bind, try_except.
              destruct (main_turn E (Py.strip raw) directory w)
                as [[directory'|e] w1]; unfold ret; cbn [orb]; apply IH.
        -- rewrite (blank_is_no_quit _ Hne). cbn [orb]. apply IH.
      * exists Ended, w. split; [reflexivity|]. now split.
  - revert w.
    induction inputs as [|i inputs IH]; intros w.
    + exists (Waiting directory), w. split; [reflexivity|].
      split; discriminate.
    + destruct i as [raw|].
      * cbn [Demo.demo_loop existsb leaves].
        destruct (Py.nonempty (Py.strip raw)) eqn:Hne; cbn [negb].
        -- destruct (is_quit (Py.strip raw)).
           ++ exists Ended, w. split; [reflexivity|]. now split.
           ++ unfold bind, try_except.
              destruct (Demo.demo_turn (Py.strip raw) directory w)
                as [[shown|e] w1]; unfold ret; cbn [orb]; apply IH.
        -- rewrite (blank_is_no_quit _ Hne). cbn [orb]. apply IH.
      * exists Ended, w. split; [reflexivity|]. now split.
Qed.

(* ===================================================================== *)
(** * Further properties: the demo                                         *)
(* ===================================================================== *)

Lemma list_ascii_app (a b : string) :
  list_ascii_of_string (a +:+ b)
  = list_ascii_of_string a ++ list_ascii_of_string b.
Proof.
  induction a as [|c a IH]; [reflexivity|].
  rewrite append_cons. simpl. now rewrite IH.
Qed.

Lemma digits_of_uint (d : Decimal.uint) :
  forallb is_digit (list_ascii_of_string (NilEmpty.string_of_uint d)) = true.
Proof. induction d; simpl; auto. Qed.

Lemma drop_digits_app (ds rest : list ascii) :
  forallb is_digit ds = true -> drop_digits (ds ++ rest) = drop_digits rest.
Proof.
  induction ds as [|c ds IH]; simpl; [reflexivity|].
  intros H. apply andb_prop in H. destruct H as [Hc Hds].
  rewrite Hc. now apply IH.
Qed.

Lemma forallb_rev {A} (f : A -> bool) (l : list A) :
  forallb f (rev l) = forallb f l.
Proof.
  induction l as [|x l IH]; [reflexivity|].
  simpl. rewrite forallb_app, IH. simpl. rewrite andb_true_r.
  apply andb_comm.
Qed.

(** An id made of a text that ends with [c] and an underscore, then a
    number, has the kind [c]. *)
Lemma id_kind_numbered (p : string) (c : ascii) (n : nat) :
  id_kind (p +:+ String c "_" +:+ Py.str_nat n) = ["_"%char; c].
Proof.
  unfold id_kind.
  rewrite !list_ascii_app, !rev_app_distr, <- app_assoc.
  rewrite drop_digits_app
    by (rewrite forallb_rev; apply digits_of_uint).
  simpl. reflexivity.
Qed.

Lemma id_kind_chapter (file_prefix : string) (n : nat) :
  id_kind (chapter_id file_prefix n) = ["_"; "r"]%char.
Proof.
  unfold chapter_id.
  change ("_chapter_" +:+ Py.str_nat n)
    with ("_chapte" +:+ (String "r" "_" +:+ Py.str_nat n)).
  rewrite <- append_assoc.
  apply (id_kind_numbered (file_prefix +:+ "_chapte") "r" n).
Qed.

Lemma id_kind_group (file_prefix : string) (n : nat) :
  id_kind (group_id file_prefix n) = ["_"; "p"]%char.
Proof.
  unfold group_id.
  change ("_group_" +:+ Py.str_nat n)
    with ("_grou" +:+ (String "p" "_" +:+ Py.str_nat n)).
  rewrite <- append_assoc.
  apply (id_kind_numbered (file_prefix +:+ "_grou") "p" n).
Qed.

Lemma mem_keys {V} (k : string) (d : list (string * V)) :
  Dict.mem k d = true -> In k (Dict.keys d).
Proof.
  unfold Dict.mem. intros H.
  destruct (Dict.get k d) eqn:Hg; [|discriminate].
  destruct (in_dec string_dec k (Dict.keys d)) as [Hin|Hnin]; [exact Hin|].
  apply get_none_keys in Hnin. congruence.
Qed.

(** The section ids that the simulated gatekeeper can name. *)
Lemma teleport_scope_numbered (q : string) :
  exists n,
    Demo.teleport_scope q = "teleportation_manual_section_" +:+ Py.str_nat n.
Proof.
  unfold Demo.teleport_scope.
  destruct (Demo.any_in _ q); [now exists 1|].
  destruct (Demo.any_in _ q); [now exists 2|].
  destruct (Demo.any_in _ q); [now exists 3|].
  destruct (Demo.any_in _ q); [now exists 4 | now exists 1].
Qed.

Lemma planet_scope_numbered (q : string) :
  exists n,
    Demo.planet_scope q = "planet_kepler_vorthak_section_" +:+ Py.str_nat n.
Proof.
  unfold Demo.planet_scope.
  destruct (Demo.any_in _ q); [now exists 1|].
  destruct (Demo.any_in _ q); [now exists 2|].
  destruct (Demo.any_in _ q); [now exists 3|].
  destruct (Demo.any_in _ q); [now exists 4|].
  destruct (Demo.any_in _ q); [now exists 5 | now exists 1].
Qed.

(** The decisions of the simulated gatekeeper: a delegation to one numbered
    section, with a sub-query that ends with the query, or one of the two
    direct answers. *)
Lemma simulated_decision_cases (user_query : string) (directory : Directory) :
  (exists manual n lead reason,
     Demo.simulate_agent_a_decision user_query directory
     = Demo.delegate (manual +:+ String "n" "_" +:+ Py.str_nat n)
         (lead +:+ String ":" (String " " user_query)) reason
     /\ (manual = "teleportation_manual_sectio"
         \/ manual = "planet_kepler_vorthak_sectio"))
  \/ Demo.simulate_agent_a_decision user_query directory
     = Demo.answer Demo.GREETING
  \/ Demo.simulate_agent_a_decision user_query directory
     = Demo.answer Demo.NOT_SURE.
Proof.
  unfold Demo.simulate_agent_a_decision.
  destruct (0 <? Demo.matches Demo.teleport_keywords _)%nat.
  - left. destruct (teleport_scope_numbered (PyStr.lower user_query))
      as (n & ->).
    exists "teleportation_manual_sectio", n,
      "Please answer this question about the teleportation device".
    eexists. split; [reflexivity | now left].
  - destruct (0 <? Demo.matches Demo.planet_keywords _)%nat.
    + left. destruct (planet_scope_numbered (PyStr.lower user_query))
        as (n & ->).
      exists "planet_kepler_vorthak_sectio", n,
        "Please answer this question about planet Kepler-Vorthak".
      eexists. split; [reflexivity | now right].
    + right. destruct (Demo.any_in Demo.general_questions _);
        [now left | now right].
Qed.

(** X20. Every decision of the simulated gatekeeper passes the validation
    of the specification: it is an object with a boolean flag, and when it
    delegates the sub-query is a string that is not empty and the scope is
    one section id, [teleportation_manual_section_n] or
    [planet_kepler_vorthak_section_n]. *)
Theorem simulated_decisions_are_valid (user_query : string)
    (directory : Directory) :
  spec_valid_decision (Demo.simulate_agent_a_decision user_query directory)
  /\ forall kv,
       Demo.simulate_agent_a_decision user_query directory = JObj kv ->
       PyVal.truthy (flag_of kv) = true ->
       exists n,
         scope_field kv
         = JStr ("teleportation_manual_section_" +:+ Py.str_nat n)
         \/ scope_field kv
            = JStr ("planet_kepler_vorthak_section_" +:+ Py.str_nat n).
Proof.
  destruct (simulated_decision_cases user_query directory)
    as [(manual & n & lead & reason & -> & Hm)|[->| ->]].
  - split.
    + eexists _, true. split; [reflexivity|]. split; [reflexivity|].
      intros _. eexists. split; [reflexivity|].
      destruct lead; discriminate.
    + intros kv [= <-] _. exists n.
      destruct Hm as [-> | ->]; [left | right]; reflexivity.
  - split.
    + eexists _, false. split; [reflexivity|]. split; [reflexivity|].
      discriminate.
    + intros kv [= <-]. discriminate.
  - split.
    + eexists _, false. split; [reflexivity|]. split; [reflexivity|].
      discriminate.
    + intros kv [= <-]. discriminate.
Qed.

(** X21. The demo finds none of its sections in a directory whose ids are
    ids of the chunker ([<prefix>_chapter_<n>] or [<prefix>_group_<n>]): a
    turn reads no file and has no other effect, and what it shows is one of
    the two direct answers or, for a delegation, that the section was not
    found. *)
Theorem demo_finds_no_chunker_section (directory : Directory)
    (user_input : string) (w : World) :
  chunker_ids directory ->
  Demo.demo_turn user_input directory w = (Val None, w)
  \/ Demo.demo_turn user_input directory w = (Val (Some Demo.GREETING), w)
  \/ Demo.demo_turn user_input directory w = (Val (Some Demo.NOT_SURE), w).
Proof.
  intros Hids. unfold Demo.demo_turn.
  destruct (simulated_decision_cases user_input directory)
    as [(manual & n & lead & reason & -> & Hm)|[->| ->]].
  - left.
    assert (Hmem : Dict.mem (manual +:+ String "n" "_" +:+ Py.str_nat n)
                     directory = false).
    { destruct (Dict.mem _ directory) eqn:Hmem; [|reflexivity].
      apply mem_keys in Hmem.
      destruct (Hids _ Hmem) as (file_prefix & k & [Hid|Hid]);
        apply (f_equal id_kind) in Hid;
        rewrite id_kind_numbered in Hid;
        rewrite ?id_kind_chapter, ?id_kind_group in Hid; discriminate. }
    unfold bind, lift, py_in_directory. simpl. rewrite Hmem. reflexivity.
  - right. left. reflexivity.
  - right. right. reflexivity.
Qed.

Lemma demo_finds_no_chunker_section_witness :
  let q := "What are the specifications of the teleportation device?" in
  Demo.demo_turn q Scenario.directory Scenario.chunked_world
  = (Val None, Scenario.chunked_world)
  \/ Demo.demo_turn q Scenario.directory Scenario.chunked_world
     = (Val (Some Demo.GREETING), Scenario.chunked_world)
  \/ Demo.demo_turn q Scenario.directory Scenario.chunked_world
     = (Val (Some Demo.NOT_SURE), Scenario.chunked_world).
Proof.
  intros q.
  apply (demo_finds_no_chunker_section Scenario.directory q
           Scenario.chunked_world).
  intros id Hin. exists "doc".
  simpl in Hin. destruct Hin as [<-|[<-|[]]];
    [exists 1 | exists 2]; left; reflexivity.
Defined.










(* ===================================================================== *)
(** * Further properties: the files that the system writes                 *)
(* ===================================================================== *)








Section own_files.

Variable E : Env.









End own_files.




(** A document whose own path is that of the directory file is
    overwritten when it is loaded. *)
Example loading_the_directory_file_overwrites_it :
  let after := snd (main_loop Scenario.plain [Line "load directory.json"] []
                      Shared.misnamed) in
  files Shared.misnamed !! DIRECTORY_FILE = Some (Text Scenario.two_chapters)
  /\ files after !! DIRECTORY_FILE = Some (Text "{}").
Proof. split; vm_compute; reflexivity. Qed.

(* ===================================================================== *)
(** * Further properties: the effects of the demo                          *)
(* ===================================================================== *)

Lemma simulate_agent_r_response_run (chunk_file sub_query : string)
    (w : World) :
  exists shown,
    Demo.simulate_agent_r_response chunk_file sub_query w
    = (Val shown, effects [EvRead chunk_file] w).
Proof.
  unfold Demo.simulate_agent_r_response, try_except, bind, read_text.
  destruct (files w !! chunk_file) as [[body|msg]|]; eexists; reflexivity.
Qed.

Lemma demo_turn_run (user_input : string) (directory : Directory)
    (w : World) :
  exists res evs,
    Demo.demo_turn user_input directory w = (res, effects evs w)
    /\ forallb is_read evs = true /\ List.length evs <= 1.
Proof.
  unfold Demo.demo_turn.
  destruct (simulated_decision_cases user_input directory)
    as [(manual & n & lead & reason & -> & Hm)|[->| ->]].
  - unfold bind, lift, py_in_directory. simpl.
    destruct (Dict.mem _ directory); simpl.
    + destruct (Dict.get _ directory) as [e|].
      * destruct (simulate_agent_r_response_run (chunk_file e)
                    (lead +:+ String ":" (String " " user_input)) w)
          as (shown & ->).
        eexists _, [_]. split; [reflexivity|]. split; [reflexivity | simpl; lia].
      * eexists _, []. split; [reflexivity|]. split; [reflexivity | simpl; lia].
    + eexists _, []. split; [reflexivity|]. split; [reflexivity | simpl; lia].
  - eexists _, []. split; [reflexivity|]. split; [reflexivity | simpl; lia].
  - eexists _, []. split; [reflexivity|]. split; [reflexivity | simpl; lia].
Qed.

Lemma demo_loop_run (inputs : list Input) (directory : Directory) :
  forall w, exists s evs,
    Demo.demo_loop inputs directory w = (Val s, effects evs w)
    /\ forallb is_read evs = true
    /\ List.length evs <= List.length inputs.
Proof.
  induction inputs as [|i inputs IH]; intros w.
  - exists (Waiting directory), []. split; [reflexivity|].
    split; [reflexivity | simpl; lia].
  - destruct i as [raw|].
    + cbn [Demo.demo_loop].
      destruct (negb (Py.nonempty (Py.strip raw))).
      * destruct (IH w) as (s & evs & Hl & Hr & Hn).
        exists s, evs. split; [exact Hl|]. split; [exact Hr | simpl; lia].
      * destruct (is_quit (Py.strip raw)).
        -- exists Ended, []. split; [reflexivity|].
           split; [reflexivity | simpl; lia].
        -- destruct (demo_turn_run (Py.strip raw) directory w)
             as (res & evs1 & Ht & Hr1 & Hn1).
           destruct (IH (effects evs1 w)) as (s & evs2 & Hl & Hr2 & Hn2).
           exists s, (evs2 ++ evs1). split; [|split].
           ++ unfold bind, try_except. rewrite Ht.
              destruct res; unfold ret; rewrite Hl; now rewrite effects_app.
           ++ now rewrite forallb_app, Hr1, Hr2.
           ++ rewrite length_app. simpl. lia.
    + exists Ended, []. split; [reflexivity|].
      split; [reflexivity | simpl; lia].
Qed.

(** X24. The demo calls no model and writes no file: its effects are reads
    only, at most one for the directory file and one chunk for each input,
    and every file holds afterwards what it held before. *)
Theorem demo_only_reads (E : Env) (inputs : list Input) (w : World) :
  exists res evs,
    demo_system E inputs w = (res, effects evs w)
    /\ forallb is_read evs = true
    /\ List.length evs <= 1 + List.length inputs
    /\ files (effects evs w) = files w.
Proof.
  assert (Hfiles : forall evs, forallb is_read evs = true ->
                     files (effects evs w) = files w).
  { intros evs Hr. apply files_effects_no_write.
    induction evs as [|ev evs IH]; [reflexivity|].
    simpl in *. apply andb_prop in Hr. destruct Hr as [Hev Hr].
    destruct ev; try discriminate. now apply IH. }
  assert (Hload : exists res evs,
            load_directory E w = (res, effects evs w)
            /\ forallb is_read evs = true /\ List.length evs <= 1).
  { unfold load_directory, bind, path_exists, try_except, read_text.
    destruct (files w !! DIRECTORY_FILE) as [[text|msg]|] eqn:Hf.
    - rewrite bool_decide_eq_true_2 by eauto. cbn [negb].
      rewrite Hf. unfold ret.
      destruct (directory_loads E text); eexists _, [_];
        (split; [reflexivity|]); (split; [reflexivity | simpl; lia]).
    - rewrite bool_decide_eq_true_2 by eauto. cbn [negb].
      rewrite Hf. eexists _, [_].
      split; [reflexivity|]. split; [reflexivity | simpl; lia].
    - rewrite bool_decide_eq_false_2 by (intros [x Hx]; discriminate).
      cbn [negb]. eexists _, [].
      split; [reflexivity|]. split; [reflexivity | simpl; lia]. }
  destruct Hload as (res & evs1 & Hl & Hr1 & Hn1).
  unfold demo_system, bind. rewrite Hl.
  destruct res as [[|entry directory]|e].
  - exists (Val Ended), evs1. split; [reflexivity|]. split; [exact Hr1|].
    split; [lia | now apply Hfiles].
  - destruct (demo_loop_run inputs (entry :: directory) (effects evs1 w))
      as (s & evs2 & Hd & Hr2 & Hn2).
    exists (Val s), (evs2 ++ evs1). rewrite Hd.
    split; [now rewrite effects_app|].
    assert (Hr : forallb is_read (evs2 ++ evs1) = true)
      by now rewrite forallb_app, Hr1, Hr2.
    split; [exact Hr|]. split; [rewrite length_app; lia|].
    now apply Hfiles.
  - exists (Exc e), evs1. split; [reflexivity|]. split; [exact Hr1|].
    split; [lia | now apply Hfiles].
Qed.

(* ===================================================================== *)
(** * Further properties: the reply of Agent A and the ids                 *)
(* ===================================================================== *)

Lemma find_app (d : ascii) (a r : string) :
  find d a = None -> find d (a +:+ String d r) = Some (String.length a).
Proof.
  induction a as [|c a IH].
  - intros _. rewrite append_nil_l. simpl. now rewrite Ascii.eqb_refl.
  - rewrite append_cons. simpl.
    destruct (Ascii.eqb c d); [discriminate|].
    destruct (find d a); [discriminate|].
    intros _. now rewrite IH.
Qed.

Lemma rfind_app (d : ascii) (a r : string) :
  Py.rfind d r = None ->
  Py.rfind d (a +:+ String d r) = Some (String.length a).
Proof.
  intros Hr. induction a as [|c a IH].
  - rewrite append_nil_l. simpl. now rewrite Hr, Ascii.eqb_refl.
  - rewrite append_cons. simpl. now rewrite IH.
Qed.

Lemma substring_skip (a b : string) (n : nat) :
  String.substring (String.length a) n (a +:+ b) = String.substring 0 n b.
Proof.
  induction a as [|c a IH]; [now rewrite append_nil_l|].
  rewrite append_cons. simpl. exact IH.
Qed.

Lemma substring_prefix (a b : string) :
  String.substring 0 (String.length a) (a +:+ b) = a.
Proof.
  induction a as [|c a IH].
  - simpl. now destruct (EmptyString +:+ b).
  - rewrite append_cons. simpl. now rewrite IH.
Qed.

(** X25. What is decoded of a reply of Agent A is its JSON object, without
    the text around it: for a reply made of a text without an opening
    brace, an object in braces, and a text without a closing brace, the
    object is what [json.loads] is given. *)
Theorem object_is_cut_out_of_the_reply (pre body post : string) :
  find "{" pre = None -> Py.rfind "}" post = None ->
  extract_json (pre +:+ "{" +:+ body +:+ "}" +:+ post)
  = "{" +:+ body +:+ "}".
Proof.
  intros Hpre Hpost. unfold extract_json.
  change (pre +:+ "{" +:+ body +:+ "}" +:+ post)
    with (pre +:+ String "{" (body +:+ String "}" post)).
  rewrite (find_app "{" pre _ Hpre).
  replace (pre +:+ String "{" (body +:+ String "}" post))
    with ((pre +:+ String "{" body) +:+ String "}" post)
    by (now rewrite append_assoc, append_cons).
  rewrite (rfind_app "}" _ post Hpost).
  rewrite length_append. cbn [String.length].
  replace (String.length pre <? String.length pre + S (String.length body))%nat
    with true by (symmetry; apply Nat.ltb_lt; lia).
  rewrite append_assoc, append_cons.
  rewrite substring_skip.
  replace (String "{" (body +:+ String "}" post))
    with (("{" +:+ body +:+ "}") +:+ post)
    by (rewrite !append_cons, append_nil_l, append_assoc,
          append_cons, append_nil_l; reflexivity).
  replace (String.length pre + S (String.length body) - String.length pre + 1)
    with (String.length ("{" +:+ body +:+ "}"))
    by (rewrite append_cons, append_nil_l; cbn [String.length];
        rewrite length_append; simpl; lia).
  apply substring_prefix.
Qed.

Lemma object_is_cut_out_of_the_reply_witness :
  extract_json
    ("```json" +:+ Py.nl +:+ "{" +:+ "'needs_reference': false" +:+ "}"
     +:+ Py.nl +:+ "```")
  = "{" +:+ "'needs_reference': false" +:+ "}".
Proof.
  apply (object_is_cut_out_of_the_reply ("```json" +:+ Py.nl)
           "'needs_reference': false" (Py.nl +:+ "```")).
  - reflexivity.
  - reflexivity.
Defined.

Lemma replace_removes (a b : ascii) (s : string) :
  a <> b -> PyVal.contains a (Py.replace a b s) = false.
Proof.
  intros Hab. induction s as [|c s IH]; [reflexivity|].
  simpl. rewrite IH, orb_false_r.
  destruct (Ascii.eqb_spec c a) as [->|Hc]; apply Ascii.eqb_neq; congruence.
Qed.

Lemma replace_keeps_out (a b x : ascii) (s : string) :
  x <> b -> PyVal.contains x s = false ->
  PyVal.contains x (Py.replace a b s) = false.
Proof.
  intros Hxb. induction s as [|c s IH]; [reflexivity|].
  simpl. intros H. apply orb_false_elim in H. destruct H as [Hc Hs].
  rewrite (IH Hs), orb_false_r.
  destruct (Ascii.eqb c a); [now apply Ascii.eqb_neq | exact Hc].
Qed.

(** X26. The prefix that the ids and the chunk files of a document are
    named after has no space and no hyphen, whatever the path of the
    document. *)
Theorem file_prefix_is_normalized (file_path : string) :
  PyVal.contains " " (file_prefix_of file_path) = false
  /\ PyVal.contains "-" (file_prefix_of file_path) = false.
Proof.
  unfold file_prefix_of. split.
  - apply replace_keeps_out; [discriminate|].
    apply replace_removes. discriminate.
  - apply replace_removes. discriminate.
Qed.
